(** * libsigrok session core (src/session.c): shallow embedding and properties

    The development follows session.c function by function.  C [int] and
    [int64_t] values are integers in [Z]; signed overflow is undefined in C
    and does not occur for the magnitudes handled here (descriptor counts,
    microsecond clock readings), so signed arithmetic is written with the
    plain operations of [Z].  Conversions to unsigned types ([guint]) and
    narrowing casts are written out.  A [GArray] is a list; a NULL pointer
    argument is [None]. *)

From stdpp Require Import base numbers list.
From Stdlib Require Import ZArith Lia.

Open Scope Z_scope.

(** ** Constants of libsigrok.h and of the C library *)

(** Modelled from the spec: the status codes Ok, Generic, MallocFailure,
    BadArg and Bug of section 6.  They are the enumerators SR_OK, SR_ERR,
    SR_ERR_MALLOC, SR_ERR_ARG and SR_ERR_BUG of libsigrok.h, which session.c
    includes; the numbers are those of that header. *)

Definition SR_OK : Z := 0.
Definition SR_ERR : Z := -1.
Definition SR_ERR_MALLOC : Z := -2.
Definition SR_ERR_ARG : Z := -3.
Definition SR_ERR_BUG : Z := -4.

Definition INT_MAX : Z := 2 ^ 31 - 1.
Definition INT64_MAX : Z := 2 ^ 63 - 1.
Definition G_USEC_PER_SEC : Z := 1000000.

(** Conversion of an [int] to [guint] (the length parameters of GArray). *)
Definition guint (z : Z) : Z := z mod 2 ^ 32.

(** Conversion of an [int] to [gushort] (the [events] field of GPollFD). *)
Definition gushort (z : Z) : Z := z mod 2 ^ 16.

(** The 32 low bits of a value read as a signed [int]: the cast
    [(int)poll_object] of a [gintptr], and the value of an [int] field
    read from memory. *)
Definition int_of_gintptr (z : Z) : Z := (z + 2 ^ 31) mod 2 ^ 32 - 2 ^ 31.

(** ** GArray operations used by the registry (GLib)

    [g_array_append_vals a data len] appends the first [len] elements found
    at [data]; a [len] beyond what [data] holds makes the C code read past
    the array of the caller, which is undefined and has no counterpart
    here: statements about an accepted add carry [call_in_contract], which
    excludes it.  [g_array_remove_index a i] and
    [g_array_remove_range a i n] leave the array unchanged when the range
    is not inside it (GLib's [g_return_val_if_fail]). *)

Definition g_array_append_vals {A} (a : list A) (data : option (list A))
    (len : Z) : list A :=
  if len =? 0 then a
  else a ++ take (Z.to_nat len) (default [] data).

Definition g_array_append_val {A} (a : list A) (x : A) : list A := a ++ [x].

Definition g_array_remove_index {A} (a : list A) (index_ : nat) : list A :=
  delete index_ a.

Definition g_array_remove_range {A} (a : list A) (index_ length_ : Z) : list A :=
  if (index_ + length_ <=? Z.of_nat (length a))
  then take (Z.to_nat index_) a ++ drop (Z.to_nat (index_ + length_)) a
  else a.

(** ** Data model: struct source, GPollFD, the session *)

Record GPollFD := mkPollFD { fd : Z; events : Z; revents : Z }.

(** [struct source] of session.c.  [cb] is the address of the callback (0 is
    NULL).
    [src_id] is a ghost field: it numbers the registry entries in the order
    of their creation, so that an entry can be told from a later entry
    installed under the same [poll_object].  No operation reads it. *)
Record source := mkSource {
  timeout : Z;
  due : Z;
  cb : Z;
  cb_data : Z;
  poll_object : Z;
  num_fds : Z;
  triggered : bool;
  src_id : nat
}.

(** Modelled from the spec: the context handle of section 3, with the USB
    integration of section 6.  [struct sr_context] is declared in
    libsigrok-internal.h; these are the two members that session.c reads. *)
Record sr_context := mkContext {
  libusb_ctx : Z;
  usb_source_present : bool
}.

(** Modelled from the spec: the driver capability of section 6 and the
    device of section 4.3.  [struct sr_dev_driver], [struct sr_dev_inst] and
    [struct sr_channel] are declared in libsigrok.h and
    libsigrok-internal.h; these are the members that session.c reads.
    Function pointers are addresses, 0 being NULL. *)
Record sr_dev_driver := mkDriver {
  dev_open : Z;
  dev_acquisition_start : Z;
  dev_acquisition_stop : Z
}.

Record sr_dev_inst := mkDevInst {
  sdi_addr : Z;
  driver : option sr_dev_driver;
  channels : list bool;          (* the [enabled] flag of each channel *)
  sdi_session : bool             (* [sdi->session] is not NULL *)
}.

Record datafeed_callback := mkDatafeedCb { df_cb : Z; df_cb_data : Z }.

(** Modelled from the spec: the trigger of section 3, stages, each a list
    of matches; a match is its channel pointer and its match code
    ([struct sr_trigger] of libsigrok.h). *)
Record sr_trigger_match := mkMatch { match_channel : Z; match_code : Z }.
Definition sr_trigger := list (list sr_trigger_match).

(** Modelled from the spec: the session of section 3.  [struct sr_session]
    is declared in libsigrok-internal.h; these are the members that
    session.c uses (the mutex is left out, the execution being sequential).
    [next_id] is the ghost counter behind [src_id]. *)
Record sr_session := mkSession {
  ctx : sr_context;
  devs : list sr_dev_inst;
  datafeed_callbacks : list datafeed_callback;
  transforms : list Z;
  trigger : option sr_trigger;
  running : bool;
  sources : list source;
  pollfds : list GPollFD;
  abort_session : bool;
  next_id : nat
}.

Definition set_registry (s : sr_session) (srcs : list source)
    (pfds : list GPollFD) : sr_session :=
  mkSession (ctx s) (devs s) (datafeed_callbacks s) (transforms s) (trigger s)
    (running s) srcs pfds (abort_session s) (next_id s).

Definition set_ctx (s : sr_session) (c : sr_context) : sr_session :=
  mkSession c (devs s) (datafeed_callbacks s) (transforms s) (trigger s)
    (running s) (sources s) (pollfds s) (abort_session s) (next_id s).

Definition set_next_id (s : sr_session) (n : nat) : sr_session :=
  mkSession (ctx s) (devs s) (datafeed_callbacks s) (transforms s) (trigger s)
    (running s) (sources s) (pollfds s) (abort_session s) n.

Definition set_running (s : sr_session) (b : bool) : sr_session :=
  mkSession (ctx s) (devs s) (datafeed_callbacks s) (transforms s) (trigger s)
    b (sources s) (pollfds s) (abort_session s) (next_id s).

Definition set_abort_session (s : sr_session) (b : bool) : sr_session :=
  mkSession (ctx s) (devs s) (datafeed_callbacks s) (transforms s) (trigger s)
    (running s) (sources s) (pollfds s) b (next_id s).

Definition set_devs (s : sr_session) (d : list sr_dev_inst) : sr_session :=
  mkSession (ctx s) d (datafeed_callbacks s) (transforms s) (trigger s)
    (running s) (sources s) (pollfds s) (abort_session s) (next_id s).

(** [sr_session_new]: zeroed struct, two empty arrays. *)
Definition sr_session_new (c : sr_context) : sr_session :=
  mkSession c [] [] [] None false [] [] false 0%nat.

(** ** Source registry *)

(** The uniqueness loop of [sr_session_source_add_internal]. *)
Fixpoint source_installed (srcs : list source) (key : Z) : bool :=
  match srcs with
  | [] => false
  | s :: rest => if poll_object s =? key then true else source_installed rest key
  end.

(** [sr_session_source_add_internal].  [now] is what
    [g_get_monotonic_time] returns (read only when [timeout >= 0]);
    [pollfds] is the caller's array, [None] for NULL. *)
Definition sr_session_source_add_internal (session : sr_session) (now : Z)
    (pfds : option (list GPollFD)) (nfds tmo : Z) (cb_ cb_data_ : Z)
    (key : Z) : Z * sr_session :=
  if cb_ =? 0 then (SR_ERR_ARG, session)
  else if (if pfds is None then true else false) && negb (nfds =? 0)
  then (SR_ERR_ARG, session)
  else if source_installed (sources session) key then (SR_ERR, session)
  else
    let src :=
      if tmo >=? 0
      then mkSource (1000 * tmo) (now + 1000 * tmo) cb_ cb_data_ key nfds
             false (next_id session)
      else mkSource (-1) INT64_MAX cb_ cb_data_ key nfds false
             (next_id session) in
    (SR_OK,
     set_next_id
       (set_registry session
          (g_array_append_val (sources session) src)
          (g_array_append_vals (pollfds session) pfds (guint nfds)))
       (S (next_id session))).

(** [sr_session_source_add]: the entry point for a raw descriptor. *)
Definition sr_session_source_add (session : sr_session) (now : Z)
    (fd_ events_ tmo : Z) (cb_ cb_data_ : Z) : Z * sr_session :=
  if (fd_ <? 0) && (tmo <? 0) then (SR_ERR_ARG, session)
  else
    let p := mkPollFD fd_ (gushort events_) 0 in
    sr_session_source_add_internal session now (Some [p])
      (if fd_ <? 0 then 0 else 1) tmo cb_ cb_data_ fd_.

(** [sr_session_source_add_pollfd]: [pollfd_addr] is the pointer (the key),
    [pollfd] the descriptor it points to. *)
Definition sr_session_source_add_pollfd (session : sr_session) (now : Z)
    (pollfd_addr : Z) (pollfd : GPollFD) (tmo : Z) (cb_ cb_data_ : Z)
    : Z * sr_session :=
  if pollfd_addr =? 0 then (SR_ERR_ARG, session)
  else sr_session_source_add_internal session now (Some [pollfd]) 1 tmo
         cb_ cb_data_ pollfd_addr.

(** [sr_session_source_add_channel] (Unix branch): [channel_fd] is what
    [g_io_channel_unix_get_fd] returns for the channel. *)
Definition sr_session_source_add_channel (session : sr_session) (now : Z)
    (channel channel_fd events_ tmo : Z) (cb_ cb_data_ : Z)
    : Z * sr_session :=
  let p := mkPollFD channel_fd (gushort events_) 0 in
  sr_session_source_add_internal session now (Some [p]) 1 tmo cb_ cb_data_
    channel.

(** The search loop of [sr_session_source_remove_internal]: index of the
    first source with the key, together with [fd_index] at that point. *)
Fixpoint source_find (srcs : list source) (key : Z) (i : nat) (fd_index : Z)
    : option (nat * Z * source) :=
  match srcs with
  | [] => None
  | s :: rest =>
      if poll_object s =? key then Some (i, fd_index, s)
      else source_find rest key (S i) (fd_index + num_fds s)
  end.

Definition sr_session_source_remove_internal (session : sr_session)
    (key : Z) : Z * sr_session :=
  match source_find (sources session) key 0%nat 0 with
  | Some (i, fd_index, src) =>
      let pfds :=
        if num_fds src >? 0
        then g_array_remove_range (pollfds session) (guint fd_index)
               (guint (num_fds src))
        else pollfds session in
      let srcs := g_array_remove_index (sources session) i in
      let c :=
        if key =? libusb_ctx (ctx session)
        then mkContext (libusb_ctx (ctx session)) false
        else ctx session in
      (SR_OK, set_ctx (set_registry session srcs pfds) c)
  | None => (SR_ERR_BUG, session)
  end.

Definition sr_session_source_remove (session : sr_session) (fd_ : Z) :=
  sr_session_source_remove_internal session fd_.

Definition sr_session_source_remove_pollfd (session : sr_session)
    (pollfd_addr : Z) : Z * sr_session :=
  if pollfd_addr =? 0 then (SR_ERR_ARG, session)
  else sr_session_source_remove_internal session pollfd_addr.

Definition sr_session_source_remove_channel (session : sr_session)
    (channel : Z) : Z * sr_session :=
  if channel =? 0 then (SR_ERR_ARG, session)
  else sr_session_source_remove_internal session channel.

(** ** Memory: blocks of bytes, for the packet copy and free functions

    A pointer is NULL or a block and a byte offset.  A byte of memory is
    indeterminate ([MUndef], what [g_malloc] returns), a number, or the i-th
    byte of a stored pointer.  Blocks are never reused, so a block index
    that is not below the length of the heap is fresh.  An access outside a
    live block, through NULL, or reading an indeterminate value is undefined
    behaviour: the computation stops in [Undefined] with the heap it had. *)

Inductive ptr := Null | Ptr (b : nat) (off : Z).

Inductive mbyte := MUndef | MByte (z : Z) | MFrag (p : ptr) (i : nat).

Record block := mkBlock { bytes : list mbyte; live : bool }.

Abbreviation heap := (list block).

Inductive outcome (A : Type) :=
| Done (a : A) (h : heap)
| Undefined (h : heap).
Arguments Done {A} a h.
Arguments Undefined {A} h.

Definition M (A : Type) : Type := heap -> outcome A.

Definition ret {A} (a : A) : M A := fun h => Done a h.

Definition bind {A B} (m : M A) (k : A -> M B) : M B :=
  fun h => match m h with
           | Done a h' => k a h'
           | Undefined h' => Undefined h'
           end.

Definition undefined {A} : M A := fun h => Undefined h.

Notation "x <- m ;; k" := (bind m (fun x => k))
  (at level 100, m at next level, right associativity).
Notation "m ;;; k" := (bind m (fun _ => k))
  (at level 100, right associativity).

#[global] Instance ptr_eq_dec : EqDecision ptr.
Proof. solve_decision. Defined.

#[global] Instance mbyte_eq_dec : EqDecision mbyte.
Proof. solve_decision. Defined.

Definition ptr_add (p : ptr) (k : Z) : ptr :=
  match p with
  | Null => Null
  | Ptr b off => Ptr b (off + k)
  end.

Definition is_null (p : ptr) : bool := if p is Null then true else false.

(** The block and offset behind an access of [n] bytes at [p], when the
    access is inside a live block. *)
Definition access (h : heap) (p : ptr) (n : Z) : option (nat * nat * block) :=
  match p with
  | Null => None
  | Ptr b off =>
      match h !! b with
      | Some blk =>
          if live blk && (0 <=? off) && (0 <=? n)
             && (off + n <=? Z.of_nat (length (bytes blk)))
          then Some (b, Z.to_nat off, blk)
          else None
      | None => None
      end
  end.

Definition load_bytes (p : ptr) (n : Z) : M (list mbyte) :=
  fun h => match access h p n with
           | Some (_, off, blk) =>
               Done (take (Z.to_nat n) (drop off (bytes blk))) h
           | None => Undefined h
           end.

Definition store_bytes (p : ptr) (bs : list mbyte) : M unit :=
  fun h => match access h p (Z.of_nat (length bs)) with
           | Some (b, off, blk) =>
               let bytes' := take off (bytes blk) ++ bs
                             ++ drop (off + length bs) (bytes blk) in
               Done tt (<[b := mkBlock bytes' true]> h)
           | None => Undefined h
           end.

(** Unsigned integers of [w] bytes, little endian. *)
Definition encode_uint (w : Z) (z : Z) : list mbyte :=
  (fun i => MByte ((z / 256 ^ i) mod 256)) <$> seqZ 0 w.

Fixpoint decode_uint (bs : list mbyte) : option Z :=
  match bs with
  | [] => Some 0
  | MByte z :: rest =>
      match decode_uint rest with
      | Some hi => Some (z + 256 * hi)
      | None => None
      end
  | _ => None
  end.

Definition load_uint (w : Z) (p : ptr) : M Z :=
  bs <- load_bytes p w ;;
  match decode_uint bs with
  | Some z => ret z
  | None => undefined
  end.

Definition store_uint (w : Z) (p : ptr) (z : Z) : M unit :=
  store_bytes p (encode_uint w z).

Definition sizeof_ptr : Z := 8.

Definition encode_ptr (p : ptr) : list mbyte :=
  match p with
  | Null => replicate 8 (MByte 0)
  | _ => (fun i => MFrag p i) <$> seq 0 8
  end.

Definition decode_ptr (bs : list mbyte) : option ptr :=
  match bs with
  | MFrag p 0 :: _ =>
      if decide (bs = encode_ptr p) then Some p else None
  | MByte 0 :: _ =>
      if decide (bs = encode_ptr Null) then Some Null else None
  | _ => None
  end.

Definition load_ptr (p : ptr) : M ptr :=
  bs <- load_bytes p sizeof_ptr ;;
  match decode_ptr bs with
  | Some q => ret q
  | None => undefined
  end.

Definition store_ptr (p : ptr) (q : ptr) : M unit :=
  store_bytes p (encode_ptr q).

(** GLib allocation.  [g_malloc] aborts the program rather than return
    NULL on exhaustion, and returns NULL for a request of 0 bytes. *)
Definition alloc (init : mbyte) (n : Z) : M ptr :=
  fun h => if n <=? 0 then Done Null h
           else Done (Ptr (length h) 0)
                     (h ++ [mkBlock (replicate (Z.to_nat n) init) true]).

Definition g_malloc (n : Z) : M ptr := alloc MUndef n.
Definition g_malloc0 (n : Z) : M ptr := alloc (MByte 0) n.

Definition g_free (p : ptr) : M unit :=
  fun h => match p with
           | Null => Done tt h
           | Ptr b off =>
               match h !! b with
               | Some blk =>
                   if live blk && (off =? 0)
                   then Done tt (<[b := mkBlock (bytes blk) false]> h)
                   else Undefined h
               | None => Undefined h
               end
           end.

Definition memcpy (dst src : ptr) (n : Z) : M unit :=
  bs <- load_bytes src n ;;
  store_bytes dst bs.

Definition g_memdup (p : ptr) (n : Z) : M ptr :=
  if is_null p || (n <=? 0) then ret Null
  else q <- g_malloc n ;; memcpy q p n ;;; ret q.

(** GSList: a node is [{ data; next }], 16 bytes. *)
Definition sizeof_GSList : Z := 16.
Definition GSList_data (l : ptr) : ptr := ptr_add l 0.
Definition GSList_next (l : ptr) : ptr := ptr_add l 8.

(** Walks of a list take as many steps as the heap has blocks at most;
    a longer walk means a cyclic list, on which the C loop never ends. *)
Fixpoint g_slist_last (fuel : nat) (l : ptr) : M ptr :=
  match fuel with
  | O => undefined
  | S fuel' =>
      n <- load_ptr (GSList_next l) ;;
      if is_null n then ret l else g_slist_last fuel' n
  end.

Definition g_slist_append (l : ptr) (data : ptr) : M ptr :=
  node <- g_malloc sizeof_GSList ;;
  store_ptr (GSList_data node) data ;;;
  store_ptr (GSList_next node) Null ;;;
  if is_null l then ret node
  else fun h =>
         (last <- g_slist_last (length h) l ;;
          store_ptr (GSList_next last) node ;;;
          ret l) h.

Fixpoint g_slist_foreach_loop (fuel : nat) (l : ptr) (func : ptr -> M unit)
    : M unit :=
  match fuel with
  | O => undefined
  | S fuel' =>
      if is_null l then ret tt
      else
        next <- load_ptr (GSList_next l) ;;
        d <- load_ptr (GSList_data l) ;;
        func d ;;;
        g_slist_foreach_loop fuel' next func
  end.

Definition g_slist_foreach (l : ptr) (func : ptr -> M unit) : M unit :=
  fun h => g_slist_foreach_loop (S (length h)) l func h.

Fixpoint g_slist_copy_loop (fuel : nat) (l : ptr) (acc : ptr) : M ptr :=
  match fuel with
  | O => undefined
  | S fuel' =>
      if is_null l then ret acc
      else
        d <- load_ptr (GSList_data l) ;;
        acc' <- g_slist_append acc d ;;
        next <- load_ptr (GSList_next l) ;;
        g_slist_copy_loop fuel' next acc'
  end.

Definition g_slist_copy (l : ptr) : M ptr :=
  fun h => g_slist_copy_loop (S (length h)) l Null h.

Fixpoint g_slist_free_loop (fuel : nat) (l : ptr) : M unit :=
  match fuel with
  | O => undefined
  | S fuel' =>
      if is_null l then ret tt
      else
        next <- load_ptr (GSList_next l) ;;
        g_free l ;;;
        g_slist_free_loop fuel' next
  end.

Definition g_slist_free (l : ptr) : M unit :=
  fun h => g_slist_free_loop (S (length h)) l h.

(** GVariant is opaque; it is modelled as a block whose first word is the
    reference count.  [g_variant_unref] frees the block when the count
    drops to zero. *)
Definition g_variant_ref (v : ptr) : M unit :=
  n <- load_uint 4 v ;;
  store_uint 4 v (n + 1).

Definition g_variant_unref (v : ptr) : M unit :=
  n <- load_uint 4 v ;;
  if n <=? 0 then undefined
  else store_uint 4 v (n - 1) ;;;
       if n =? 1 then g_free v else ret tt.

(** ** Datafeed packets (libsigrok.h), LP64 layout *)

(** Modelled from the spec: the packet tags and payloads of section 3.
    [enum sr_packettype] and the payload structs are declared in
    libsigrok.h, which is not among the sources; the numbers are those of
    that header and the offsets those of an LP64 target.  [sizeof(logic)]
    and [sizeof(analog)] in [sr_packet_copy] are sizes of pointer
    variables, [sizeof_ptr]. *)

Definition SR_DF_HEADER : Z := 10000.
Definition SR_DF_END : Z := 10001.
Definition SR_DF_META : Z := 10002.
Definition SR_DF_TRIGGER : Z := 10003.
Definition SR_DF_LOGIC : Z := 10004.
Definition SR_DF_ANALOG : Z := 10005.
Definition SR_DF_FRAME_BEGIN : Z := 10006.
Definition SR_DF_FRAME_END : Z := 10007.
Definition SR_DF_ANALOG2 : Z := 10008.

(* struct sr_datafeed_packet { uint16_t type; const void *payload; } *)
Definition sizeof_packet : Z := 16.
Definition packet_type (p : ptr) : ptr := ptr_add p 0.
Definition packet_payload (p : ptr) : ptr := ptr_add p 8.

(* struct sr_datafeed_header { int feed_version; struct timeval starttime; } *)
Definition sizeof_header : Z := 24.

(* struct sr_datafeed_meta { GSList *config; } *)
Definition sizeof_meta : Z := 8.
Definition meta_config (p : ptr) : ptr := ptr_add p 0.

(* struct sr_config { uint32_t key; GVariant *data; } *)
Definition sizeof_config : Z := 16.
Definition config_data (p : ptr) : ptr := ptr_add p 8.

(* struct sr_datafeed_logic { uint64_t length; uint16_t unitsize; void *data; } *)
Definition sizeof_logic : Z := 24.
Definition logic_length (p : ptr) : ptr := ptr_add p 0.
Definition logic_unitsize (p : ptr) : ptr := ptr_add p 8.
Definition logic_data (p : ptr) : ptr := ptr_add p 16.

(* struct sr_datafeed_analog { GSList *channels; int num_samples; int mq;
     int unit; uint64_t mqflags; float *data; } *)
Definition sizeof_analog : Z := 40.
Definition analog_channels (p : ptr) : ptr := ptr_add p 0.
Definition analog_num_samples (p : ptr) : ptr := ptr_add p 8.
Definition analog_mq (p : ptr) : ptr := ptr_add p 12.
Definition analog_unit (p : ptr) : ptr := ptr_add p 16.
Definition analog_mqflags (p : ptr) : ptr := ptr_add p 24.
Definition analog_data (p : ptr) : ptr := ptr_add p 32.
Definition sizeof_float : Z := 4.

(** [copy_src].  The old value of [meta_copy->config] is read before
    [g_memdup] runs; C leaves the order of the two open. *)
Definition copy_src (src : ptr) (meta_copy : ptr) : M unit :=
  d <- load_ptr (config_data src) ;;
  g_variant_ref d ;;;
  cfg <- load_ptr (meta_config meta_copy) ;;
  dup <- g_memdup src sizeof_config ;;
  l <- g_slist_append cfg dup ;;
  store_ptr (meta_config meta_copy) l.

(** [sr_packet_copy].  The result is the status together with the value
    left in [*copy]. *)
Definition sr_packet_copy (packet : ptr) : M (Z * ptr) :=
  copy <- g_malloc0 sizeof_packet ;;
  ty <- load_uint 2 (packet_type packet) ;;
  store_uint 2 (packet_type copy) ty ;;;
  if (ty =? SR_DF_TRIGGER) || (ty =? SR_DF_END) then
    ret (SR_OK, copy)
  else if ty =? SR_DF_HEADER then
    payload <- g_malloc sizeof_header ;;
    src <- load_ptr (packet_payload packet) ;;
    memcpy payload src sizeof_header ;;;
    store_ptr (packet_payload copy) payload ;;;
    ret (SR_OK, copy)
  else if ty =? SR_DF_META then
    meta <- load_ptr (packet_payload packet) ;;
    meta_copy <- g_malloc0 sizeof_meta ;;
    cfg <- load_ptr (meta_config meta) ;;
    user_data <- load_ptr (meta_config meta_copy) ;;
    g_slist_foreach cfg (fun src => copy_src src user_data) ;;;
    store_ptr (packet_payload copy) meta_copy ;;;
    ret (SR_OK, copy)
  else if ty =? SR_DF_LOGIC then
    logic <- load_ptr (packet_payload packet) ;;
    logic_copy <- g_malloc sizeof_ptr ;;
    len <- load_uint 8 (logic_length logic) ;;
    store_uint 8 (logic_length logic_copy) len ;;;
    us <- load_uint 2 (logic_unitsize logic) ;;
    store_uint 2 (logic_unitsize logic_copy) us ;;;
    dst <- load_ptr (logic_data logic_copy) ;;
    src <- load_ptr (logic_data logic) ;;
    memcpy dst src ((len * us) mod 2 ^ 64) ;;;
    store_ptr (packet_payload copy) logic_copy ;;;
    ret (SR_OK, copy)
  else if ty =? SR_DF_ANALOG then
    analog <- load_ptr (packet_payload packet) ;;
    analog_copy <- g_malloc sizeof_ptr ;;
    chans <- load_ptr (analog_channels analog) ;;
    chans_copy <- g_slist_copy chans ;;
    store_ptr (analog_channels analog_copy) chans_copy ;;;
    n <- load_uint 4 (analog_num_samples analog) ;;
    store_uint 4 (analog_num_samples analog_copy) n ;;;
    mq <- load_uint 4 (analog_mq analog) ;;
    store_uint 4 (analog_mq analog_copy) mq ;;;
    u <- load_uint 4 (analog_unit analog) ;;
    store_uint 4 (analog_unit analog_copy) u ;;;
    fl <- load_uint 8 (analog_mqflags analog) ;;
    store_uint 8 (analog_mqflags analog_copy) fl ;;;
    dst <- load_ptr (analog_data analog_copy) ;;
    src <- load_ptr (analog_data analog) ;;
    memcpy dst src ((int_of_gintptr n * sizeof_float) mod 2 ^ 64) ;;;
    store_ptr (packet_payload copy) analog_copy ;;;
    ret (SR_OK, copy)
  else
    ret (SR_ERR, copy).

(** The loop of [sr_packet_free] over the config list of a meta packet. *)
Fixpoint free_config_entries (fuel : nat) (l : ptr) : M unit :=
  match fuel with
  | O => undefined
  | S fuel' =>
      if is_null l then ret tt
      else
        src <- load_ptr (GSList_data l) ;;
        d <- load_ptr (config_data src) ;;
        g_variant_unref d ;;;
        g_free src ;;;
        next <- load_ptr (GSList_next l) ;;
        free_config_entries fuel' next
  end.

Definition sr_packet_free (packet : ptr) : M unit :=
  ty <- load_uint 2 (packet_type packet) ;;
  (if (ty =? SR_DF_TRIGGER) || (ty =? SR_DF_END) then
     ret tt
   else if ty =? SR_DF_HEADER then
     p <- load_ptr (packet_payload packet) ;;
     g_free p
   else if ty =? SR_DF_META then
     meta <- load_ptr (packet_payload packet) ;;
     cfg <- load_ptr (meta_config meta) ;;
     (fun h => free_config_entries (S (length h)) cfg h) ;;;
     cfg' <- load_ptr (meta_config meta) ;;
     g_slist_free cfg' ;;;
     g_free meta
   else if ty =? SR_DF_LOGIC then
     logic <- load_ptr (packet_payload packet) ;;
     d <- load_ptr (logic_data logic) ;;
     g_free d ;;;
     g_free logic
   else if ty =? SR_DF_ANALOG then
     analog <- load_ptr (packet_payload packet) ;;
     chans <- load_ptr (analog_channels analog) ;;
     g_slist_free chans ;;;
     d <- load_ptr (analog_data analog) ;;
     g_free d ;;;
     g_free analog
   else ret tt) ;;;
  g_free packet.

(** ** Code outside session.c: callbacks, drivers, transforms

    A callback, a driver entry point or a datafeed subscriber is code of the
    caller.  What it does to the session is a sequence of calls into the
    session API, each of which may depend on the results of the earlier
    ones: a [prog].  [now] in [SourceAdd] is the clock reading that the call
    makes.  A stop request made by another thread is visible to the loop
    only through the flag that [sr_session_check_aborted] reads, so it is
    covered by [SessionStop] and by the flag of the initial state.  Code
    that enters [sr_session_run] again, or changes the device list, the
    subscribers or the trigger, from inside a callback is not covered: no
    statement below is about what such code leaves unchanged. *)

Inductive prog (R : Type) : Type :=
| Ret (r : R)
| SourceAdd (now : Z) (pfds : option (list GPollFD))
    (nfds tmo cb_ cb_data_ key : Z) (k : Z -> prog R)
| SourceRemove (key : Z) (k : Z -> prog R)
| SessionStop (k : Z -> prog R).
Arguments Ret {R} r.
Arguments SourceAdd {R} now pfds nfds tmo cb_ cb_data_ key k.
Arguments SourceRemove {R} key k.
Arguments SessionStop {R} k.

(** [sr_session_stop]: sets the flag under the mutex. *)
Definition sr_session_stop (session : sr_session) : Z * sr_session :=
  (SR_OK, set_abort_session session true).

Fixpoint exec_prog {R} (p : prog R) (s : sr_session) : R * sr_session :=
  match p with
  | Ret r => (r, s)
  | SourceAdd now pfds nfds tmo cb_ cb_data_ key k =>
      let '(r, s') :=
        sr_session_source_add_internal s now pfds nfds tmo cb_ cb_data_ key in
      exec_prog (k r) s'
  | SourceRemove key k =>
      let '(r, s') := sr_session_source_remove_internal s key in
      exec_prog (k r) s'
  | SessionStop k =>
      let '(r, s') := sr_session_stop s in
      exec_prog (k r) s'
  end.

(** The caller's code: [W] is its own state; each function is looked up by
    the address stored in the session's structs.  [config_commit] is
    [sr_config_commit] of hwdriver.c. *)
Record user_code := mkUserCode {
  W : Type;
  source_cb : Z -> Z -> Z -> Z -> W -> prog (bool * W);
  acquisition_start : Z -> sr_dev_inst -> W -> prog (Z * W);
  acquisition_stop : Z -> sr_dev_inst -> W -> prog W;
  config_commit : sr_dev_inst -> W -> Z * W;
  transform_receive : Z -> ptr -> W -> Z * ptr * W;
  datafeed_recv : Z -> sr_dev_inst -> ptr -> Z -> W -> prog W
}.

(** What the functions below report, in order. *)
Inductive event :=
| EvPoll (nfds : nat) (timeout_ms : Z)
| EvCallback (ix : nat) (fd_arg revents_arg : Z) (at_call : sr_session)
| EvStopSync
| EvRunning
| EvStart
| EvDatafeed (cb_ : Z) (packet : ptr) (cb_data_ : Z).

(** ** Stop *)

(** The loop of [sr_session_stop_sync] over the devices. *)
Fixpoint stop_devs (U : user_code) (l : list sr_dev_inst) (s : sr_session)
    (w : W U) : sr_session * W U :=
  match l with
  | [] => (s, w)
  | sdi :: rest =>
      match driver sdi with
      | Some d =>
          if dev_acquisition_stop d =? 0 then stop_devs U rest s w
          else
            let '(w', s') :=
              exec_prog (acquisition_stop U (dev_acquisition_stop d) sdi w) s in
            stop_devs U rest s' w'
      | None => stop_devs U rest s w
      end
  end.

Definition sr_session_stop_sync (U : user_code) (s : sr_session) (w : W U)
    : Z * list event * sr_session * W U :=
  let '(s', w') := stop_devs U (devs s) s w in
  (SR_OK, [EvStopSync], set_running s' false, w').

Definition sr_session_check_aborted (U : user_code) (s : sr_session)
    (w : W U) : bool * list event * sr_session * W U :=
  let stop := abort_session s in
  if stop then
    let '(_, log, s', w') := sr_session_stop_sync U s w in
    (stop, log, set_abort_session s' false, w')
  else (stop, [], s, w).

(** ** One iteration of the event loop *)

(** What the outside world returns during one iteration: the two clock
    readings, [libusb_get_next_timeout] (status and timeval), and [g_poll]
    (status, whether [errno] is EINTR, the [revents] it stores). *)
Record iter_env := mkIterEnv {
  start_time : Z;
  usb_ret : Z;
  usb_tv_sec : Z;
  usb_tv_usec : Z;
  poll_ret : Z;
  poll_eintr : bool;
  poll_revents : list Z;
  stop_time : Z
}.

(** The first loop: minimum of the deadlines, flags cleared. *)
Definition min_due_of (srcs : list source) : Z :=
  foldl (fun m src => if due src <? m then due src else m) INT64_MAX srcs.

Definition clear_triggered (src : source) : source :=
  mkSource (timeout src) (due src) (cb src) (cb_data src) (poll_object src)
    (num_fds src) false (src_id src).

(** [g_poll] stores [revents] in every entry when it succeeds; an entry
    for which the environment reports nothing gets 0. *)
Definition poll_store (pfds : list GPollFD) (revs : list Z) : list GPollFD :=
  imap (fun k p => mkPollFD (fd p) (events p) (default 0 (revs !! k))) pfds.

(** [g_array_index(session->pollfds, GPollFD, z)]: not bounds-checked in C;
    an index outside the array reads as a zeroed entry here. *)
Definition pollfd_at (pfds : list GPollFD) (z : Z) : GPollFD :=
  if z <? 0 then mkPollFD 0 0 0
  else default (mkPollFD 0 0 0) (pfds !! Z.to_nat z).

(** The inner loop over the [num_fds] entries of one source: the last
    descriptor and the OR of the events. *)
Definition scan_pollfds (pfds : list GPollFD) (fd_index nfds : Z) (fd0 : Z)
    : Z * Z :=
  foldl (fun '(fd_, rev) k =>
           let p := pollfd_at pfds (fd_index + k) in
           (fd p, Z.lor rev (revents p)))
        (fd0, 0) (seqZ 0 nfds).

Record loop_state (U : user_code) := mkLoop {
  ls_session : sr_session;
  ls_world : W U;
  ls_log : list event;
  ls_triggered : bool;
  ls_stopped : bool
}.
Arguments mkLoop {U}.
Arguments ls_session {U}.
Arguments ls_world {U}.
Arguments ls_log {U}.
Arguments ls_triggered {U}.
Arguments ls_stopped {U}.

Definition fire_source (src : source) (stop_t : Z) : source :=
  mkSource (timeout src)
    (if timeout src >=? 0 then stop_t + timeout src else due src)
    (cb src) (cb_data src) (poll_object src) (num_fds src) true (src_id src).

(** The dispatch loop, one step of [fuel] per pass through the loop body.
    [i] and [fd_index] are the loop variables.  After a callback the body
    sets [fd_index = 0; i = 0;] and the loop header increments [i]: the
    next source examined is the one at index 1.  The result is [true] when
    the loop has ended. *)
Fixpoint dispatch (U : user_code) (e : iter_env) (usb_due : Z) (fuel : nat)
    (i : nat) (fd_index : Z) (st : loop_state U) : bool * loop_state U :=
  match fuel with
  | O => (false, st)
  | S fuel' =>
      let s := ls_session st in
      match sources s !! i with
      | None => (true, st)
      | Some src =>
          let key := poll_object src in
          let '(fd_, rev) :=
            scan_pollfds (pollfds s) fd_index (num_fds src)
              (int_of_gintptr key) in
          let fd_index' := fd_index + num_fds src in
          if triggered src then dispatch U e usb_due fuel' (S i) fd_index' st
          else if (poll_ret e >? 0) && (rev =? 0)
          then dispatch U e usb_due fuel' (S i) fd_index' st
          else
            let fd_ := if num_fds src >? 1 then -1 else fd_ in
            let rev := if poll_ret e <=? 0 then 0 else rev in
            let due_ :=
              if (usb_due <? due src) && (key =? libusb_ctx (ctx s))
              then usb_due else due src in
            if (rev =? 0) && (stop_time e <? due_)
            then dispatch U e usb_due fuel' (S i) fd_index' st
            else
              let s1 :=
                set_registry s (<[i := fire_source src (stop_time e)]> (sources s))
                  (pollfds s) in
              let log1 := ls_log st ++ [EvCallback i fd_ rev s1] in
              let '(b, w1, s2) :=
                exec_prog (source_cb U (cb src) fd_ rev (cb_data src)
                             (ls_world st)) s1 in
              let s3 :=
                if b then s2
                else snd (sr_session_source_remove_internal s2 key) in
              let '(stopped, log2, s4, w2) :=
                if ls_stopped st then (true, [], s3, w1)
                else sr_session_check_aborted U s3 w1 in
              dispatch U e usb_due fuel' 1%nat 0
                (mkLoop s4 w2 (log1 ++ log2) true stopped)
      end
  end.

(** The deadline that libusb asks for: [usb_due]. *)
Definition usb_due_of (c : sr_context) (e : iter_env) : Z :=
  if usb_source_present c && (usb_ret e =? 1)
  then start_time e + (usb_tv_sec e * G_USEC_PER_SEC + usb_tv_usec e)
  else INT64_MAX.

(** The timeout handed to [g_poll], in milliseconds. *)
Definition poll_timeout_ms (min_due start : Z) : Z :=
  if min_due =? INT64_MAX then -1
  else if min_due >? start
  then Z.min ((min_due - start + 999) `quot` 1000) INT_MAX
  else 0.

(** [sr_session_iteration] (Unix, with libusb).  The status is [None] when
    [fuel] ran out before the dispatch loop ended. *)
Definition sr_session_iteration (U : user_code) (fuel : nat) (e : iter_env)
    (s : sr_session) (w : W U) : option Z * list event * sr_session * W U :=
  if (length (sources s) =? 0)%nat then
    let '(_, log, s', w') := sr_session_check_aborted U s w in
    (Some SR_OK, log, s', w')
  else
    let min_due := min_due_of (sources s) in
    let s0 := set_registry s (clear_triggered <$> sources s) (pollfds s) in
    if usb_source_present (ctx s0) && (usb_ret e <? 0)
    then (Some SR_ERR, [], s0, w)
    else
      let usb_due := usb_due_of (ctx s0) e in
      let min_due := if usb_due <? min_due then usb_due else min_due in
      let timeout_ms := poll_timeout_ms min_due (start_time e) in
      let log0 := [EvPoll (length (pollfds s0)) timeout_ms] in
      let s1 :=
        if poll_ret e <? 0 then s0
        else set_registry s0 (sources s0)
               (poll_store (pollfds s0) (poll_revents e)) in
      if (poll_ret e <? 0) && negb (poll_eintr e)
      then (Some SR_ERR, log0, s1, w)
      else
        let '(finished, st) :=
          dispatch U e usb_due fuel 0%nat 0 (mkLoop s1 w log0 false false) in
        if negb finished
        then (None, ls_log st, ls_session st, ls_world st)
        else if ls_triggered st
        then (Some SR_OK, ls_log st, ls_session st, ls_world st)
        else
          let '(_, log, s', w') :=
            sr_session_check_aborted U (ls_session st) (ls_world st) in
          (Some SR_OK, ls_log st ++ log, s', w').

(** ** Devices, start, run *)

(** [sr_session_dev_remove_all]. *)
Definition sr_session_dev_remove_all (s : sr_session) : Z * sr_session :=
  (SR_OK, set_devs s []).

Definition attach (sdi : sr_dev_inst) : sr_dev_inst :=
  mkDevInst (sdi_addr sdi) (driver sdi) (channels sdi) true.

(** [sr_session_dev_add].  [None] stands for a call through a NULL
    function pointer (undefined behaviour). *)
Definition sr_session_dev_add (U : user_code) (s : sr_session)
    (sdi : option sr_dev_inst) (w : W U) : option (Z * sr_session * W U) :=
  match sdi with
  | None => Some (SR_ERR_ARG, s, w)
  | Some sdi =>
      if sdi_session sdi then Some (SR_ERR_ARG, s, w)
      else
        match driver sdi with
        | None => Some (SR_OK, set_devs s (devs s ++ [attach sdi]), w)
        | Some d =>
            if dev_open d =? 0 then Some (SR_ERR_BUG, s, w)
            else
              let s1 := set_devs s (devs s ++ [attach sdi]) in
              if running s1 then
                let '(ret, w1) := config_commit U (attach sdi) w in
                if negb (ret =? SR_OK) then Some (ret, s1, w1)
                else if dev_acquisition_start d =? 0 then None
                else
                  let '(ret, w2, s2) :=
                    exec_prog (acquisition_start U (dev_acquisition_start d)
                                 (attach sdi) w1) s1 in
                  Some (ret, s2, w2)
              else Some (SR_OK, s1, w)
        end
  end.

(** [verify_trigger]. *)
Fixpoint verify_matches (l : list sr_trigger_match) : Z :=
  match l with
  | [] => SR_OK
  | m :: rest =>
      if match_channel m =? 0 then SR_ERR
      else if match_code m =? 0 then SR_ERR
      else verify_matches rest
  end.

Fixpoint verify_stages (l : list (list sr_trigger_match)) : Z :=
  match l with
  | [] => SR_OK
  | stage :: rest =>
      if (length stage =? 0)%nat then SR_ERR
      else if negb (verify_matches stage =? SR_OK) then SR_ERR
      else verify_stages rest
  end.

Definition verify_trigger (t : sr_trigger) : Z :=
  if (length t =? 0)%nat then SR_ERR else verify_stages t.

(** The loop of [sr_session_start] over the devices.  [None] stands for a
    dereference of a NULL [sdi->driver] (in the error message, or for the
    call) or a call through a NULL function pointer. *)
Fixpoint start_devs (U : user_code) (l : list sr_dev_inst) (s : sr_session)
    (w : W U) : option (Z * sr_session * W U) :=
  match l with
  | [] => Some (SR_OK, s, w)
  | sdi :: rest =>
      if negb (existsb (fun en => en) (channels sdi))
      then (if driver sdi is Some _ then Some (SR_ERR, s, w) else None)
      else
        let '(ret, w1) := config_commit U sdi w in
        if negb (ret =? SR_OK) then Some (ret, s, w1)
        else
          match driver sdi with
          | None => None
          | Some d =>
              if dev_acquisition_start d =? 0 then None
              else
                let '(ret, w2, s2) :=
                  exec_prog (acquisition_start U (dev_acquisition_start d)
                               sdi w1) s in
                if negb (ret =? SR_OK) then Some (ret, s2, w2)
                else start_devs U rest s2 w2
          end
  end.

Definition sr_session_start (U : user_code) (s : sr_session) (w : W U)
    : option (Z * list event * sr_session * W U) :=
  if (length (devs s) =? 0)%nat then Some (SR_ERR_ARG, [EvStart], s, w)
  else if (if trigger s is Some t then negb (verify_trigger t =? SR_OK)
           else false)
  then Some (SR_ERR, [EvStart], s, w)
  else
    match start_devs U (devs s) s w with
    | Some (ret, s', w') => Some (ret, [EvStart], s', w')
    | None => None
    end.

(** The loop of [sr_session_run].  Each element of [script] serves one
    iteration: the fuel of its dispatch loop and what the outside world
    returns.  The status is [None] when the script ends with sources
    left, or an iteration runs out of fuel. *)
Fixpoint run_loop (U : user_code) (script : list (nat * iter_env))
    (s : sr_session) (w : W U) : option Z * list event * sr_session * W U :=
  if (length (sources s) =? 0)%nat then (Some SR_OK, [], s, w)
  else
    match script with
    | [] => (None, [], s, w)
    | (fuel, e) :: rest =>
        let '(ret, log, s1, w1) := sr_session_iteration U fuel e s w in
        match ret with
        | None => (None, log, s1, w1)
        | Some r =>
            if negb (r =? SR_OK) then (Some r, log, s1, w1)
            else
              let '(ret', log', s2, w2) := run_loop U rest s1 w1 in
              (ret', log ++ log', s2, w2)
        end
    end.

Definition sr_session_run (U : user_code) (script : list (nat * iter_env))
    (s : sr_session) (w : W U) : option Z * list event * sr_session * W U :=
  if (length (devs s) =? 0)%nat then (Some SR_ERR_ARG, [], s, w)
  else
    let '(ret, log, s', w') := run_loop U script (set_running s true) w in
    (ret, EvRunning :: log, s', w').

(** ** Datafeed bus *)

(** The transform loop of [sr_session_send]: [inl status] when the loop
    returns from [sr_session_send], [inr packet] when it ends. *)
Fixpoint run_transforms (U : user_code) (ts : list Z) (packet_in : ptr)
    (w : W U) : (Z + ptr) * W U :=
  match ts with
  | [] => (inr packet_in, w)
  | t :: rest =>
      let '(ret, packet_out, w') := transform_receive U t packet_in w in
      if ret <? 0 then (inl SR_ERR, w')
      else if is_null packet_out then (inl SR_OK, w')
      else run_transforms U rest packet_out w'
  end.

(** The loop over the datafeed callbacks. *)
Fixpoint run_datafeed_callbacks (U : user_code) (cbs : list datafeed_callback)
    (sdi : sr_dev_inst) (packet : ptr) (s : sr_session) (w : W U)
    : list event * sr_session * W U :=
  match cbs with
  | [] => ([], s, w)
  | c :: rest =>
      let '(w1, s1) :=
        exec_prog (datafeed_recv U (df_cb c) sdi packet (df_cb_data c) w) s in
      let '(log, s2, w2) := run_datafeed_callbacks U rest sdi packet s1 w1 in
      (EvDatafeed (df_cb c) packet (df_cb_data c) :: log, s2, w2)
  end.

(** [sr_session_send].  [s] is the session that [sdi->session] points to
    when [sdi_session sdi] holds. *)
Definition sr_session_send (U : user_code) (sdi : option sr_dev_inst)
    (packet : ptr) (s : sr_session) (w : W U)
    : Z * list event * sr_session * W U :=
  match sdi with
  | None => (SR_ERR_ARG, [], s, w)
  | Some sdi =>
      if is_null packet then (SR_ERR_ARG, [], s, w)
      else if negb (sdi_session sdi) then (SR_ERR_BUG, [], s, w)
      else
        match run_transforms U (transforms s) packet w with
        | (inl status, w1) => (status, [], s, w1)
        | (inr packet', w1) =>
            let '(log, s2, w2) :=
              run_datafeed_callbacks U (datafeed_callbacks s) sdi packet' s w1 in
            (SR_OK, log, s2, w2)
        end
  end.

(** ** Sequences of registry calls

    A call of the add operation is within the parameter contract when
    [num_fds] is the number of descriptors to take from the array given
    (not negative, not more than the array holds) and the poll array stays
    within the range of the [int] index [fd_index]. *)

Inductive registry_call :=
| CallAdd (now : Z) (pfds : option (list GPollFD))
    (nfds tmo cb_ cb_data_ key : Z)
| CallRemove (key : Z).

Definition call_in_contract (s : sr_session) (c : registry_call) : bool :=
  match c with
  | CallAdd _ (Some l) nfds _ _ _ _ =>
      (0 <=? nfds) && (nfds <=? Z.of_nat (length l))
      && (Z.of_nat (length (pollfds s)) + nfds <=? INT_MAX)
  | _ => true
  end.

Definition registry_apply (c : registry_call) (s : sr_session)
    : Z * sr_session :=
  match c with
  | CallAdd now pfds nfds tmo cb_ cb_data_ key =>
      sr_session_source_add_internal s now pfds nfds tmo cb_ cb_data_ key
  | CallRemove key => sr_session_source_remove_internal s key
  end.

(** The index of the source identified by a key. *)
Definition index_of_key (srcs : list source) (key : Z) : option nat :=
  fst <$> list_find (fun src => poll_object src = key) srcs.

(** Ghost record of ownership: for each registry entry, in order, the
    descriptors that were handed over when the entry was added.  An
    accepted add appends the descriptors taken from the caller's array; an
    accepted remove deletes the record of the entry with the key. *)
Definition owned_apply (c : registry_call) (s : sr_session)
    (o : list (list GPollFD)) : list (list GPollFD) :=
  if negb (fst (registry_apply c s) =? SR_OK) then o
  else
    match c with
    | CallAdd _ pfds nfds _ _ _ _ =>
        o ++ [take (Z.to_nat nfds) (default [] pfds)]
    | CallRemove key =>
        match index_of_key (sources s) key with
        | Some i => delete i o
        | None => o
        end
    end.

Fixpoint registry_run (calls : list registry_call) (s : sr_session)
    (o : list (list GPollFD)) : option (sr_session * list (list GPollFD)) :=
  match calls with
  | [] => Some (s, o)
  | c :: rest =>
      if call_in_contract s c
      then registry_run rest (snd (registry_apply c s)) (owned_apply c s o)
      else None
  end.

(** Sum of [num_fds] over the sources before index [i]. *)
Definition sum_num_fds (srcs : list source) : Z :=
  foldr (fun src acc => num_fds src + acc) 0 srcs.

Definition fd_offset (srcs : list source) (i : nat) : Z :=
  sum_num_fds (take i srcs).

(** The entries of the poll array at [fd_offset .. fd_offset + num_fds). *)
Definition slice_at (s : sr_session) (i : nat) (src : source)
    : list GPollFD :=
  take (Z.to_nat (num_fds src))
    (drop (Z.to_nat (fd_offset (sources s) i)) (pollfds s)).

(** ** Sequences of API calls on a session *)

Inductive api_call (U : user_code) :=
| ApiDevAdd (sdi : option sr_dev_inst)
| ApiDevRemoveAll
| ApiStart
| ApiRun (script : list (nat * iter_env))
| ApiStop
| ApiStopSync
| ApiProg (p : W U -> prog (W U)).
Arguments ApiDevAdd {U} sdi.
Arguments ApiDevRemoveAll {U}.
Arguments ApiStart {U}.
Arguments ApiRun {U} script.
Arguments ApiStop {U}.
Arguments ApiStopSync {U}.
Arguments ApiProg {U} p.

Definition api_apply (U : user_code) (c : api_call U) (s : sr_session)
    (w : W U) : option (list event * sr_session * W U) :=
  match c with
  | ApiDevAdd sdi =>
      match sr_session_dev_add U s sdi w with
      | Some (_, s', w') => Some ([], s', w')
      | None => None
      end
  | ApiDevRemoveAll => Some ([], snd (sr_session_dev_remove_all s), w)
  | ApiStart =>
      match sr_session_start U s w with
      | Some (_, log, s', w') => Some (log, s', w')
      | None => None
      end
  | ApiRun script =>
      let '(_, log, s', w') := sr_session_run U script s w in
      Some (log, s', w')
  | ApiStop => Some ([], snd (sr_session_stop s), w)
  | ApiStopSync =>
      let '(_, log, s', w') := sr_session_stop_sync U s w in
      Some (log, s', w')
  | ApiProg p =>
      let '(w', s') := exec_prog (p w) s in Some ([], s', w')
  end.

Fixpoint api_run (U : user_code) (calls : list (api_call U))
    (s : sr_session) (w : W U) : option (list event * sr_session * W U) :=
  match calls with
  | [] => Some ([], s, w)
  | c :: rest =>
      match api_apply U c s w with
      | Some (log, s1, w1) =>
          match api_run U rest s1 w1 with
          | Some (log', s2, w2) => Some (log ++ log', s2, w2)
          | None => None
          end
      | None => None
      end
  end.

(** The flag as the claim of the spec words it, and as amended: whether
    the last of the events [ev_on] and [EvStopSync] in a log is [ev_on]. *)
Definition is_stop_sync (ev : event) : bool :=
  if ev is EvStopSync then true else false.
Definition is_start (ev : event) : bool :=
  if ev is EvStart then true else false.
Definition is_running (ev : event) : bool :=
  if ev is EvRunning then true else false.

Definition on_since (ev_on : event -> bool) (log : list event) : Prop :=
  exists l1 ev l2,
    log = l1 ++ ev :: l2 /\ ev_on ev = true /\
    forall ev', ev' ∈ l2 -> is_stop_sync ev' = false.

(** ** Notions used to state the properties *)

(** The source behind a callback event: the registry entry at the index
    of the call, in the session as it was at the call. *)
Definition event_source (ev : event) : option source :=
  match ev with
  | EvCallback ix _ _ at_call => sources at_call !! ix
  | _ => None
  end.

(** The sources whose callbacks a log records, in order. *)
Definition invoked (log : list event) : list source := omap event_source log.

(** Consistency of the ghost numbering: the entries of the registry have
    distinct numbers, all below the counter.  This says nothing about the
    fields of the C structs; it holds in a new session and every operation
    keeps it. *)
Definition ids_fresh (s : sr_session) : Prop :=
  NoDup (src_id <$> sources s) /\
  Forall (fun src => (src_id src < next_id s)%nat) (sources s).

(** Every callback recorded in a log was made for a source whose
    [triggered] flag was set at the moment of the call. *)
Definition callbacks_triggered (log : list event) : Prop :=
  forall ix fd_ rev at_call, EvCallback ix fd_ rev at_call ∈ log ->
    exists src, sources at_call !! ix = Some src /\ triggered src = true.

(** OR of the [revents] of some poll entries; of the entries of the
    source at index [i]. *)
Definition or_revents (l : list GPollFD) : Z :=
  foldr (fun p acc => Z.lor (revents p) acc) 0 l.

Definition own_revents (s : sr_session) (i : nat) (src : source) : Z :=
  or_revents (slice_at s i src).

Definition is_callback (ev : event) : bool :=
  if ev is EvCallback _ _ _ _ then true else false.

(** The first callback that a log records. *)
Fixpoint first_callback (log : list event) : option event :=
  match log with
  | [] => None
  | ev :: rest => if is_callback ev then Some ev else first_callback rest
  end.

(** The transform chain in the words of the specification: each transform
    is invoked on the output of the one before; a negative status fails the
    send; an absent output packet drops the packet; otherwise the output
    becomes the input of the next transform. *)
Inductive chain_result := Failed | Dropped | Survived (p : ptr).

Inductive pipes (U : user_code)
    : list Z -> ptr -> W U -> chain_result -> W U -> Prop :=
| pipes_end p w : pipes U [] p w (Survived p) w
| pipes_fail t ts p w status out w' :
    transform_receive U t p w = (status, out, w') -> status < 0 ->
    pipes U (t :: ts) p w Failed w'
| pipes_drop t ts p w status w' :
    transform_receive U t p w = (status, Null, w') -> 0 <= status ->
    pipes U (t :: ts) p w Dropped w'
| pipes_next t ts p w status out w' r w'' :
    transform_receive U t p w = (status, out, w') -> 0 <= status ->
    out <> Null -> pipes U ts out w' r w'' ->
    pipes U (t :: ts) p w r w''.

(** Deliveries of one packet to the subscribers, in registration order. *)
Definition deliveries (cbs : list datafeed_callback) (p : ptr) : list event :=
  (fun c => EvDatafeed (df_cb c) p (df_cb_data c)) <$> cbs.

(** Delivery in the words of the specification: the subscribers are called
    one after the other, in registration order, each on the session and the
    caller's state as the one before left them. *)
Inductive served (U : user_code) (sdi : sr_dev_inst) (p : ptr)
    : list datafeed_callback -> sr_session -> W U -> sr_session -> W U
      -> Prop :=
| served_none s w : served U sdi p [] s w s w
| served_next c cbs s w w1 s1 s2 w2 :
    exec_prog (datafeed_recv U (df_cb c) sdi p (df_cb_data c) w) s
    = (w1, s1) ->
    served U sdi p cbs s1 w1 s2 w2 ->
    served U sdi p (c :: cbs) s w s2 w2.

(** The tags for which [sr_packet_copy] has a case. *)
Definition copyable_tags : list Z :=
  [SR_DF_TRIGGER; SR_DF_END; SR_DF_HEADER; SR_DF_META; SR_DF_LOGIC;
   SR_DF_ANALOG].

(** ** Notions used in the proofs *)

Definition fds_match (src : source) (fds : list GPollFD) : Prop :=
  num_fds src = Z.of_nat (length fds).

(** The registry and the record of ownership agree: the poll array is the
    concatenation of the owned descriptors, entry by entry. *)
Definition registry_inv (s : sr_session) (o : list (list GPollFD)) : Prop :=
  pollfds s = concat o /\ Forall2 fds_match (sources s) o /\
  Z.of_nat (length (pollfds s)) <= INT_MAX.

(** [ext s s']: the session [s'] comes after [s]; entries of [s'] whose
    number is below the counter of [s] are entries of [s], unchanged. *)
Definition ext (s s' : sr_session) : Prop :=
  (ids_fresh s -> ids_fresh s') /\
  (next_id s <= next_id s')%nat /\
  (forall src, src ∈ sources s' -> (src_id src < next_id s)%nat ->
               src ∈ sources s).

(** Every source invoked so far is below the counter, and whatever entry
    carries its number has its flag set. *)
Definition fired_marked (log : list event) (s : sr_session) : Prop :=
  forall src, src ∈ invoked log ->
    (src_id src < next_id s)%nat /\
    forall src', src' ∈ sources s -> src_id src' = src_id src ->
                 triggered src' = true.

Definition dispatch_inv {U} (st : loop_state U) : Prop :=
  ids_fresh (ls_session st) /\ callbacks_triggered (ls_log st) /\
  NoDup (src_id <$> invoked (ls_log st)) /\
  fired_marked (ls_log st) (ls_session st).

(** The test of the dispatch loop under which the callback of the source
    at index [i] is invoked with arguments [fd1] and [rev1]. *)
Definition fires (e : iter_env) (usb_due : Z) (s : sr_session) (i : nat)
    (src : source) (fd_index fd1 rev1 : Z) : Prop :=
  sources s !! i = Some src /\ triggered src = false /\
  let r := scan_pollfds (pollfds s) fd_index (num_fds src)
             (int_of_gintptr (poll_object src)) in
  ((poll_ret e >? 0) && (snd r =? 0)) = false /\
  fd1 = (if num_fds src >? 1 then -1 else fst r) /\
  rev1 = (if poll_ret e <=? 0 then 0 else snd r) /\
  ((rev1 =? 0) &&
   (stop_time e <?
      (if (usb_due <? due src) && (poll_object src =? libusb_ctx (ctx s))
       then usb_due else due src))) = false.

Definition fired_session (e : iter_env) (s : sr_session) (i : nat)
    (src : source) : sr_session :=
  set_registry s (<[i := fire_source src (stop_time e)]> (sources s))
    (pollfds s).

(** The value of [running] after a log, starting from [b]. *)
Definition flag_after (b : bool) (log : list event) : bool :=
  foldl (fun b ev => if is_running ev then true
                     else if is_stop_sync ev then false else b) b log.

Definition no_stop_sync (log : list event) : Prop :=
  forall ev, ev ∈ log -> is_stop_sync ev = false.

(** Settles the test of a conditional of the goal by evaluation. *)
Ltac decide_if :=
  match goal with
  | |- context [if ?c then _ else _] =>
      let v := eval lazy in c in
      match v with true => idtac | false => idtac end;
      change c with v; cbv beta iota
  end.

(** ** Concrete sessions, environments and heaps *)

(** Caller's code that does nothing: callbacks return TRUE, transforms pass
    the packet on. *)
Definition quiet_code : user_code :=
  mkUserCode unit
    (fun _ _ _ _ w => Ret (true, w))
    (fun _ _ w => Ret (SR_OK, w))
    (fun _ _ w => Ret w)
    (fun _ w => (SR_OK, w))
    (fun _ p w => (SR_OK, p, w))
    (fun _ _ _ _ w => Ret w).

(** Code of a caller that keeps a record: each transform and each
    subscriber appends its own address to the state of the caller. *)
Definition recording_code : user_code :=
  mkUserCode (list Z)
    (fun _ _ _ _ w => Ret (true, w))
    (fun _ _ w => Ret (SR_OK, w))
    (fun _ _ w => Ret w)
    (fun _ w => (SR_OK, w))
    (fun t p w => (SR_OK, p, w ++ [t]))
    (fun cb_ _ _ _ w => Ret (w ++ [cb_])).

(** Code of a caller whose devices refuse [sr_config_commit]. *)
Definition failing_commit_code : user_code :=
  mkUserCode unit
    (fun _ _ _ _ w => Ret (true, w))
    (fun _ _ w => Ret (SR_OK, w))
    (fun _ _ w => Ret w)
    (fun _ w => (SR_ERR, w))
    (fun _ p w => (SR_OK, p, w))
    (fun _ _ _ _ w => Ret w).

(** Registry calls: an I/O source with a timeout, a pure timer, a source
    with two descriptors, then the removal of the first. *)
Definition demo_calls : list registry_call :=
  [ CallAdd 0 (Some [mkPollFD 3 1 0]) 1 100 1 0 3;
    CallAdd 0 None 0 10 1 0 (-1);
    CallAdd 0 (Some [mkPollFD 7 1 0; mkPollFD 8 1 0]) 2 (-1) 1 0 77;
    CallRemove 3 ].

(** A session whose only source is the libusb source, added with
    [timeout = -1]; libusb asks for a wake-up after 500 microseconds, and
    [g_poll] times out. *)
Definition usb_session : sr_session :=
  snd (sr_session_source_add_internal (sr_session_new (mkContext 77 true))
         0 (Some [mkPollFD 9 1 0]) 1 (-1) 1 0 77).

Definition usb_env : iter_env := mkIterEnv 1000 1 0 500 0 false [] 1600.

(** Two I/O sources without timeout, on descriptors 3 and 4; [g_poll]
    reports an event on descriptor 3 only. *)
Definition two_io_session : sr_session :=
  snd (sr_session_source_add
         (snd (sr_session_source_add (sr_session_new (mkContext 77 false))
                 0 3 1 (-1) 1 0))
         0 4 1 (-1) 2 0).

Definition two_io_env : iter_env := mkIterEnv 1000 0 0 0 1 false [1; 0] 1001.

(** A device with a driver and one enabled channel, and a session that
    holds it. *)
Definition demo_dev : sr_dev_inst :=
  mkDevInst 4096 (Some (mkDriver 1 2 3)) [true] false.

Definition demo_session : sr_session :=
  set_devs (sr_session_new (mkContext 77 false)) [attach demo_dev].

(** A session with two transforms and two subscribers. *)
Definition bus_session : sr_session :=
  mkSession (mkContext 77 false) [attach demo_dev]
    [mkDatafeedCb 11 0; mkDatafeedCb 12 0] [21; 22] None false [] [] false
    0%nat.

Definition pad (n : nat) : list mbyte := replicate n (MByte 0).

(** A logic packet: 2 samples of 1 byte.  Block 0 is the packet, block 1
    the payload struct, block 2 the sample buffer. *)
Definition logic_heap : heap :=
  [ mkBlock (encode_uint 2 SR_DF_LOGIC ++ pad 6 ++ encode_ptr (Ptr 1 0)) true;
    mkBlock (encode_uint 8 2 ++ encode_uint 2 1 ++ pad 6
             ++ encode_ptr (Ptr 2 0)) true;
    mkBlock [MByte 170; MByte 187] true ].

(** A meta packet with one config entry.  Block 0 is the packet, block 1
    the payload struct, block 2 the list node, block 3 the [sr_config],
    block 4 the GVariant, with reference count 1. *)
Definition meta_heap : heap :=
  [ mkBlock (encode_uint 2 SR_DF_META ++ pad 6 ++ encode_ptr (Ptr 1 0)) true;
    mkBlock (encode_ptr (Ptr 2 0)) true;
    mkBlock (encode_ptr (Ptr 3 0) ++ encode_ptr Null) true;
    mkBlock (encode_uint 4 30000 ++ pad 4 ++ encode_ptr (Ptr 4 0)) true;
    mkBlock (encode_uint 4 1) true ].

(** A header packet. *)
Definition header_heap : heap :=
  [ mkBlock (encode_uint 2 SR_DF_HEADER ++ pad 6 ++ encode_ptr (Ptr 1 0)) true;
    mkBlock (encode_uint 4 1 ++ pad 4 ++ encode_uint 8 1600000000
             ++ encode_uint 8 0) true ].

(** A packet with the tag [SR_DF_FRAME_BEGIN], which has no payload. *)
Definition frame_begin_heap : heap :=
  [ mkBlock (encode_uint 2 SR_DF_FRAME_BEGIN ++ pad 6 ++ encode_ptr Null) true ].

(** ** The remaining entry points of session.c *)

Definition set_datafeed_callbacks (s : sr_session)
    (cbs : list datafeed_callback) : sr_session :=
  mkSession (ctx s) (devs s) cbs (transforms s) (trigger s) (running s)
    (sources s) (pollfds s) (abort_session s) (next_id s).

Definition set_trigger (s : sr_session) (t : option sr_trigger) : sr_session :=
  mkSession (ctx s) (devs s) (datafeed_callbacks s) (transforms s) t
    (running s) (sources s) (pollfds s) (abort_session s) (next_id s).

(** [sr_session_dev_list]: a copy of the device list. *)
Definition sr_session_dev_list (s : sr_session) : Z * list sr_dev_inst :=
  (SR_OK, devs s).



(** [sr_session_datafeed_callback_remove_all]. *)
Definition sr_session_datafeed_callback_remove_all (s : sr_session)
    : Z * sr_session :=
  (SR_OK, set_datafeed_callbacks s []).

(** [sr_session_datafeed_callback_add]: [cb_] is the function pointer. *)
Definition sr_session_datafeed_callback_add (s : sr_session)
    (cb_ cb_data_ : Z) : Z * sr_session :=
  if cb_ =? 0 then (SR_ERR_ARG, s)
  else
    (SR_OK,
     set_datafeed_callbacks s
       (datafeed_callbacks s ++ [mkDatafeedCb cb_ cb_data_])).

(** [sr_session_trigger_get] and [sr_session_trigger_set]. *)
Definition sr_session_trigger_get (s : sr_session) : option sr_trigger :=
  trigger s.

Definition sr_session_trigger_set (s : sr_session) (t : option sr_trigger)
    : Z * sr_session :=
  (SR_OK, set_trigger s t).

(** ** Sequences of calls of the public registry functions *)

Inductive public_call :=
| PubAdd (now fd_ events_ tmo cb_ cb_data_ : Z)
| PubAddPollfd (now pollfd_addr : Z) (pollfd : GPollFD) (tmo cb_ cb_data_ : Z)
| PubAddChannel (now channel channel_fd events_ tmo cb_ cb_data_ : Z)
| PubRemove (fd_ : Z)
| PubRemovePollfd (pollfd_addr : Z)
| PubRemoveChannel (channel : Z).

Definition public_apply (c : public_call) (s : sr_session) : Z * sr_session :=
  match c with
  | PubAdd now fd_ events_ tmo cb_ cb_data_ =>
      sr_session_source_add s now fd_ events_ tmo cb_ cb_data_
  | PubAddPollfd now a p tmo cb_ cb_data_ =>
      sr_session_source_add_pollfd s now a p tmo cb_ cb_data_
  | PubAddChannel now ch chfd events_ tmo cb_ cb_data_ =>
      sr_session_source_add_channel s now ch chfd events_ tmo cb_ cb_data_
  | PubRemove fd_ => sr_session_source_remove s fd_
  | PubRemovePollfd a => sr_session_source_remove_pollfd s a
  | PubRemoveChannel ch => sr_session_source_remove_channel s ch
  end.

Definition public_run (calls : list public_call) (s : sr_session)
    : sr_session :=
  foldl (fun s c => snd (public_apply c s)) s calls.

(** ** Further notions used to state properties *)

(** No two sources of the registry have the same [poll_object]. *)
Definition keys_unique (srcs : list source) : Prop :=
  NoDup (poll_object <$> srcs).

(** The shape that [sr_session_source_add_internal] gives to the timer
    fields, and that the event loop keeps: no timeout and no deadline, or a
    timeout that is not negative. *)
Definition timer_shape (src : source) : Prop :=
  (timeout src = -1 /\ due src = INT64_MAX) \/ 0 <= timeout src.

(** Number of times [sr_session_stop_sync] has completed in a log. *)
Definition stop_syncs (log : list event) : nat :=
  length (filter (fun ev => is_stop_sync ev = true) log).

(** The deadline that the dispatch loop applies to a source. *)
Definition effective_due (c : sr_context) (usb_due : Z) (src : source) : Z :=
  if (usb_due <? due src) && (poll_object src =? libusb_ctx c)
  then usb_due else due src.



(** The parts of a session that only the configuration calls write: the
    libusb handle of the context, the device list, the subscribers, the
    transforms and the trigger. *)
Definition same_config (s s' : sr_session) : Prop :=
  libusb_ctx (ctx s') = libusb_ctx (ctx s) /\ devs s' = devs s /\
  datafeed_callbacks s' = datafeed_callbacks s /\
  transforms s' = transforms s /\ trigger s' = trigger s.

(** A device as [sr_session_dev_add] leaves it in the list: the
    back-reference is set, and a driver, if there is one, has [dev_open]. *)
Definition dev_enrolled (sdi : sr_dev_inst) : Prop :=
  sdi_session sdi = true /\
  forall d, driver sdi = Some d -> dev_open d <> 0.

(** The trigger that [verify_trigger] accepts: at least one stage, every
    stage with at least one match, every match with a channel and a match
    code. *)
Definition trigger_well_formed (t : sr_trigger) : Prop :=
  t <> [] /\
  Forall (fun stage =>
            stage <> [] /\
            Forall (fun m => match_channel m <> 0 /\ match_code m <> 0) stage)
    t.

(** [sr_session_datafeed_callback_add] for each of a list of callbacks
    with their data, in order. *)
Definition subscribe_all (s : sr_session) (cbs : list (Z * Z)) : sr_session :=
  foldl (fun s c => snd (sr_session_datafeed_callback_add s (fst c) (snd c)))
    s cbs.

(** A callback made for the source at index 0 of the registry. *)
Definition is_head_callback (ev : event) : bool :=
  if ev is EvCallback 0 _ _ _ then true else false.

(** * Properties *)

(** ** Source registry: the poll array in lockstep with the sources *)

Lemma guint_small z : 0 <= z <= INT_MAX -> guint z = z.
Proof.
  unfold guint, INT_MAX. intros H. apply Z.mod_small. lia.
Qed.

Lemma sum_num_fds_app l1 l2 :
  sum_num_fds (l1 ++ l2) = sum_num_fds l1 + sum_num_fds l2.
Proof.
  unfold sum_num_fds. induction l1 as [|x l1 IH]; simpl; [lia|].
  rewrite IH. lia.
Qed.

Lemma sum_num_fds_concat srcs o :
  Forall2 fds_match srcs o ->
  sum_num_fds srcs = Z.of_nat (length (concat o)).
Proof.
  induction 1 as [|src fds srcs o H _ IH]; simpl; [reflexivity|].
  rewrite length_app, IH. unfold fds_match in H. lia.
Qed.

Lemma source_find_spec srcs key i0 f0 i f src :
  source_find srcs key i0 f0 = Some (i, f, src) ->
  exists j, i = (i0 + j)%nat /\ srcs !! j = Some src /\
            f = f0 + sum_num_fds (take j srcs) /\
            index_of_key srcs key = Some j.
Proof.
  revert i0 f0. induction srcs as [|s srcs IH]; intros i0 f0; simpl; [discriminate|].
  destruct (poll_object s =? key) eqn:E.
  - intros [= <- <- <-]. exists 0%nat. split; [lia|]. split; [reflexivity|].
    split; [simpl; lia|]. unfold index_of_key. simpl.
    apply Z.eqb_eq in E. rewrite decide_True by exact E. reflexivity.
  - intros H. apply IH in H as (j & -> & Hj & -> & Hk).
    exists (S j). split; [lia|]. split; [exact Hj|]. split.
    + simpl. lia.
    + unfold index_of_key in *. simpl. apply Z.eqb_neq in E.
      rewrite decide_False by exact E.
      destruct (list_find _ srcs) as [[n x]|]; simpl in *; [|discriminate].
      congruence.
Qed.

Lemma remove_range_app (a fds b : list GPollFD) :
  Z.of_nat (length (a ++ fds ++ b)) <= INT_MAX ->
  g_array_remove_range (a ++ fds ++ b)
    (guint (Z.of_nat (length a))) (guint (Z.of_nat (length fds))) = a ++ b.
Proof.
  intros Hlen. rewrite !length_app in Hlen.
  rewrite !guint_small by lia.
  unfold g_array_remove_range. rewrite !length_app.
  destruct (Z.leb_spec (Z.of_nat (length a) + Z.of_nat (length fds))
              (Z.of_nat (length a + (length fds + length b)))) as [_|Hc]; [|lia].
  rewrite Nat2Z.id, take_app_length.
  replace (Z.to_nat (Z.of_nat (length a) + Z.of_nat (length fds)))
    with (length a + length fds)%nat by lia.
  rewrite drop_app_add, drop_app_length. reflexivity.
Qed.

Lemma concat_split (o : list (list GPollFD)) j fds :
  o !! j = Some fds ->
  concat o = concat (take j o) ++ fds ++ concat (drop (S j) o) /\
  concat (delete j o) = concat (take j o) ++ concat (drop (S j) o).
Proof.
  intros Hj. split.
  - rewrite <- (take_drop_middle o j fds Hj) at 1.
    rewrite concat_app. reflexivity.
  - rewrite delete_take_drop, concat_app. reflexivity.
Qed.

Lemma remove_range_concat (o : list (list GPollFD)) j fds :
  o !! j = Some fds ->
  Z.of_nat (length (concat o)) <= INT_MAX ->
  g_array_remove_range (concat o)
    (guint (Z.of_nat (length (concat (take j o)))))
    (guint (Z.of_nat (length fds))) = concat (delete j o).
Proof.
  intros Hj Hlen. destruct (concat_split o j fds Hj) as [E1 E2].
  rewrite E2. rewrite E1 in Hlen |- *. by apply remove_range_app.
Qed.

Lemma registry_inv_step c s o :
  registry_inv s o -> call_in_contract s c = true ->
  registry_inv (snd (registry_apply c s)) (owned_apply c s o).
Proof.
  intros (Hp & Hf & Hb) Hc. unfold owned_apply. destruct c as [now pfds nfds tmo cb_ cbd key|key]; simpl in *.
  - unfold sr_session_source_add_internal.
    destruct (cb_ =? 0); [simpl; done|].
    destruct ((if pfds is None then true else false) && negb (nfds =? 0)) eqn:E1; [simpl; done|].
    destruct (source_installed (sources s) key); [simpl; done|].
    simpl.
    assert (Hn : 0 <= nfds <= INT_MAX /\ Z.of_nat (length (pollfds s)) + nfds <= INT_MAX /\
                 Z.of_nat (length (take (Z.to_nat nfds) (default [] pfds))) = nfds).
    { destruct pfds as [l|]; simpl in *.
      - rewrite length_take. lia.
      - destruct (Z.eqb_spec nfds 0); [subst; simpl; lia | discriminate]. }
    destruct Hn as (Hn1 & Hn2 & Hn3).
    rewrite guint_small by lia.
    unfold registry_inv; simpl.
    unfold g_array_append_vals, g_array_append_val.
    split; [|split].
    + rewrite concat_app. simpl. rewrite app_nil_r.
      destruct (Z.eqb_spec nfds 0) as [->|]; [|by rewrite Hp].
      simpl. rewrite take_0. rewrite app_nil_r. exact Hp.
    + apply Forall2_app; [exact Hf|]. constructor; [|constructor].
      unfold fds_match. destruct (tmo >=? 0); simpl; lia.
    + destruct (Z.eqb_spec nfds 0) as [->|]; [lia|]. rewrite length_app. lia.
  - unfold sr_session_source_remove_internal.
    destruct (source_find (sources s) key 0%nat 0) as [[[i f] src]|] eqn:E; [|simpl; done].
    apply source_find_spec in E as (j & -> & Hj & -> & Hk). simpl.
    rewrite Hk.
    destruct (Forall2_lookup_l _ _ _ _ _ Hf Hj) as (fds & Ho & Hm).
    unfold registry_inv; simpl. unfold g_array_remove_index.
    assert (Hoff : sum_num_fds (take j (sources s)) = Z.of_nat (length (concat (take j o)))).
    { apply sum_num_fds_concat. by apply Forall2_take. }
    assert (Hrm : (if num_fds src >? 0
        then g_array_remove_range (pollfds s) (guint (0 + sum_num_fds (take j (sources s)))) (guint (num_fds src))
        else pollfds s) = concat (delete j o)).
    { unfold fds_match in Hm. rewrite Z.add_0_l, Hoff, Hm, Hp.
      destruct (Z.gtb_spec (Z.of_nat (length fds)) 0).
      - apply remove_range_concat; [exact Ho|]. rewrite <- Hp. exact Hb.
      - destruct fds; [|simpl in *; lia].
        destruct (concat_split o j [] Ho) as [E1 E2]. by rewrite E1, E2. }
    rewrite Hrm. split; [reflexivity|]. split.
    + by apply Forall2_delete.
    + destruct (concat_split o j fds Ho) as [E1 E2].
      rewrite Hp, E1 in Hb. rewrite E2. rewrite !length_app in *. lia.
Qed.

Lemma registry_inv_run calls : forall s o s' o',
  registry_inv s o -> registry_run calls s o = Some (s', o') ->
  registry_inv s' o'.
Proof.
  induction calls as [|c calls IH]; intros s o s' o' Hinv; simpl.
  - intros [= <- <-]. exact Hinv.
  - destruct (call_in_contract s c) eqn:Hc; [|discriminate].
    apply IH. by apply registry_inv_step.
Qed.

Lemma registry_inv_new c0 : registry_inv (sr_session_new c0) [].
Proof.
  unfold registry_inv; simpl. split; [reflexivity|]. split; [constructor|].
  unfold INT_MAX. lia.
Qed.

Lemma registry_inv_slice s o i src :
  registry_inv s o -> sources s !! i = Some src ->
  0 <= fd_offset (sources s) i /\
  fd_offset (sources s) i + num_fds src <= Z.of_nat (length (pollfds s)) /\
  o !! i = Some (slice_at s i src).
Proof.
  intros (Hp & Hf & _) Hi.
  destruct (Forall2_lookup_l _ _ _ _ _ Hf Hi) as (fds & Ho & Hm).
  unfold fds_match in Hm.
  assert (Hoff : fd_offset (sources s) i = Z.of_nat (length (concat (take i o)))).
  { apply sum_num_fds_concat. by apply Forall2_take. }
  destruct (concat_split o i fds Ho) as [E1 _].
  unfold slice_at. rewrite Hoff, Hm, Hp, E1, !Nat2Z.id, !length_app.
  split; [lia|]. split; [lia|].
  rewrite drop_app_length, take_app_length. exact Ho.
Qed.

(** Claim C1.  After any sequence of add and remove calls, each within the
    parameter contract, on a new session: the sum of [num_fds] over the
    sources equals the length of the poll array; and for the source at any
    index [i], the poll entries that start at the sum of [num_fds] over the
    sources before it, [num_fds] of them, lie inside the array and are
    exactly the descriptors that were handed over when that source was
    added. *)
Theorem registry_lockstep c0 calls s o :
  registry_run calls (sr_session_new c0) [] = Some (s, o) ->
  sum_num_fds (sources s) = Z.of_nat (length (pollfds s)) /\
  forall i src, sources s !! i = Some src ->
    0 <= fd_offset (sources s) i /\
    fd_offset (sources s) i + num_fds src <= Z.of_nat (length (pollfds s)) /\
    o !! i = Some (slice_at s i src).
Proof.
  intros Hrun.
  assert (Hinv : registry_inv s o).
  { eapply registry_inv_run; [apply registry_inv_new | exact Hrun]. }
  split.
  - destruct Hinv as (Hp & Hf & _). rewrite Hp. by apply sum_num_fds_concat.
  - intros i src Hi. by apply registry_inv_slice.
Qed.

Lemma registry_lockstep_witness :
  exists s o,
    registry_run demo_calls (sr_session_new (mkContext 77 false)) []
    = Some (s, o) /\
    sum_num_fds (sources s) = Z.of_nat (length (pollfds s)) /\
    forall i src, sources s !! i = Some src ->
      0 <= fd_offset (sources s) i /\
      fd_offset (sources s) i + num_fds src <= Z.of_nat (length (pollfds s)) /\
      o !! i = Some (slice_at s i src).
Proof.
  eexists _, _. split; [reflexivity|].
  apply (registry_lockstep (mkContext 77 false) demo_calls). reflexivity.
Defined.

(** ** Source registry: rejected additions *)

Lemma source_installed_spec srcs key :
  source_installed srcs key = true <-> exists src, src ∈ srcs /\ poll_object src = key.
Proof.
  induction srcs as [|s srcs IH]; simpl.
  - split; [discriminate|]. intros (src & H & _). by apply elem_of_nil in H.
  - destruct (Z.eqb_spec (poll_object s) key) as [E|E].
    + split; [|done]. intros _. exists s. split; [left|exact E].
    + rewrite IH. split.
      * intros (src & H & Hk). exists src. split; [by right|exact Hk].
      * intros (src & H & Hk). apply elem_of_cons in H as [->|H]; [done|].
        by exists src.
Qed.

(** Claim C5 fails as stated: the add operation of the registry accepts
    [num_fds = 0] together with a negative timeout, and installs the
    source. *)
Lemma add_internal_accepts_timer_without_timeout :
  exists s',
    sr_session_source_add_internal (sr_session_new (mkContext 0 false)) 0
      None 0 (-1) 1 0 5 = (SR_OK, s') /\
    sources s' <> sources (sr_session_new (mkContext 0 false)).
Proof.
  eexists. split; [reflexivity|]. discriminate.
Qed.

(** Claim C5, amended.  [sr_session_source_add_internal] rejects
    [num_fds <> 0] without a descriptor array, with SR_ERR_ARG, and a
    [poll_object] that is already in the registry, with SR_ERR when the
    other arguments are valid; the pure timer without timeout ([fd < 0] and
    [timeout < 0]) is rejected by the entry point [sr_session_source_add],
    with SR_ERR_ARG.  Whenever either function returns a status other than
    SR_OK, the session, with its registry and poll array, is unchanged. *)
Theorem source_add_rejections session now pfds nfds tmo cb_ cb_data_ key
    fd_ events_ :
  (pfds = None -> nfds <> 0 ->
   sr_session_source_add_internal session now pfds nfds tmo cb_ cb_data_ key
   = (SR_ERR_ARG, session)) /\
  ((exists src, src ∈ sources session /\ poll_object src = key) ->
   exists status,
     sr_session_source_add_internal session now pfds nfds tmo cb_ cb_data_ key
     = (status, session) /\ status <> SR_OK /\
     (cb_ <> 0 -> (pfds = None -> nfds = 0) -> status = SR_ERR)) /\
  (fd_ < 0 -> tmo < 0 ->
   sr_session_source_add session now fd_ events_ tmo cb_ cb_data_
   = (SR_ERR_ARG, session)) /\
  (forall status s',
     sr_session_source_add_internal session now pfds nfds tmo cb_ cb_data_ key
     = (status, s') -> status <> SR_OK -> s' = session) /\
  (forall status s',
     sr_session_source_add session now fd_ events_ tmo cb_ cb_data_
     = (status, s') -> status <> SR_OK -> s' = session).
Proof.
  assert (Hrej : forall p n k status s',
     sr_session_source_add_internal session now p n tmo cb_ cb_data_ k
     = (status, s') -> status <> SR_OK -> s' = session).
  { intros p n k status s'. unfold sr_session_source_add_internal.
    repeat (case_match; try congruence). }
  split; [|split; [|split; [|split]]].
  - intros -> Hn. unfold sr_session_source_add_internal.
    destruct (cb_ =? 0); [reflexivity|]. simpl.
    destruct (Z.eqb_spec nfds 0); [done|reflexivity].
  - intros Hin. apply source_installed_spec in Hin.
    unfold sr_session_source_add_internal. rewrite Hin.
    destruct (Z.eqb_spec cb_ 0) as [Hcb|Hcb].
    { exists SR_ERR_ARG. repeat split; [done|]. intros; done. }
    destruct ((if pfds is None then true else false) && negb (nfds =? 0)) eqn:E.
    { exists SR_ERR_ARG. repeat split; [done|]. intros _ Hp.
      destruct pfds; [discriminate|]. rewrite Hp in E by reflexivity. discriminate. }
    exists SR_ERR. repeat split. done.
  - intros Hfd Ht. unfold sr_session_source_add.
    destruct (Z.ltb_spec fd_ 0); [|lia]. destruct (Z.ltb_spec tmo 0); [|lia].
    reflexivity.
  - apply Hrej.
  - intros status s'. unfold sr_session_source_add.
    destruct ((fd_ <? 0) && (tmo <? 0)); [congruence|]. apply Hrej.
Qed.

Lemma source_add_rejections_witness :
  sr_session_source_add_internal two_io_session 0 None 1 (-1) 1 0 9
  = (SR_ERR_ARG, two_io_session) /\
  sr_session_source_add two_io_session 0 (-1) 0 (-1) 1 0
  = (SR_ERR_ARG, two_io_session) /\
  exists status,
    sr_session_source_add_internal two_io_session 0 (Some [mkPollFD 3 1 0])
      1 5 1 0 3 = (status, two_io_session) /\
    status = SR_ERR.
Proof.
  split; [|split].
  - apply (source_add_rejections two_io_session 0 None 1 (-1) 1 0 9 (-1) 0);
      [reflexivity | lia].
  - apply (source_add_rejections two_io_session 0 None 1 (-1) 1 0 9 (-1) 0);
      lia.
  - destruct (source_add_rejections two_io_session 0 (Some [mkPollFD 3 1 0])
                1 5 1 0 3 (-1) 0) as (_ & H & _).
    destruct H as (status & Heq & _ & Hst).
    + eexists. split; [apply list_elem_of_here | reflexivity].
    + exists status. split; [exact Heq|]. apply Hst; [lia | discriminate].
Defined.

(** ** Event loop: the triggered flag *)

Lemma ext_refl s : ext s s.
Proof. unfold ext. auto. Qed.

Lemma ext_trans s1 s2 s3 : ext s1 s2 -> ext s2 s3 -> ext s1 s3.
Proof.
  intros (F1 & N1 & E1) (F2 & N2 & E2). split; [auto|]. split; [lia|].
  intros src H3 Hlt. apply E1; [|exact Hlt]. apply E2; [exact H3|lia].
Qed.

Lemma ext_add s now pfds nfds tmo cb_ cbd key :
  ext s (snd (sr_session_source_add_internal s now pfds nfds tmo cb_ cbd key)).
Proof.
  unfold sr_session_source_add_internal.
  repeat (case_match; try apply ext_refl); simpl.
  all: unfold ext, ids_fresh, g_array_append_val; simpl.
  all: (split; [|split; [lia|]]).
  all: try (intros [Hnd Hall]; split;
            [ rewrite fmap_app; simpl; apply NoDup_app; split; [exact Hnd|];
              split; [| apply NoDup_singleton];
              intros x Hx Hx'; apply list_elem_of_singleton in Hx'; subst x;
              apply list_elem_of_fmap in Hx as (y & Hy & Hin);
              rewrite Forall_forall in Hall; specialize (Hall y Hin); lia
            | apply Forall_app; split;
              [ eapply Forall_impl; [exact Hall|]; simpl; intros; lia
              | constructor; [simpl; lia | constructor] ] ]).
  all: intros src Hin Hlt; apply elem_of_app in Hin as [Hin|Hin]; [exact Hin|];
       apply list_elem_of_singleton in Hin; subst src; simpl in Hlt; lia.
Qed.

Lemma ext_sublist s srcs pfds c :
  sublist srcs (sources s) ->
  ext s (set_ctx (set_registry s srcs pfds) c).
Proof.
  intros Hsub. unfold ext, ids_fresh; simpl. split; [|split; [lia|]].
  - intros [Hnd Hall]. split.
    + eapply sublist_NoDup; [exact Hnd|]. by apply fmap_sublist.
    + rewrite Forall_forall in *. intros x Hx. apply Hall.
      eapply elem_of_sublist; eauto.
  - intros src Hin _. eapply elem_of_sublist; eauto.
Qed.

Lemma ext_remove s key :
  ext s (snd (sr_session_source_remove_internal s key)).
Proof.
  unfold sr_session_source_remove_internal.
  destruct (source_find _ _ _ _) as [[[i f] src]|]; [|apply ext_refl].
  simpl. apply ext_sublist. unfold g_array_remove_index. apply sublist_delete.
Qed.

Lemma ext_same_registry s s' :
  sources s' = sources s -> next_id s' = next_id s -> ext s s'.
Proof.
  intros Hs Hn. unfold ext, ids_fresh. rewrite Hs, Hn. auto.
Qed.

Lemma ext_exec_prog {R} (p : prog R) : forall s, ext s (snd (exec_prog p s)).
Proof.
  induction p as [r|now pfds nfds tmo cb_ cbd key k IH|key k IH|k IH]; intros s; simpl.
  - apply ext_refl.
  - pose proof (ext_add s now pfds nfds tmo cb_ cbd key) as He.
    destruct (sr_session_source_add_internal _ _ _ _ _ _ _ _) as [r s1]. simpl in He.
    eapply ext_trans; [exact He | apply IH].
  - pose proof (ext_remove s key) as He.
    destruct (sr_session_source_remove_internal _ _) as [r s1]. simpl in He.
    eapply ext_trans; [exact He | apply IH].
  - eapply ext_trans; [|apply IH]. by apply ext_same_registry.
Qed.

Lemma ext_stop_devs U l : forall s w, ext s (fst (stop_devs U l s w)).
Proof.
  induction l as [|sdi l IH]; intros s w; simpl; [apply ext_refl|].
  destruct (driver sdi) as [d|]; [|apply IH].
  destruct (dev_acquisition_stop d =? 0); [apply IH|].
  pose proof (ext_exec_prog (acquisition_stop U (dev_acquisition_stop d) sdi w) s) as He.
  destruct (exec_prog _ s) as [w' s1]. simpl in He.
  eapply ext_trans; [exact He | apply IH].
Qed.

Lemma check_aborted_spec U s w :
  exists stop log s' w',
    sr_session_check_aborted U s w = (stop, log, s', w') /\ ext s s' /\
    (log = [] \/ log = [EvStopSync]).
Proof.
  unfold sr_session_check_aborted, sr_session_stop_sync.
  destruct (abort_session s).
  - pose proof (ext_stop_devs U (devs s) s w) as He.
    destruct (stop_devs U (devs s) s w) as [s1 w1]. simpl in He.
    do 4 eexists. split; [reflexivity|]. split; [|by right].
    eapply ext_trans; [exact He|]. by apply ext_same_registry.
  - do 4 eexists. split; [reflexivity|]. split; [apply ext_refl|by left].
Qed.

Lemma fired_marked_ext log s s' :
  fired_marked log s -> ext s s' -> fired_marked log s'.
Proof.
  intros Hm (_ & Hn & He) src Hin. destruct (Hm src Hin) as [Hlt Ht].
  split; [lia|]. intros src' Hin' Hid. apply Ht; [|exact Hid].
  apply He; [exact Hin'|]. rewrite Hid. exact Hlt.
Qed.

Lemma invoked_app l1 l2 : invoked (l1 ++ l2) = invoked l1 ++ invoked l2.
Proof. unfold invoked. apply omap_app. Qed.

Lemma invoked_quiet log :
  log = [] \/ log = [EvStopSync] -> invoked log = [].
Proof. by intros [-> | ->]. Qed.

Lemma callbacks_triggered_app l1 l2 :
  callbacks_triggered l1 -> callbacks_triggered l2 ->
  callbacks_triggered (l1 ++ l2).
Proof.
  intros H1 H2 ix fd_ rev at_call Hin.
  apply elem_of_app in Hin as [Hin|Hin]; eauto.
Qed.

Lemma callbacks_triggered_quiet log :
  log = [] \/ log = [EvStopSync] -> callbacks_triggered log.
Proof.
  intros [-> | ->] ix fd_ rev at_call Hin.
  - by apply elem_of_nil in Hin.
  - apply list_elem_of_singleton in Hin. discriminate.
Qed.

Lemma fire_source_id src t : src_id (fire_source src t) = src_id src.
Proof. reflexivity. Qed.

Lemma ids_insert_same (l : list source) i src x :
  l !! i = Some src -> src_id x = src_id src ->
  src_id <$> <[i := x]> l = src_id <$> l.
Proof.
  intros Hi Hid. rewrite list_fmap_insert, Hid.
  apply list_insert_id. by rewrite list_lookup_fmap, Hi.
Qed.

Lemma unique_by_id (l : list source) i src src' :
  NoDup (src_id <$> l) -> l !! i = Some src -> src' ∈ l ->
  src_id src' = src_id src -> src' = src.
Proof.
  intros Hnd Hi Hin Hid. apply list_elem_of_lookup in Hin as [j Hj].
  assert (j = i).
  { eapply NoDup_lookup; [exact Hnd| |].
    - rewrite list_lookup_fmap, Hj. reflexivity.
    - rewrite list_lookup_fmap, Hi. simpl. by rewrite Hid. }
  subst j. congruence.
Qed.

(** The step of the dispatch loop that invokes a callback keeps the
    invariant. *)
Lemma fire_keeps_inv {U} (st : loop_state U) i src t fd_ rev :
  dispatch_inv st ->
  sources (ls_session st) !! i = Some src -> triggered src = false ->
  let s1 := set_registry (ls_session st)
              (<[i := fire_source src t]> (sources (ls_session st)))
              (pollfds (ls_session st)) in
  let log1 := ls_log st ++ [EvCallback i fd_ rev s1] in
  ids_fresh s1 /\ callbacks_triggered log1 /\
  NoDup (src_id <$> invoked log1) /\ fired_marked log1 s1.
Proof.
  intros (Hf & Hc & Hnd & Hm) Hi Ht s1 log1.
  assert (Hlt : (i < length (sources (ls_session st)))%nat)
    by (eapply lookup_lt_Some; eauto).
  assert (Hs1 : sources s1 !! i = Some (fire_source src t))
    by (simpl; by apply list_lookup_insert_eq).
  assert (Hin : src ∈ sources (ls_session st))
    by (eapply list_elem_of_lookup_2; eauto).
  assert (Hinv : invoked log1 = invoked (ls_log st) ++ [fire_source src t]).
  { unfold log1. rewrite invoked_app. unfold invoked at 2. simpl.
    rewrite list_lookup_insert_eq by exact Hlt. reflexivity. }
  assert (Hf1 : ids_fresh s1).
  { destruct Hf as [Hn Ha]. split; simpl.
    - erewrite ids_insert_same; eauto.
    - apply Forall_insert; [exact Ha|]. simpl.
      rewrite Forall_forall in Ha. by apply Ha. }
  split; [exact Hf1|]. split; [|split].
  - apply callbacks_triggered_app; [exact Hc|].
    intros ix fd' rev' at_call Hev. apply list_elem_of_singleton in Hev.
    injection Hev as -> -> -> ->. eauto.
  - rewrite Hinv, fmap_app. simpl. apply NoDup_app. split; [exact Hnd|].
    split; [|apply NoDup_singleton].
    intros x Hx Hx'. apply list_elem_of_singleton in Hx'. subst x.
    apply list_elem_of_fmap in Hx as (src0 & Hid & Hin0).
    destruct (Hm src0 Hin0) as [_ Hall].
    rewrite (Hall src Hin) in Ht by done. discriminate.
  - intros x Hx. rewrite Hinv in Hx.
    assert (Hcase : forall src', src' ∈ sources s1 ->
              src' = fire_source src t \/
              (src' ∈ sources (ls_session st) /\ src' <> src)).
    { intros src' Hin'. simpl in Hin'.
      apply list_elem_of_lookup in Hin' as [j Hj].
      destruct (decide (j = i)) as [->|Hne].
      - left. rewrite list_lookup_insert_eq in Hj by exact Hlt. congruence.
      - right. rewrite list_lookup_insert_ne in Hj by done.
        split; [eapply list_elem_of_lookup_2; eauto|].
        intros ->. destruct Hf as [Hn _]. apply Hne.
        eapply NoDup_lookup; [exact Hn| |];
          rewrite list_lookup_fmap; [rewrite Hj | rewrite Hi]; reflexivity. }
    apply elem_of_app in Hx as [Hx|Hx].
    + destruct (Hm x Hx) as [Hl Hall]. split; [exact Hl|].
      intros src' Hin' Hid. destruct (Hcase src' Hin') as [->|[Hin'' _]];
        [reflexivity | by apply Hall].
    + apply list_elem_of_singleton in Hx. subst x. split.
      * destruct Hf as [_ Ha]. rewrite Forall_forall in Ha. simpl. by apply Ha.
      * intros src' Hin' Hid. destruct (Hcase src' Hin') as [->|[Hin'' Hne]];
          [reflexivity|]. exfalso. apply Hne.
        destruct Hf as [Hn _].
        exact (unique_by_id _ i src src' Hn Hi Hin'' Hid).
Qed.

Lemma dispatch_keeps_inv U e usb_due fuel : forall i fd_index (st : loop_state U),
  dispatch_inv st -> dispatch_inv (snd (dispatch U e usb_due fuel i fd_index st)).
Proof.
  induction fuel as [|fuel IH]; intros i fd_index st Hinv; simpl; [exact Hinv|].
  destruct (sources (ls_session st) !! i) as [src|] eqn:Hi; [|exact Hinv].
  destruct (scan_pollfds _ _ _ _) as [fd0 rev0].
  destruct (triggered src) eqn:Ht; [by apply IH|].
  destruct ((poll_ret e >? 0) && (rev0 =? 0)); [by apply IH|].
  match goal with |- context [if ?c then dispatch _ _ _ _ _ _ _ else _] =>
    destruct c end; [by apply IH|].
  set (fd1 := if num_fds src >? 1 then -1 else fd0).
  set (rev1 := if poll_ret e <=? 0 then 0 else rev0).
  pose proof (fire_keeps_inv st i src (stop_time e) fd1 rev1 Hinv Hi Ht)
    as (Hf1 & Hc1 & Hn1 & Hm1).
  set (s1 := set_registry _ _ _) in *.
  pose proof (ext_exec_prog
    (source_cb U (cb src) fd1 rev1 (cb_data src) (ls_world st)) s1) as He2.
  destruct (exec_prog _ s1) as [[b w1] s2]. simpl in He2.
  set (s3 := if b then s2
             else snd (sr_session_source_remove_internal s2 (poll_object src))).
  assert (He3 : ext s2 s3).
  { unfold s3. destruct b; [apply ext_refl | apply ext_remove]. }
  assert (Hstep : exists stopped log2 s4 w2,
    (if ls_stopped st then (true, [], s3, w1)
     else sr_session_check_aborted U s3 w1) = (stopped, log2, s4, w2) /\
    ext s3 s4 /\ (log2 = [] \/ log2 = [EvStopSync])).
  { destruct (ls_stopped st).
    - do 4 eexists. split; [reflexivity|]. split; [apply ext_refl | by left].
    - apply check_aborted_spec. }
  destruct Hstep as (stopped & log2 & s4 & w2 & -> & He4 & Hq).
  apply IH. unfold dispatch_inv; cbn [ls_session ls_log].
  assert (He : ext s1 s4) by (eapply ext_trans; [|eapply ext_trans]; eauto).
  split; [by apply He|]. split; [|split].
  - apply callbacks_triggered_app; [exact Hc1 | by apply callbacks_triggered_quiet].
  - rewrite invoked_app, (invoked_quiet log2 Hq), app_nil_r. exact Hn1.
  - unfold fired_marked.
    rewrite invoked_app, (invoked_quiet log2 Hq), app_nil_r.
    eapply fired_marked_ext; eauto.
Qed.

Lemma ids_fresh_new c0 : ids_fresh (sr_session_new c0).
Proof. split; simpl; constructor. Qed.

Lemma ids_fresh_exec_prog {R} (p : prog R) s :
  ids_fresh s -> ids_fresh (snd (exec_prog p s)).
Proof. apply ext_exec_prog. Qed.

Lemma ids_fresh_clear s :
  ids_fresh s ->
  ids_fresh (set_registry s (clear_triggered <$> sources s) (pollfds s)).
Proof.
  intros [Hn Ha]. split; simpl.
  - rewrite <- list_fmap_compose. exact Hn.
  - rewrite Forall_fmap. exact Ha.
Qed.

Lemma iteration_keeps_inv U fuel e s w ret log s' w' :
  ids_fresh s ->
  sr_session_iteration U fuel e s w = (ret, log, s', w') ->
  ids_fresh s' /\ callbacks_triggered log /\ NoDup (src_id <$> invoked log).
Proof.
  intros Hf. unfold sr_session_iteration.
  destruct (length (sources s) =? 0)%nat.
  { destruct (check_aborted_spec U s w) as (st & lg & s1 & w1 & -> & He & Hq).
    intros [= <- <- <- <-]. split; [by apply He|].
    split; [by apply callbacks_triggered_quiet|].
    rewrite (invoked_quiet lg Hq). constructor. }
  set (s0 := set_registry s (clear_triggered <$> sources s) (pollfds s)).
  assert (Hf0 : ids_fresh s0) by (by apply ids_fresh_clear).
  destruct (usb_source_present (ctx s0) && (usb_ret e <? 0)).
  { intros [= <- <- <- <-]. split; [exact Hf0|].
    split; [by apply callbacks_triggered_quiet; left | constructor]. }
  set (usb_due := usb_due_of (ctx s0) e).
  set (tmo := poll_timeout_ms _ _).
  set (s1 := if poll_ret e <? 0 then s0 else _).
  assert (Hq0 : callbacks_triggered [EvPoll (length (pollfds s0)) tmo] /\
                invoked [EvPoll (length (pollfds s0)) tmo] = []).
  { split; [|reflexivity]. intros ix fd_ rev at_call Hin.
    apply list_elem_of_singleton in Hin. discriminate. }
  destruct Hq0 as [Hc0 Hi0].
  assert (Hf1 : ids_fresh s1).
  { unfold s1. destruct (poll_ret e <? 0); exact Hf0. }
  destruct ((poll_ret e <? 0) && negb (poll_eintr e)).
  { intros [= <- <- <- <-]. split; [exact Hf1|]. split; [exact Hc0|].
    constructor. }
  assert (Hinit : dispatch_inv
            (mkLoop (U := U) s1 w [EvPoll (length (pollfds s0)) tmo] false false)).
  { split; [exact Hf1|]. split; [exact Hc0|]. cbn [ls_log ls_session].
    rewrite Hi0. split; [constructor|]. intros x Hx.
    rewrite Hi0 in Hx. by apply elem_of_nil in Hx. }
  pose proof (dispatch_keeps_inv U e usb_due fuel 0%nat 0 _ Hinit) as Hd.
  destruct (dispatch _ _ _ _ _ _ _) as [finished st].
  destruct Hd as (Hf2 & Hc2 & Hn2 & _).
  destruct finished; simpl; [|by intros [= <- <- <- <-]].
  destruct (ls_triggered st); [by intros [= <- <- <- <-]|].
  destruct (check_aborted_spec U (ls_session st) (ls_world st))
    as (sp & lg & s2 & w2 & -> & He & Hq).
  intros [= <- <- <- <-]. split; [by apply He|]. split.
  - apply callbacks_triggered_app; [exact Hc2 | by apply callbacks_triggered_quiet].
  - rewrite invoked_app, (invoked_quiet lg Hq), app_nil_r. exact Hn2.
Qed.

(** The numbering is consistent in every session that the API calls
    produce from a new session. *)
Lemma ids_fresh_run_loop U script : forall s w ret log s' w',
  ids_fresh s -> run_loop U script s w = (ret, log, s', w') -> ids_fresh s'.
Proof.
  induction script as [|[fuel e] script IH]; intros s w ret log s' w' Hf; simpl.
  - destruct (length (sources s) =? 0)%nat; by intros [= <- <- <- <-].
  - destruct (length (sources s) =? 0)%nat; [by intros [= <- <- <- <-]|].
    destruct (sr_session_iteration U fuel e s w) as [[[r lg] s1] w1] eqn:Hit.
    apply iteration_keeps_inv in Hit as [Hf1 _]; [|exact Hf].
    destruct r as [r|]; [|by intros [= <- <- <- <-]].
    destruct (negb (r =? SR_OK)); [by intros [= <- <- <- <-]|].
    destruct (run_loop U script s1 w1) as [[[r' lg'] s2] w2] eqn:Hl.
    intros [= <- <- <- <-]. eapply IH; eauto.
Qed.

Lemma ids_fresh_start_devs U l : forall s w ret s' w',
  ids_fresh s -> start_devs U l s w = Some (ret, s', w') -> ids_fresh s'.
Proof.
  induction l as [|sdi l IH]; intros s w ret s' w' Hf; simpl.
  - by intros [= <- <- <-].
  - destruct (negb (existsb _ _)).
    { destruct (driver sdi); [by intros [= <- <- <-] | discriminate]. }
    destruct (config_commit U sdi w) as [r w1].
    destruct (negb (r =? SR_OK)); [by intros [= <- <- <-]|].
    destruct (driver sdi) as [d|]; [|discriminate].
    destruct (dev_acquisition_start d =? 0); [discriminate|].
    pose proof (ids_fresh_exec_prog
      (acquisition_start U (dev_acquisition_start d) sdi w1) s Hf) as He.
    destruct (exec_prog _ s) as [[r2 w2] s2]. simpl in He.
    destruct (negb (r2 =? SR_OK)); [by intros [= <- <- <-]|].
    by apply IH.
Qed.

Lemma ids_fresh_same_registry s s' :
  sources s' = sources s -> next_id s' = next_id s ->
  ids_fresh s -> ids_fresh s'.
Proof. intros Hs Hn. unfold ids_fresh. by rewrite Hs, Hn. Qed.

Lemma ids_fresh_api_apply U c s w log s' w' :
  ids_fresh s -> api_apply U c s w = Some (log, s', w') -> ids_fresh s'.
Proof.
  intros Hf. destruct c as [sdi| | |script| | |p]; simpl.
  - unfold sr_session_dev_add.
    destruct sdi as [sdi|]; [|by intros [= <- <- <-]].
    destruct (sdi_session sdi); [by intros [= <- <- <-]|].
    destruct (driver sdi) as [d|]; [|by intros [= <- <- <-]].
    destruct (dev_open d =? 0); [by intros [= <- <- <-]|].
    cbn [running set_devs].
    destruct (running s); [|by intros [= <- <- <-]].
    destruct (config_commit U (attach sdi) w) as [r w1].
    destruct (negb (r =? SR_OK)); [by intros [= <- <- <-]|].
    destruct (dev_acquisition_start d =? 0); [discriminate|].
    match goal with |- context [exec_prog ?p ?s0] =>
      pose proof (ids_fresh_exec_prog p s0 Hf) as He;
      destruct (exec_prog p s0) as [[r2 w2] s2] end.
    by intros [= <- <- <-].
  - by intros [= <- <- <-].
  - unfold sr_session_start.
    destruct (length (devs s) =? 0)%nat; [by intros [= <- <- <-]|].
    destruct (if trigger s is Some t then _ else false); [by intros [= <- <- <-]|].
    destruct (start_devs U (devs s) s w) as [[[r s1] w1]|] eqn:Hs; [|discriminate].
    apply ids_fresh_start_devs in Hs; [|exact Hf]. by intros [= <- <- <-].
  - unfold sr_session_run.
    destruct (length (devs s) =? 0)%nat; [by intros [= <- <- <-]|].
    destruct (run_loop U script (set_running s true) w)
      as [[[r lg] s1] w1] eqn:Hl.
    apply ids_fresh_run_loop in Hl; [|exact Hf]. by intros [= <- <- <-].
  - by intros [= <- <- <-].
  - unfold sr_session_stop_sync.
    pose proof (ext_stop_devs U (devs s) s w) as He.
    destruct (stop_devs U (devs s) s w) as [s1 w1]. simpl in He.
    intros [= <- <- <-]. by apply He.
  - pose proof (ids_fresh_exec_prog (p w) s Hf) as He.
    destruct (exec_prog (p w) s) as [w1 s1]. by intros [= <- <- <-].
Qed.

Lemma ids_fresh_api_run U calls : forall s w log s' w',
  ids_fresh s -> api_run U calls s w = Some (log, s', w') -> ids_fresh s'.
Proof.
  induction calls as [|c calls IH]; intros s w log s' w' Hf; simpl.
  - by intros [= <- <- <-].
  - destruct (api_apply U c s w) as [[[lg s1] w1]|] eqn:Ha; [|discriminate].
    apply ids_fresh_api_apply in Ha; [|exact Hf].
    destruct (api_run U calls s1 w1) as [[[lg' s2] w2]|] eqn:Hr; [|discriminate].
    intros [= <- <- <-]. eapply IH; eauto.
Qed.

Lemma ids_fresh_reachable U calls c0 w0 log s w :
  api_run U calls (sr_session_new c0) w0 = Some (log, s, w) -> ids_fresh s.
Proof. apply ids_fresh_api_run, ids_fresh_new. Qed.

(** Claim C2.  In one iteration of the event loop, run for any number of
    steps, with any callbacks and drivers: every callback invoked is the
    callback of a source whose [triggered] flag is set at the moment of the
    call, and no registry entry has its callback invoked twice.  Callbacks
    may add and remove sources; after each of them the loop resets its
    index and goes on. *)
Theorem iteration_callbacks_once U fuel e s w ret log s' w' :
  ids_fresh s ->
  sr_session_iteration U fuel e s w = (ret, log, s', w') ->
  callbacks_triggered log /\ NoDup (src_id <$> invoked log).
Proof.
  intros Hf Hit. by apply iteration_keeps_inv in Hit as [_ Hit].
Qed.

Lemma iteration_callbacks_once_witness :
  exists ret log s' w',
    sr_session_iteration quiet_code 5 two_io_env two_io_session tt
    = (ret, log, s', w') /\
    callbacks_triggered log /\ NoDup (src_id <$> invoked log).
Proof.
  eexists _, _, _, _. split; [reflexivity|].
  eapply (iteration_callbacks_once quiet_code 5 two_io_env two_io_session tt).
  - unfold ids_fresh. compute_done.
  - reflexivity.
Defined.

(** ** Event loop: sources without timeout *)

Section DispatchLog.
Context (U : user_code) (e : iter_env) (usb_due : Z) (P : event -> Prop).
Hypothesis P_stop : P EvStopSync.
Hypothesis P_fire : forall s i src fd_index fd1 rev1,
  fires e usb_due s i src fd_index fd1 rev1 ->
  P (EvCallback i fd1 rev1 (fired_session e s i src)).

Lemma dispatch_log_forall fuel : forall i fd_index (st : loop_state U),
  Forall P (ls_log st) ->
  Forall P (ls_log (snd (dispatch U e usb_due fuel i fd_index st))).
Proof.
  induction fuel as [|fuel IH]; intros i fd_index st Hall; simpl; [exact Hall|].
  destruct (sources (ls_session st) !! i) as [src|] eqn:Hi; [|exact Hall].
  destruct (scan_pollfds _ _ _ _) as [fd0 rev0] eqn:Hscan.
  destruct (triggered src) eqn:Ht; [by apply IH|].
  destruct ((poll_ret e >? 0) && (rev0 =? 0)) eqn:Hskip; [by apply IH|].
  match goal with |- context [if ?c then dispatch _ _ _ _ _ _ _ else _] =>
    destruct c eqn:Hdue end; [by apply IH|].
  set (fd1 := if num_fds src >? 1 then -1 else fd0).
  set (rev1 := if poll_ret e <=? 0 then 0 else rev0) in *.
  assert (Hfire : fires e usb_due (ls_session st) i src fd_index fd1 rev1).
  { unfold fires. rewrite Hscan. simpl. auto 10. }
  apply P_fire in Hfire. unfold fired_session in Hfire.
  set (s1 := set_registry _ _ _) in *.
  destruct (exec_prog _ s1) as [[b w1] s2].
  set (s3 := if b then s2 else _).
  assert (Hstep : exists stopped log2 s4 w2,
    (if ls_stopped st then (true, [], s3, w1)
     else sr_session_check_aborted U s3 w1) = (stopped, log2, s4, w2) /\
    Forall P log2).
  { destruct (ls_stopped st); [by do 4 eexists|].
    unfold sr_session_check_aborted, sr_session_stop_sync.
    destruct (abort_session s3); [|by do 4 eexists].
    destruct (stop_devs U (devs s3) s3 w1). do 4 eexists.
    split; [reflexivity|]. by constructor. }
  destruct Hstep as (stopped & log2 & s4 & w2 & -> & Hq).
  apply IH. cbn [ls_log]. rewrite !Forall_app. repeat split; auto.
Qed.

End DispatchLog.

Lemma check_aborted_log U s w :
  let log := snd (fst (fst (sr_session_check_aborted U s w))) in
  log = [] \/ log = [EvStopSync].
Proof.
  unfold sr_session_check_aborted, sr_session_stop_sync.
  destruct (abort_session s); [|by left].
  destruct (stop_devs U (devs s) s w). by right.
Qed.

Lemma iteration_log_forall U e (P : event -> Prop) fuel s w ret log s' w' :
  P EvStopSync ->
  (forall n t, P (EvPoll n t)) ->
  (forall s_ i src fd_index fd1 rev1,
     fires e (usb_due_of (ctx s) e) s_ i src fd_index fd1 rev1 ->
     P (EvCallback i fd1 rev1 (fired_session e s_ i src))) ->
  sr_session_iteration U fuel e s w = (ret, log, s', w') ->
  Forall P log.
Proof.
  intros Hstop Hpoll Hfire. unfold sr_session_iteration.
  assert (Hq : forall l, l = [] \/ l = [EvStopSync] -> Forall P l).
  { intros l [-> | ->]; repeat constructor; done. }
  destruct (length (sources s) =? 0)%nat.
  { pose proof (check_aborted_log U s w) as Hl.
    destruct (sr_session_check_aborted U s w) as [[[sp lg] s1] w1].
    intros [= <- <- <- <-]. by apply Hq. }
  cbn [ctx set_registry].
  destruct (usb_source_present (ctx s) && (usb_ret e <? 0)).
  { intros [= <- <- <- <-]. constructor. }
  set (tmo := poll_timeout_ms _ _).
  set (s1 := if poll_ret e <? 0 then _ else _).
  destruct ((poll_ret e <? 0) && negb (poll_eintr e)).
  { intros [= <- <- <- <-]. repeat constructor. apply Hpoll. }
  match goal with |- context [dispatch U e ?ud fuel 0%nat 0 ?st0] =>
    pose proof (dispatch_log_forall U e ud P Hstop Hfire fuel 0%nat 0 st0) as Hd;
    assert (H0 : Forall P (ls_log st0)) by (repeat constructor; apply Hpoll)
  end.
  specialize (Hd H0).
  destruct (dispatch _ _ _ _ _ _ _) as [finished st]. cbn [snd] in Hd.
  destruct finished; simpl; [|by intros [= <- <- <- <-]].
  destruct (ls_triggered st); [by intros [= <- <- <- <-]|].
  pose proof (check_aborted_log U (ls_session st) (ls_world st)) as Hl.
  destruct (sr_session_check_aborted U _ _) as [[[sp lg] s2] w2].
  intros [= <- <- <- <-]. apply Forall_app. split; [exact Hd | by apply Hq].
Qed.

Lemma or_revents_app l1 l2 :
  or_revents (l1 ++ l2) = Z.lor (or_revents l1) (or_revents l2).
Proof.
  unfold or_revents. induction l1 as [|p l1 IH]; simpl; [reflexivity|].
  rewrite IH. apply Z.lor_assoc.
Qed.

Lemma scan_pollfds_nat pfds off fd0 (n : nat) :
  snd (scan_pollfds pfds (Z.of_nat off) (Z.of_nat n) fd0)
  = or_revents (take n (drop off pfds)).
Proof.
  unfold scan_pollfds. induction n as [|n IH].
  - simpl. reflexivity.
  - rewrite seqZ_S. rewrite foldl_app. simpl.
    destruct (foldl _ _ _) as [fd_ rev] eqn:E. simpl in *. subst rev.
    assert (Hsplit : take (S n) (drop off pfds)
                     = take n (drop off pfds)
                       ++ option_list (pfds !! (off + n)%nat)).
    { rewrite <- lookup_drop. generalize (drop off pfds) as l. clear.
      intros l. revert n. induction l as [|x l IHl]; intros [|n]; simpl; try reflexivity.
      - f_equal. rewrite IHl. reflexivity. }
    rewrite Hsplit, or_revents_app. f_equal.
    unfold pollfd_at. destruct (Z.ltb_spec (Z.of_nat off + (0 + Z.of_nat n)) 0); [lia|].
    replace (Z.to_nat (Z.of_nat off + (0 + Z.of_nat n))) with (off + n)%nat by lia.
    destruct (pfds !! (off + n)%nat) as [p|]; simpl; [|reflexivity].
    unfold or_revents. simpl. by rewrite Z.lor_0_r.
Qed.

Lemma scan_pollfds_own pfds off n fd0 :
  0 <= off -> 0 <= n ->
  snd (scan_pollfds pfds off n fd0)
  = or_revents (take (Z.to_nat n) (drop (Z.to_nat off) pfds)).
Proof.
  intros Ho Hn. rewrite <- (Z2Nat.id off Ho) at 1. rewrite <- (Z2Nat.id n Hn) at 1.
  apply scan_pollfds_nat.
Qed.

Lemma sum_num_fds_nonneg srcs :
  Forall (fun src => 0 <= num_fds src) srcs -> 0 <= sum_num_fds srcs.
Proof. induction 1; simpl; lia. Qed.

Lemma fd_offset_S srcs i src :
  srcs !! i = Some src ->
  fd_offset srcs (S i) = fd_offset srcs i + num_fds src.
Proof.
  intros Hi. unfold fd_offset. rewrite (take_S_r _ _ _ Hi), sum_num_fds_app.
  simpl. lia.
Qed.

Lemma first_callback_app l1 l2 :
  first_callback (l1 ++ l2)
  = match first_callback l1 with
    | Some ev => Some ev
    | None => first_callback l2
    end.
Proof.
  induction l1 as [|ev l1 IH]; simpl; [reflexivity|].
  destruct (is_callback ev); [reflexivity | exact IH].
Qed.

Lemma dispatch_log_extends U e usb_due fuel : forall i fd_index (st : loop_state U),
  exists l, ls_log (snd (dispatch U e usb_due fuel i fd_index st)) = ls_log st ++ l.
Proof.
  induction fuel as [|fuel IH]; intros i fd_index st; simpl.
  { exists []. by rewrite app_nil_r. }
  destruct (sources (ls_session st) !! i) as [src|];
    [|exists []; by rewrite app_nil_r].
  destruct (scan_pollfds _ _ _ _) as [fd0 rev0].
  destruct (triggered src); [apply IH|].
  destruct ((poll_ret e >? 0) && (rev0 =? 0)); [apply IH|].
  match goal with |- context [if ?c then dispatch _ _ _ _ _ _ _ else _] =>
    destruct c end; [apply IH|].
  destruct (exec_prog _ _) as [[b w1] s2].
  match goal with |- context [if ls_stopped st then ?a else ?b] =>
    destruct (if ls_stopped st then a else b) as [[[stopped log2] s4] w2] end.
  match goal with |- context [dispatch U e usb_due fuel ?i0 ?f0 ?st0] =>
    destruct (IH i0 f0 st0) as [l Hl] end.
  rewrite Hl. cbn [ls_log]. rewrite <- !app_assoc. eauto.
Qed.

Lemma fired_own_revents e s i src :
  sources s !! i = Some src ->
  Forall (fun src => 0 <= num_fds src) (sources s) ->
  snd (scan_pollfds (pollfds s) (fd_offset (sources s) i) (num_fds src)
         (int_of_gintptr (poll_object src)))
  = own_revents (fired_session e s i src) i (fire_source src (stop_time e)).
Proof.
  intros Hi Hnn. unfold own_revents, slice_at, fired_session. simpl.
  assert (Hoff : fd_offset (<[i:=fire_source src (stop_time e)]> (sources s)) i
                 = fd_offset (sources s) i).
  { unfold fd_offset. by rewrite take_insert_ge. }
  rewrite Hoff. apply scan_pollfds_own.
  - apply sum_num_fds_nonneg. by apply Forall_take.
  - rewrite Forall_forall in Hnn. apply Hnn. eapply list_elem_of_lookup_2; eauto.
Qed.

Lemma dispatch_first_callback U e usb_due fuel :
  forall i (st : loop_state U) ev,
  Forall (fun src => 0 <= num_fds src) (sources (ls_session st)) ->
  first_callback (ls_log st) = None ->
  first_callback
    (ls_log (snd (dispatch U e usb_due fuel i
                    (fd_offset (sources (ls_session st)) i) st))) = Some ev ->
  exists ix fd1 rev1 at_call src,
    ev = EvCallback ix fd1 rev1 at_call /\
    sources at_call !! ix = Some src /\
    rev1 = if poll_ret e >? 0 then own_revents at_call ix src else 0.
Proof.
  induction fuel as [|fuel IH]; intros i st ev Hnn Hnone; simpl.
  { rewrite Hnone. discriminate. }
  destruct (sources (ls_session st) !! i) as [src|] eqn:Hi;
    [|simpl; rewrite Hnone; discriminate].
  pose proof (fired_own_revents e (ls_session st) i src Hi Hnn) as Hown.
  destruct (scan_pollfds _ _ _ _) as [fd0 rev0]. simpl in Hown.
  rewrite <- (fd_offset_S _ _ _ Hi).
  destruct (triggered src); [by apply IH|].
  destruct ((poll_ret e >? 0) && (rev0 =? 0)); [by apply IH|].
  match goal with |- context [if ?c then dispatch _ _ _ _ _ _ _ else _] =>
    destruct c end; [by apply IH|].
  fold (fired_session e (ls_session st) i src).
  destruct (exec_prog _ _) as [[b w1] s2].
  match goal with |- context [if ls_stopped st then ?a else ?b] =>
    destruct (if ls_stopped st then a else b) as [[[stopped log2] s4] w2] end.
  match goal with |- context [dispatch U e usb_due fuel ?i0 ?f0 ?st0] =>
    destruct (dispatch_log_extends U e usb_due fuel i0 f0 st0) as [l Hl] end.
  rewrite Hl. cbn [ls_log]. rewrite <- !app_assoc, first_callback_app, Hnone.
  simpl. intros [= <-]. do 5 eexists. split; [reflexivity|]. split.
  - unfold fired_session. simpl. apply list_lookup_insert_eq.
    eapply lookup_lt_Some; eauto.
  - rewrite <- Hown. destruct (Z.gtb_spec (poll_ret e) 0) as [Hp|Hp].
    + destruct (Z.leb_spec (poll_ret e) 0); [lia | reflexivity].
    + destruct (Z.leb_spec (poll_ret e) 0); [reflexivity | lia].
Qed.

Lemma first_callback_quiet log :
  log = [] \/ log = [EvStopSync] -> first_callback log = None.
Proof. by intros [-> | ->]. Qed.

Lemma iteration_first_callback U fuel e s w ret log s' w' ev :
  Forall (fun src => 0 <= num_fds src) (sources s) ->
  sr_session_iteration U fuel e s w = (ret, log, s', w') ->
  first_callback log = Some ev ->
  exists ix fd1 rev1 at_call src,
    ev = EvCallback ix fd1 rev1 at_call /\
    sources at_call !! ix = Some src /\
    rev1 = if poll_ret e >? 0 then own_revents at_call ix src else 0.
Proof.
  intros Hnn. unfold sr_session_iteration.
  destruct (length (sources s) =? 0)%nat.
  { pose proof (check_aborted_log U s w) as Hl.
    destruct (sr_session_check_aborted U s w) as [[[sp lg] s1] w1].
    intros [= <- <- <- <-]. by rewrite first_callback_quiet. }
  cbn [ctx set_registry].
  destruct (usb_source_present (ctx s) && (usb_ret e <? 0)).
  { by intros [= <- <- <- <-]. }
  set (tmo := poll_timeout_ms _ _).
  set (s1 := if poll_ret e <? 0 then _ else _).
  destruct ((poll_ret e <? 0) && negb (poll_eintr e)).
  { by intros [= <- <- <- <-]. }
  assert (Hnn1 : Forall (fun src => 0 <= num_fds src) (sources s1)).
  { assert (Forall (fun src => 0 <= num_fds src) (clear_triggered <$> sources s))
      by (rewrite Forall_fmap; exact Hnn).
    unfold s1. by destruct (poll_ret e <? 0). }
  match goal with |- context [dispatch U e ?ud fuel 0%nat 0 ?st0] =>
    pose proof (fun ev => dispatch_first_callback U e ud fuel 0%nat st0 ev Hnn1
                            eq_refl) as Hd
  end.
  change (fd_offset _ 0) with 0 in Hd.
  destruct (dispatch _ _ _ _ _ _ _) as [finished st]. cbn [snd] in Hd.
  destruct finished; simpl; [|intros [= <- <- <- <-]; apply Hd].
  destruct (ls_triggered st); [intros [= <- <- <- <-]; apply Hd|].
  pose proof (check_aborted_log U (ls_session st) (ls_world st)) as Hl.
  destruct (sr_session_check_aborted U _ _) as [[[sp lg] s2] w2].
  intros [= <- <- <- <-]. rewrite first_callback_app.
  destruct (first_callback (ls_log st)) as [ev'|] eqn:E.
  - intros [= <-]. by apply Hd.
  - by rewrite first_callback_quiet.
Qed.

(** Claim C7 fails as stated: the libusb source, added without a timeout,
    has its callback invoked with no events at all once the deadline that
    libusb asked for has passed. *)
Lemma usb_source_fires_without_events :
  exists log s' at_call src,
    sr_session_iteration quiet_code 5 usb_env usb_session tt
    = (Some SR_OK, log, s', tt) /\
    EvCallback 0 9 0 at_call ∈ log /\
    sources at_call !! 0%nat = Some src /\
    timeout src < 0 /\ due src = INT64_MAX /\
    own_revents at_call 0 src = 0.
Proof.
  eexists _, _, _, _. split; [vm_compute; reflexivity|].
  split; [apply list_elem_of_further, list_elem_of_here|].
  split; [reflexivity|]. split; [reflexivity|]. split; reflexivity.
Qed.

(** After a callback the loop resumes at index 1 with [fd_index = 0]: the
    source on descriptor 4, whose own poll entry reports nothing, is
    invoked with the descriptor and the events of the source on
    descriptor 3. *)
Lemma restart_reads_neighbour_revents :
  exists log s' at_call src,
    sr_session_iteration quiet_code 5 two_io_env two_io_session tt
    = (Some SR_OK, log, s', tt) /\
    EvCallback 1 3 1 at_call ∈ log /\
    sources at_call !! 1%nat = Some src /\
    poll_object src = 4 /\ timeout src < 0 /\
    own_revents at_call 1 src = 0.
Proof.
  eexists _, _, _, _. split; [vm_compute; reflexivity|].
  split; [apply list_elem_of_further, list_elem_of_further, list_elem_of_here|].
  split; [reflexivity|]. split; [reflexivity|]. split; reflexivity.
Qed.

(** Claim C7, amended.  In one iteration, with clock readings below
    INT64_MAX: a source without timeout ([timeout < 0], [due = INT64_MAX])
    has its callback invoked only with a nonzero event mask, after [g_poll]
    reported events, or as the libusb source once the deadline asked for by
    libusb has passed; when [g_poll] reports events, no callback is invoked
    with a zero mask; and the mask handed to the first callback of the
    iteration is the OR of the events of that source's own poll entries. *)
Theorem pure_io_fires_on_events_or_usb_deadline U fuel e s w ret log s' w' :
  stop_time e < INT64_MAX ->
  Forall (fun src => 0 <= num_fds src) (sources s) ->
  sr_session_iteration U fuel e s w = (ret, log, s', w') ->
  (forall ix fd_ rev at_call src,
     EvCallback ix fd_ rev at_call ∈ log ->
     sources at_call !! ix = Some src ->
     timeout src < 0 -> due src = INT64_MAX ->
     (rev <> 0 /\ poll_ret e > 0) \/
     (poll_object src = libusb_ctx (ctx at_call) /\
      usb_source_present (ctx s) = true /\ usb_ret e = 1 /\
      usb_due_of (ctx s) e <= stop_time e)) /\
  (poll_ret e > 0 ->
   forall ix fd_ rev at_call, EvCallback ix fd_ rev at_call ∈ log -> rev <> 0) /\
  (forall ix fd_ rev at_call src,
     first_callback log = Some (EvCallback ix fd_ rev at_call) ->
     sources at_call !! ix = Some src ->
     rev = if poll_ret e >? 0 then own_revents at_call ix src else 0).
Proof.
  intros Hclock Hnn Hit. split; [|split].
  - pose (P := fun ev =>
      match ev with
      | EvCallback ix fd_ rev at_call =>
          forall src, sources at_call !! ix = Some src ->
            timeout src < 0 -> due src = INT64_MAX ->
            (rev <> 0 /\ poll_ret e > 0) \/
            (poll_object src = libusb_ctx (ctx at_call) /\
             usb_source_present (ctx s) = true /\ usb_ret e = 1 /\
             usb_due_of (ctx s) e <= stop_time e)
      | _ => True
      end).
    assert (Hall : Forall P log).
    { eapply iteration_log_forall; [| | |exact Hit]; try done.
      intros s_ i src fdi fd1 rev1 (Hi & _ & Hskip & _ & Hrev & Hdue).
      unfold P, fired_session. simpl. intros src'.
      rewrite list_lookup_insert_eq by (eapply lookup_lt_Some; eauto).
      intros [= <-]. simpl. intros Hneg.
      destruct (Z.geb_spec (timeout src) 0); [lia|]. intros Hmax.
      destruct (Z.eqb_spec rev1 0) as [Hz|Hnz].
      - right. simpl in Hdue. apply Z.ltb_ge in Hdue.
        destruct (Z.ltb_spec (usb_due_of (ctx s) e) (due src)) as [Hlt|Hge];
          simpl in Hdue; [|lia].
        destruct (Z.eqb_spec (poll_object src) (libusb_ctx (ctx s_))) as [Hk|Hk];
          [|lia].
        split; [exact Hk|]. unfold usb_due_of in *.
        destruct (usb_source_present (ctx s)); simpl in *; [|lia].
        destruct (Z.eqb_spec (usb_ret e) 1); [auto | lia].
      - left. split; [exact Hnz|].
        destruct (Z.leb_spec (poll_ret e) 0); [congruence | lia]. }
    intros ix fd_ rev at_call src Hin. rewrite Forall_forall in Hall.
    apply (Hall _ Hin).
  - intros Hpos.
    pose (P := fun ev =>
      match ev with EvCallback _ _ rev _ => rev <> 0 | _ => True end).
    assert (Hall : Forall P log).
    { eapply iteration_log_forall; [| | |exact Hit]; try done.
      intros s_ i src fdi fd1 rev1 (_ & _ & Hskip & _ & Hrev & _). unfold P.
      destruct (Z.gtb_spec (poll_ret e) 0); [|lia]. simpl in Hskip.
      destruct (Z.leb_spec (poll_ret e) 0); [lia|].
      apply Z.eqb_neq in Hskip. congruence. }
    intros ix fd_ rev at_call Hin. rewrite Forall_forall in Hall.
    apply (Hall _ Hin).
  - intros ix fd_ rev at_call src Hfirst Hsrc.
    destruct (iteration_first_callback U fuel e s w ret log s' w' _ Hnn Hit Hfirst)
      as (ix' & fd' & rev' & at' & src' & Heq & Hs & Hr).
    injection Heq as <- <- <- <-. rewrite Hsrc in Hs.
    injection Hs as <-. exact Hr.
Qed.

Lemma pure_io_fires_on_events_or_usb_deadline_witness :
  stop_time two_io_env < INT64_MAX /\
  (poll_ret two_io_env > 0 ->
   forall ix fd_ rev at_call,
     EvCallback ix fd_ rev at_call
     ∈ snd (fst (fst (sr_session_iteration quiet_code 5 two_io_env
                        two_io_session tt))) ->
     rev <> 0).
Proof.
  split; [reflexivity|].
  refine (proj1 (proj2
    (pure_io_fires_on_events_or_usb_deadline quiet_code 5 two_io_env
       two_io_session tt _ _ _ _ _ _ _))).
  - reflexivity.
  - compute_done.
  - reflexivity.
Defined.

(** ** The running flag; run on an empty registry *)

Lemma flag_after_app b l1 l2 :
  flag_after b (l1 ++ l2) = flag_after (flag_after b l1) l2.
Proof. apply foldl_app. Qed.

Lemma running_add s now pfds nfds tmo cb_ cbd key :
  running (snd (sr_session_source_add_internal s now pfds nfds tmo cb_ cbd key))
  = running s.
Proof.
  unfold sr_session_source_add_internal. repeat case_match; reflexivity.
Qed.

Lemma running_remove s key :
  running (snd (sr_session_source_remove_internal s key)) = running s.
Proof.
  unfold sr_session_source_remove_internal. repeat case_match; reflexivity.
Qed.

Lemma running_exec_prog {R} (p : prog R) :
  forall s, running (snd (exec_prog p s)) = running s.
Proof.
  induction p as [r|now pfds nfds tmo cb_ cbd key k IH|key k IH|k IH];
    intros s; simpl.
  - reflexivity.
  - pose proof (running_add s now pfds nfds tmo cb_ cbd key) as He.
    destruct (sr_session_source_add_internal _ _ _ _ _ _ _ _) as [r s1].
    rewrite IH. exact He.
  - pose proof (running_remove s key) as He.
    destruct (sr_session_source_remove_internal _ _) as [r s1].
    rewrite IH. exact He.
  - rewrite IH. reflexivity.
Qed.

Lemma running_stop_sync U s w :
  exists r s' w',
    sr_session_stop_sync U s w = (r, [EvStopSync], s', w') /\
    running s' = false.
Proof.
  unfold sr_session_stop_sync. destruct (stop_devs U (devs s) s w).
  by do 3 eexists.
Qed.

Lemma running_check_aborted U s w :
  exists stop log s' w',
    sr_session_check_aborted U s w = (stop, log, s', w') /\
    running s' = flag_after (running s) log.
Proof.
  unfold sr_session_check_aborted. destruct (abort_session s).
  - destruct (running_stop_sync U s w) as (r & s1 & w1 & -> & Hr).
    do 4 eexists. split; [reflexivity|]. simpl. exact Hr.
  - by do 4 eexists.
Qed.

Lemma running_dispatch U e usb_due b0 fuel : forall i fd_index (st : loop_state U),
  running (ls_session st) = flag_after b0 (ls_log st) ->
  let st' := snd (dispatch U e usb_due fuel i fd_index st) in
  running (ls_session st') = flag_after b0 (ls_log st').
Proof.
  induction fuel as [|fuel IH]; intros i fd_index st Hinv; simpl; [exact Hinv|].
  destruct (sources (ls_session st) !! i) as [src|]; [|exact Hinv].
  destruct (scan_pollfds _ _ _ _) as [fd0 rev0].
  destruct (triggered src); [by apply IH|].
  destruct ((poll_ret e >? 0) && (rev0 =? 0)); [by apply IH|].
  match goal with |- context [if ?c then dispatch _ _ _ _ _ _ _ else _] =>
    destruct c end; [by apply IH|].
  set (s1 := set_registry _ _ _).
  pose proof (running_exec_prog
    (source_cb U (cb src)
       (if num_fds src >? 1 then -1 else fd0)
       (if poll_ret e <=? 0 then 0 else rev0) (cb_data src) (ls_world st)) s1)
    as He2.
  destruct (exec_prog _ s1) as [[b w1] s2]. simpl in He2.
  set (s3 := if b then s2 else _).
  assert (He3 : running s3 = running (ls_session st)).
  { unfold s3. destruct b; [exact He2|]. by rewrite running_remove. }
  assert (Hstep : exists stopped log2 s4 w2,
    (if ls_stopped st then (true, [], s3, w1)
     else sr_session_check_aborted U s3 w1) = (stopped, log2, s4, w2) /\
    running s4 = flag_after (running s3) log2).
  { destruct (ls_stopped st); [by do 4 eexists|]. apply running_check_aborted. }
  destruct Hstep as (stopped & log2 & s4 & w2 & -> & Hr).
  apply IH. cbn [ls_session ls_log].
  rewrite Hr, He3, Hinv, !flag_after_app. reflexivity.
Qed.

Lemma running_iteration U fuel e s w ret log s' w' :
  sr_session_iteration U fuel e s w = (ret, log, s', w') ->
  running s' = flag_after (running s) log.
Proof.
  unfold sr_session_iteration.
  destruct (length (sources s) =? 0)%nat.
  { destruct (running_check_aborted U s w) as (sp & lg & s1 & w1 & -> & Hr).
    by intros [= <- <- <- <-]. }
  cbn [ctx set_registry].
  destruct (usb_source_present (ctx s) && (usb_ret e <? 0)).
  { by intros [= <- <- <- <-]. }
  set (tmo := poll_timeout_ms _ _).
  set (s1 := if poll_ret e <? 0 then _ else _).
  assert (Hs1 : running s1 = running s) by (unfold s1; by destruct (poll_ret e <? 0)).
  destruct ((poll_ret e <? 0) && negb (poll_eintr e)).
  { intros [= <- <- <- <-]. exact Hs1. }
  match goal with |- context [dispatch U e ?ud fuel 0%nat 0 ?st0] =>
    pose proof (running_dispatch U e ud (running s) fuel 0%nat 0 st0 Hs1) as Hd
  end.
  destruct (dispatch _ _ _ _ _ _ _) as [finished st]. cbn [snd] in Hd.
  destruct finished; simpl; [|by intros [= <- <- <- <-]].
  destruct (ls_triggered st); [by intros [= <- <- <- <-]|].
  destruct (running_check_aborted U (ls_session st) (ls_world st))
    as (sp & lg & s2 & w2 & -> & Hr).
  intros [= <- <- <- <-]. rewrite flag_after_app, <- Hd. exact Hr.
Qed.

Lemma running_run_loop U script : forall s w ret log s' w',
  run_loop U script s w = (ret, log, s', w') ->
  running s' = flag_after (running s) log.
Proof.
  induction script as [|[fuel e] script IH]; intros s w ret log s' w'; simpl.
  - destruct (length (sources s) =? 0)%nat; by intros [= <- <- <- <-].
  - destruct (length (sources s) =? 0)%nat; [by intros [= <- <- <- <-]|].
    destruct (sr_session_iteration U fuel e s w) as [[[r lg] s1] w1] eqn:Hit.
    apply running_iteration in Hit.
    destruct r as [r|]; [|by intros [= <- <- <- <-]].
    destruct (negb (r =? SR_OK)); [by intros [= <- <- <- <-]|].
    destruct (run_loop U script s1 w1) as [[[r' lg'] s2] w2] eqn:Hl.
    apply IH in Hl. intros [= <- <- <- <-].
    rewrite flag_after_app, <- Hit. exact Hl.
Qed.

Lemma running_run U script s w ret log s' w' :
  sr_session_run U script s w = (ret, log, s', w') ->
  running s' = flag_after (running s) log.
Proof.
  unfold sr_session_run.
  destruct (length (devs s) =? 0)%nat; [by intros [= <- <- <- <-]|].
  destruct (run_loop U script (set_running s true) w) as [[[r lg] s1] w1] eqn:Hl.
  apply running_run_loop in Hl. intros [= <- <- <- <-]. exact Hl.
Qed.

Lemma running_stop_devs U l : forall s w,
  running (fst (stop_devs U l s w)) = running s.
Proof.
  induction l as [|sdi l IH]; intros s w; simpl; [reflexivity|].
  destruct (driver sdi) as [d|]; [|apply IH].
  destruct (dev_acquisition_stop d =? 0); [apply IH|].
  pose proof (running_exec_prog (acquisition_stop U (dev_acquisition_stop d) sdi w) s) as He.
  destruct (exec_prog _ s) as [w' s1]. rewrite IH. exact He.
Qed.

Lemma running_start_devs U l : forall s w ret s' w',
  start_devs U l s w = Some (ret, s', w') -> running s' = running s.
Proof.
  induction l as [|sdi l IH]; intros s w ret s' w'; simpl.
  - by intros [= <- <- <-].
  - destruct (negb (existsb _ _)).
    { destruct (driver sdi); [by intros [= <- <- <-] | discriminate]. }
    destruct (config_commit U sdi w) as [r w1].
    destruct (negb (r =? SR_OK)); [by intros [= <- <- <-]|].
    destruct (driver sdi) as [d|]; [|discriminate].
    destruct (dev_acquisition_start d =? 0); [discriminate|].
    pose proof (running_exec_prog
      (acquisition_start U (dev_acquisition_start d) sdi w1) s) as He.
    destruct (exec_prog _ s) as [[r2 w2] s2]. simpl in He.
    destruct (negb (r2 =? SR_OK)); [by intros [= <- <- <-]|].
    intros H. apply IH in H. congruence.
Qed.

Lemma running_api_apply U c s w log s' w' :
  api_apply U c s w = Some (log, s', w') ->
  running s' = flag_after (running s) log.
Proof.
  destruct c as [sdi| | |script| | |p]; simpl.
  - unfold sr_session_dev_add.
    destruct sdi as [sdi|]; [|by intros [= <- <- <-]].
    destruct (sdi_session sdi); [by intros [= <- <- <-]|].
    destruct (driver sdi) as [d|]; [|by intros [= <- <- <-]].
    destruct (dev_open d =? 0); [by intros [= <- <- <-]|].
    cbn [running set_devs].
    destruct (running s) eqn:Hr; [|intros [= <- <- <-]; exact Hr].
    destruct (config_commit U (attach sdi) w) as [r w1].
    destruct (negb (r =? SR_OK)); [intros [= <- <- <-]; exact Hr|].
    destruct (dev_acquisition_start d =? 0); [discriminate|].
    match goal with |- context [exec_prog ?p ?s0] =>
      pose proof (running_exec_prog p s0) as He;
      destruct (exec_prog p s0) as [[r2 w2] s2] end.
    intros [= <- <- <-]. simpl in *. congruence.
  - by intros [= <- <- <-].
  - unfold sr_session_start.
    destruct (length (devs s) =? 0)%nat; [by intros [= <- <- <-]|].
    destruct (if trigger s is Some t then _ else false); [by intros [= <- <- <-]|].
    destruct (start_devs U (devs s) s w) as [[[r s1] w1]|] eqn:Hs; [|discriminate].
    apply running_start_devs in Hs. intros [= <- <- <-]. exact Hs.
  - destruct (sr_session_run U script s w) as [[[r lg] s1] w1] eqn:Hr.
    apply running_run in Hr. intros [= <- <- <-]. exact Hr.
  - by intros [= <- <- <-].
  - destruct (running_stop_sync U s w) as (r & s1 & w1 & -> & Hr).
    intros [= <- <- <-]. exact Hr.
  - pose proof (running_exec_prog (p w) s) as He.
    destruct (exec_prog (p w) s) as [w1 s1]. intros [= <- <- <-]. exact He.
Qed.

Lemma running_api_run U calls : forall s w log s' w',
  api_run U calls s w = Some (log, s', w') ->
  running s' = flag_after (running s) log.
Proof.
  induction calls as [|c calls IH]; intros s w log s' w'; simpl.
  - by intros [= <- <- <-].
  - destruct (api_apply U c s w) as [[[lg s1] w1]|] eqn:Ha; [|discriminate].
    apply running_api_apply in Ha.
    destruct (api_run U calls s1 w1) as [[[lg' s2] w2]|] eqn:Hr; [|discriminate].
    apply IH in Hr. intros [= <- <- <-].
    rewrite flag_after_app, <- Ha. exact Hr.
Qed.

Lemma on_since_cons ev_on ev log :
  on_since ev_on (ev :: log) <->
  on_since ev_on log \/ (ev_on ev = true /\ no_stop_sync log).
Proof.
  unfold on_since, no_stop_sync. split.
  - intros (l1 & x & l2 & Heq & Hon & Hns). destruct l1 as [|y l1]; simpl in Heq.
    + injection Heq as -> ->. by right.
    + injection Heq as -> ->. left. by exists l1, x, l2.
  - intros [(l1 & x & l2 & -> & Hon & Hns) | [Hon Hns]].
    + by exists (ev :: l1), x, l2.
    + by exists [], ev, log.
Qed.

Lemma flag_after_spec log : forall b,
  flag_after b log = true <->
  on_since is_running log \/ (b = true /\ no_stop_sync log).
Proof.
  induction log as [|ev log IH]; intros b.
  - simpl. split.
    + intros ->. right. split; [reflexivity|]. intros ev H. by apply elem_of_nil in H.
    + intros [(l1 & x & l2 & Heq & _) | [-> _]]; [|reflexivity].
      by destruct l1.
  - change (flag_after b (ev :: log))
      with (flag_after (if is_running ev then true
                        else if is_stop_sync ev then false else b) log).
    rewrite IH, on_since_cons.
    assert (Hns : no_stop_sync (ev :: log) <->
                  is_stop_sync ev = false /\ no_stop_sync log).
    { unfold no_stop_sync. split.
      - intros H. split; [apply H; left|]. intros x Hx. apply H. by right.
      - intros [H1 H2] x Hx. apply elem_of_cons in Hx as [->|Hx]; auto. }
    rewrite Hns.
    destruct ev; simpl; intuition congruence.
Qed.

(** Claim C8 fails as stated: after a successful start, with no stop at
    all, [running] is still false. *)
Lemma start_leaves_running_false :
  exists log s w,
    api_run quiet_code [ApiDevAdd (Some demo_dev); ApiStart]
      (sr_session_new (mkContext 77 false)) tt = Some (log, s, w) /\
    sr_session_start quiet_code demo_session tt
    = Some (SR_OK, [EvStart], s, w) /\
    on_since is_start log /\ running s = false.
Proof.
  eexists _, _, _. split; [reflexivity|]. split; [reflexivity|].
  split; [|reflexivity].
  exists [], EvStart, []. split; [reflexivity|]. split; [reflexivity|].
  intros ev H. by apply elem_of_nil in H.
Qed.

(** Claim C8, amended.  After any sequence of API calls on a new session
    (adding and removing devices, start, run for any number of steps, stop,
    stop_sync, registry calls), [running] is true if and only if
    [sr_session_run] has set it and [sr_session_stop_sync] has not
    completed since. *)
Theorem running_iff_run_entered U calls c0 w0 log s w :
  api_run U calls (sr_session_new c0) w0 = Some (log, s, w) ->
  running s = true <-> on_since is_running log.
Proof.
  intros Hrun. apply running_api_run in Hrun. rewrite Hrun. simpl.
  rewrite flag_after_spec. intuition congruence.
Qed.

Lemma running_iff_run_entered_witness :
  exists log s w,
    api_run quiet_code [ApiDevAdd (Some demo_dev); ApiStart; ApiRun []]
      (sr_session_new (mkContext 77 false)) tt = Some (log, s, w) /\
    (running s = true <-> on_since is_running log).
Proof.
  eexists _, _, _. split; [reflexivity|].
  eapply (running_iff_run_entered quiet_code
            [ApiDevAdd (Some demo_dev); ApiStart; ApiRun []]
            (mkContext 77 false) tt).
  reflexivity.
Defined.

(** Claim C4 fails as stated: on a new session, which has no devices,
    [sr_session_run] returns SR_ERR_ARG. *)
Lemma run_on_new_session_rejected :
  exists log s w,
    sr_session_run quiet_code [] (sr_session_new (mkContext 77 false)) tt
    = (Some SR_ERR_ARG, log, s, w) /\ SR_ERR_ARG <> SR_OK.
Proof. eexists _, _, _. split; [reflexivity | discriminate]. Qed.

(** Claim C4, amended.  On a session with an empty source registry,
    [sr_session_run] makes no poll call; it returns SR_OK, having set
    [running], when the session has at least one device, and SR_ERR_ARG,
    leaving the session as it was, when it has none, as a new session. *)
Theorem run_without_sources U script s w :
  sources s = [] ->
  exists ret log s',
    sr_session_run U script s w = (ret, log, s', w) /\
    (forall n t, EvPoll n t ∉ log) /\
    (devs s = [] -> ret = Some SR_ERR_ARG /\ s' = s) /\
    (devs s <> [] -> ret = Some SR_OK /\ s' = set_running s true).
Proof.
  intros Hs. unfold sr_session_run. destruct (devs s) as [|d ds] eqn:Hd; simpl.
  - do 3 eexists. split; [reflexivity|]. split; [|split; [done|]].
    + intros n t H. by apply elem_of_nil in H.
    + intros H. done.
  - assert (Hl : run_loop U script (set_running s true) w
                 = (Some SR_OK, [], set_running s true, w)).
    { destruct script as [|[f e] script]; simpl; by rewrite Hs. }
    rewrite Hl. do 3 eexists. split; [reflexivity|]. split; [|split; [done|done]].
    intros n t H. apply list_elem_of_singleton in H. discriminate.
Qed.

Lemma run_without_sources_witness :
  exists ret log s',
    sr_session_run quiet_code [] demo_session tt = (ret, log, s', tt) /\
    (forall n t, EvPoll n t ∉ log) /\
    (devs demo_session = [] -> ret = Some SR_ERR_ARG /\ s' = demo_session) /\
    (devs demo_session <> [] ->
     ret = Some SR_OK /\ s' = set_running demo_session true).
Proof.
  apply (run_without_sources quiet_code [] demo_session tt). reflexivity.
Defined.

(** ** Datafeed bus *)

Lemma run_transforms_pipes U ts : forall p w,
  exists r w',
    pipes U ts p w r w' /\
    run_transforms U ts p w
    = (match r with
       | Failed => inl SR_ERR
       | Dropped => inl SR_OK
       | Survived p' => inr p'
       end, w').
Proof.
  induction ts as [|t ts IH]; intros p w; simpl.
  - exists (Survived p), w. split; [constructor | reflexivity].
  - destruct (transform_receive U t p w) as [[status out] w'] eqn:Ht.
    destruct (Z.ltb_spec status 0) as [Hneg|Hpos].
    + exists Failed, w'. split; [econstructor; eauto | reflexivity].
    + destruct out as [|b off]; simpl.
      * exists Dropped, w'. split; [econstructor; eauto | reflexivity].
      * destruct (IH (Ptr b off) w') as (r & w'' & Hp & Hr).
        exists r, w''. split; [|exact Hr].
        eapply pipes_next; eauto.
Qed.

Lemma run_datafeed_callbacks_log U cbs sdi p : forall s w,
  fst (fst (run_datafeed_callbacks U cbs sdi p s w)) = deliveries cbs p.
Proof.
  induction cbs as [|c cbs IH]; intros s w; simpl; [reflexivity|].
  destruct (exec_prog _ s) as [w1 s1].
  specialize (IH s1 w1).
  destruct (run_datafeed_callbacks U cbs sdi p s1 w1) as [[lg s2] w2].
  simpl in *. by rewrite IH.
Qed.

Lemma run_datafeed_callbacks_served U cbs sdi p : forall s w,
  served U sdi p cbs s w
    (snd (fst (run_datafeed_callbacks U cbs sdi p s w)))
    (snd (run_datafeed_callbacks U cbs sdi p s w)).
Proof.
  induction cbs as [|c cbs IH]; intros s w; simpl; [constructor|].
  destruct (exec_prog _ s) as [w1 s1] eqn:He.
  specialize (IH s1 w1).
  destruct (run_datafeed_callbacks U cbs sdi p s1 w1) as [[lg s2] w2].
  simpl in *. econstructor; eauto.
Qed.

(** Claim C3.  For a device attached to a session and a packet:
    [sr_session_send] pipes the packet through the transforms of the
    session in order; when a transform returns a negative status the send
    returns SR_ERR and no subscriber is called; when a transform returns no
    output packet the send returns SR_OK and no subscriber is called: in
    both cases the session is as it was and the state of the caller is as
    the transforms left it.  Otherwise the send returns SR_OK, having
    called every subscriber on the packet that left the chain, in
    registration order: the session and the state of the caller are those
    that the calls of the subscribers, one after the other, produce. *)
Theorem send_pipes_then_delivers U sdi packet s w status log s' w' :
  sdi_session sdi = true -> packet <> Null ->
  sr_session_send U (Some sdi) packet s w = (status, log, s', w') ->
  exists r w1,
    pipes U (transforms s) packet w r w1 /\
    match r with
    | Failed => status = SR_ERR /\ log = [] /\ s' = s /\ w' = w1
    | Dropped => status = SR_OK /\ log = [] /\ s' = s /\ w' = w1
    | Survived p =>
        status = SR_OK /\ log = deliveries (datafeed_callbacks s) p /\
        served U sdi p (datafeed_callbacks s) s w1 s' w'
    end.
Proof.
  intros Hs Hp. unfold sr_session_send.
  destruct packet as [|b off]; [done|]. simpl. rewrite Hs. simpl.
  destruct (run_transforms_pipes U (transforms s) (Ptr b off) w)
    as (r & w1 & Hpipes & ->).
  intros Hsend. exists r, w1. split; [exact Hpipes|].
  destruct r as [| |p'].
  - by injection Hsend as <- <- <- <-.
  - by injection Hsend as <- <- <- <-.
  - pose proof (run_datafeed_callbacks_log U (datafeed_callbacks s) sdi p' s w1)
      as Hl.
    pose proof (run_datafeed_callbacks_served U (datafeed_callbacks s) sdi p'
                  s w1) as Hsv.
    destruct (run_datafeed_callbacks _ _ _ _ _ _) as [[lg s2] w2].
    injection Hsend as <- <- <- <-. by repeat split.
Qed.

Lemma send_pipes_then_delivers_witness :
  exists r w1,
    pipes recording_code (transforms bus_session) (Ptr 0 0) [] r w1 /\
    match r with
    | Failed =>
        SR_OK = SR_ERR /\
        deliveries (datafeed_callbacks bus_session) (Ptr 0 0) = [] /\
        bus_session = bus_session /\ [21; 22; 11; 12] = w1
    | Dropped =>
        SR_OK = SR_OK /\
        deliveries (datafeed_callbacks bus_session) (Ptr 0 0) = [] /\
        bus_session = bus_session /\ [21; 22; 11; 12] = w1
    | Survived p =>
        SR_OK = SR_OK /\
        deliveries (datafeed_callbacks bus_session) (Ptr 0 0)
        = deliveries (datafeed_callbacks bus_session) p /\
        served recording_code (attach demo_dev) p
          (datafeed_callbacks bus_session) bus_session w1 bus_session
          [21; 22; 11; 12]
    end.
Proof.
  apply (send_pipes_then_delivers recording_code (attach demo_dev) (Ptr 0 0)
           bus_session [] SR_OK
           (deliveries (datafeed_callbacks bus_session) (Ptr 0 0))
           bus_session [21; 22; 11; 12]);
    [reflexivity | discriminate | reflexivity].
Defined.

(** ** Packet copy and free *)

Lemma access_app h l p n r :
  access h p n = Some r -> access (h ++ l) p n = Some r.
Proof.
  unfold access. destruct p as [|b off]; [discriminate|].
  destruct (h !! b) as [blk|] eqn:Hb; [|discriminate].
  by rewrite (lookup_app_l_Some _ _ _ _ Hb).
Qed.

Lemma load_bytes_app h l p n bs h' :
  load_bytes p n h = Done bs h' ->
  h' = h /\ load_bytes p n (h ++ l) = Done bs (h ++ l).
Proof.
  unfold load_bytes. destruct (access h p n) as [[[b off] blk]|] eqn:Ha;
    [|discriminate].
  intros [= <- <-]. split; [reflexivity|].
  by rewrite (access_app _ l _ _ _ Ha).
Qed.

Lemma load_uint_app h l w p z h' :
  load_uint w p h = Done z h' ->
  h' = h /\ load_uint w p (h ++ l) = Done z (h ++ l).
Proof.
  unfold load_uint, bind.
  destruct (load_bytes p w h) as [bs h1|] eqn:Hl; [|discriminate].
  apply (load_bytes_app _ l) in Hl as [-> Hl]. rewrite Hl.
  destruct (decode_uint bs); [|discriminate].
  unfold ret. by intros [= <- <-].
Qed.

Lemma load_ptr_app h l p q h' :
  load_ptr p h = Done q h' ->
  h' = h /\ load_ptr p (h ++ l) = Done q (h ++ l).
Proof.
  unfold load_ptr, bind.
  destruct (load_bytes p sizeof_ptr h) as [bs h1|] eqn:Hl; [|discriminate].
  apply (load_bytes_app _ l) in Hl as [-> Hl]. rewrite Hl.
  destruct (decode_ptr bs); [|discriminate].
  unfold ret. by intros [= <- <-].
Qed.

Lemma alloc_fresh init n h :
  0 < n ->
  alloc init n h
  = Done (Ptr (length h) 0) (h ++ [mkBlock (replicate (Z.to_nat n) init) true]).
Proof.
  intros Hn. unfold alloc. destruct (Z.leb_spec n 0); [lia | reflexivity].
Qed.

(** A store into the block allocated last. *)
Lemma store_bytes_last h blk off bs :
  live blk = true -> 0 <= off ->
  store_bytes (Ptr (length h) off) bs (h ++ [blk])
  = if off + Z.of_nat (length bs) <=? Z.of_nat (length (bytes blk))
    then Done tt
           (h ++ [mkBlock (take (Z.to_nat off) (bytes blk) ++ bs
                           ++ drop (Z.to_nat off + length bs) (bytes blk)) true])
    else Undefined (h ++ [blk]).
Proof.
  intros Hl Ho. unfold store_bytes, access.
  rewrite (list_lookup_middle h [] blk (length h) eq_refl). rewrite Hl. simpl.
  destruct (Z.leb_spec 0 off); [|lia]. simpl.
  destruct (Z.leb_spec 0 (Z.of_nat (length bs))); [|lia]. simpl.
  destruct (off + Z.of_nat (length bs) <=? Z.of_nat (length (bytes blk)));
    [|reflexivity].
  f_equal. rewrite insert_app_r_alt by lia.
  replace (length h - length h)%nat with 0%nat by lia. reflexivity.
Qed.

Lemma encode_uint_length w z :
  0 <= w -> length (encode_uint w z) = Z.to_nat w.
Proof.
  intros Hw. unfold encode_uint. rewrite length_fmap, length_seqZ. reflexivity.
Qed.

Lemma decode_encode_uint16 z :
  0 <= z < 2 ^ 16 -> decode_uint (encode_uint 2 z) = Some z.
Proof.
  intros Hz. unfold encode_uint, seqZ. simpl. f_equal.
  rewrite Z.pow_0_r, Z.div_1_r, Z.pow_1_r.
  pose proof (Z.div_mod z 256 ltac:(lia)) as Hd.
  assert (0 <= z / 256 < 256).
  { split; [apply Z.div_pos; lia | apply Z.div_lt_upper_bound; lia]. }
  rewrite (Z.mod_small (z / 256)) by lia. lia.
Qed.

(** Claim C10.  Given a packet whose tag has no case in the switch,
    [sr_packet_copy] returns SR_ERR; the value left in [*copy] is a pointer
    to a block allocated by the call, which holds the tag of the input in
    its [type] field and NULL in its [payload] field. *)
Theorem copy_unknown_tag_sets_out_param h packet ty :
  load_uint 2 (packet_type packet) h = Done ty h ->
  0 <= ty < 2 ^ 16 ->
  ty ∉ copyable_tags ->
  exists h',
    sr_packet_copy packet h = Done (SR_ERR, Ptr (length h) 0) h' /\
    (exists blk, h' = h ++ [blk]) /\
    load_uint 2 (packet_type (Ptr (length h) 0)) h' = Done ty h' /\
    load_ptr (packet_payload (Ptr (length h) 0)) h' = Done Null h'.
Proof.
  intros Hload Hrange Htag.
  unfold sr_packet_copy, bind, g_malloc0, sizeof_packet.
  rewrite alloc_fresh by lia.
  apply (load_uint_app _ [mkBlock (replicate (Z.to_nat 16) (MByte 0)) true])
    in Hload as [_ Hload].
  rewrite Hload. unfold store_uint, packet_type, ptr_add.
  rewrite store_bytes_last by (simpl; lia). simpl.
  assert (Hno : forall t, t ∈ copyable_tags -> (ty =? t) = false).
  { intros t Ht. apply Z.eqb_neq. intros ->. done. }
  rewrite !Hno by (apply list_elem_of_In; simpl; tauto). simpl.
  eexists. split; [reflexivity|]. split; [eauto|]. split.
  - unfold load_uint, bind, load_bytes, access.
    rewrite (list_lookup_middle h [] _ (length h) eq_refl). simpl.
    pose proof (decode_encode_uint16 ty Hrange) as Hd.
    unfold encode_uint, seqZ in Hd. simpl in Hd. injection Hd as Hd.
    unfold ret. rewrite Hd. reflexivity.
  - unfold load_ptr, bind, load_bytes, access, packet_payload, ptr_add.
    rewrite (list_lookup_middle h [] _ (length h) eq_refl). reflexivity.
Qed.

Lemma copy_unknown_tag_sets_out_param_witness :
  exists h',
    sr_packet_copy (Ptr 0 0) frame_begin_heap
    = Done (SR_ERR, Ptr (length frame_begin_heap) 0) h' /\
    (exists blk, h' = frame_begin_heap ++ [blk]) /\
    load_uint 2 (packet_type (Ptr (length frame_begin_heap) 0)) h'
    = Done SR_DF_FRAME_BEGIN h' /\
    load_ptr (packet_payload (Ptr (length frame_begin_heap) 0)) h'
    = Done Null h'.
Proof.
  apply (copy_unknown_tag_sets_out_param frame_begin_heap (Ptr 0 0)
           SR_DF_FRAME_BEGIN).
  - reflexivity.
  - unfold SR_DF_FRAME_BEGIN. lia.
  - compute_done.
Defined.

(** Claim C6 against the code.  On every logic packet whose fields can be
    read, [sr_packet_copy] ends in undefined behaviour: it has allocated
    the packet and a payload block of the size of a pointer, smaller than
    the payload struct, the store of [unitsize] falls outside that block,
    and no sample buffer has been allocated. *)
Theorem copy_logic_packet_undefined h packet logic len us :
  load_uint 2 (packet_type packet) h = Done SR_DF_LOGIC h ->
  load_ptr (packet_payload packet) h = Done logic h ->
  load_uint 8 (logic_length logic) h = Done len h ->
  load_uint 2 (logic_unitsize logic) h = Done us h ->
  exists b0 b1,
    sr_packet_copy packet h = Undefined (h ++ [b0; b1]) /\
    length (bytes b1) = Z.to_nat sizeof_ptr /\ sizeof_ptr < sizeof_logic.
Proof.
  intros Hty Hpl Hlen Hus.
  unfold sr_packet_copy, bind, g_malloc0, g_malloc, sizeof_packet, sizeof_ptr.
  unfold store_uint, packet_type, packet_payload, logic_length,
    logic_unitsize in *.
  rewrite alloc_fresh by lia.
  set (b0 := mkBlock (replicate (Z.to_nat 16) (MByte 0)) true).
  destruct (load_uint_app _ [b0] _ _ _ _ Hty) as [_ ->].
  cbn [ptr_add].
  rewrite store_bytes_last by (simpl; lia).
  decide_if.
  set (b0' := mkBlock _ true).
  do 4 decide_if.
  destruct (load_ptr_app _ [b0'] _ _ _ Hpl) as [_ ->].
  rewrite alloc_fresh by lia.
  set (b1 := mkBlock (replicate (Z.to_nat 8) MUndef) true).
  rewrite <- app_assoc. change ([b0'] ++ [b1]) with [b0'; b1].
  destruct (load_uint_app _ [b0'; b1] _ _ _ _ Hlen) as [_ ->].
  replace (h ++ [b0'; b1]) with ((h ++ [b0']) ++ [b1])
    by (by rewrite <- app_assoc).
  cbn [ptr_add].
  rewrite store_bytes_last by (simpl; lia).
  rewrite encode_uint_length by lia.
  decide_if.
  set (b1' := mkBlock _ true).
  rewrite <- app_assoc. change ([b0'] ++ [b1']) with [b0'; b1'].
  destruct (load_uint_app _ [b0'; b1'] _ _ _ _ Hus) as [_ ->].
  replace (h ++ [b0'; b1']) with ((h ++ [b0']) ++ [b1'])
    by (by rewrite <- app_assoc).
  assert (Hlen1 : length (bytes b1') = 8%nat).
  { unfold b1'. cbn [bytes]. rewrite !length_app, encode_uint_length by lia.
    reflexivity. }
  rewrite store_bytes_last by (simpl; lia).
  rewrite encode_uint_length, Hlen1 by lia.
  decide_if.
  exists b0', b1'. split; [by rewrite <- app_assoc|].
  split; [exact Hlen1 | reflexivity].
Qed.

Lemma copy_logic_packet_undefined_witness :
  exists b0 b1,
    sr_packet_copy (Ptr 0 0) logic_heap = Undefined (logic_heap ++ [b0; b1]) /\
    length (bytes b1) = Z.to_nat sizeof_ptr /\ sizeof_ptr < sizeof_logic.
Proof.
  apply (copy_logic_packet_undefined logic_heap (Ptr 0 0) (Ptr 1 0) 2 1);
    reflexivity.
Defined.

(** Claim C9 against the code.  On a meta packet with one config entry,
    [sr_packet_copy] raises the reference count of the variant from 1 to 2
    and then reads [meta_copy->config] through the NULL pointer that
    [copy_src] receives: undefined behaviour, with the count still raised.
    No free follows. *)
Theorem copy_meta_packet_undefined_after_ref :
  exists h',
    sr_packet_copy (Ptr 0 0) meta_heap = Undefined h' /\
    load_uint 4 (Ptr 4 0) meta_heap = Done 1 meta_heap /\
    load_uint 4 (Ptr 4 0) h' = Done 2 h'.
Proof.
  eexists. split; [vm_compute; reflexivity|]. split; reflexivity.
Qed.

(** For a header packet the round trip works: both blocks that the copy
    allocates are released by the free, and the original is untouched. *)
Lemma copy_free_header_releases_storage :
  exists h',
    (r <- sr_packet_copy (Ptr 0 0) ;; sr_packet_free (snd r)) header_heap
    = Done tt h' /\
    take 2 h' = header_heap /\
    live <$> drop 2 h' = [false; false].
Proof.
  eexists. split; [vm_compute; reflexivity|]. split; reflexivity.
Qed.

(** * Further properties *)

(** ** Further properties of the source registry *)

Lemma index_of_key_None srcs key :
  index_of_key srcs key = None <-> source_installed srcs key = false.
Proof.
  unfold index_of_key. induction srcs as [|s srcs IH]; simpl; [done|].
  destruct (Z.eqb_spec (poll_object s) key) as [E|E].
  - rewrite decide_True by exact E. done.
  - rewrite decide_False by exact E. rewrite <- IH.
    destruct (list_find _ srcs) as [[n x]|]; simpl; done.
Qed.

Lemma source_find_None srcs key : forall i f,
  source_find srcs key i f = None <-> source_installed srcs key = false.
Proof.
  induction srcs as [|s srcs IH]; intros i f; simpl; [done|].
  destruct (poll_object s =? key); [done | apply IH].
Qed.

Lemma index_of_key_Some srcs key i :
  index_of_key srcs key = Some i ->
  exists src, srcs !! i = Some src /\ poll_object src = key.
Proof.
  unfold index_of_key. destruct (list_find _ srcs) as [[n x]|] eqn:E;
    [|discriminate].
  intros [= <-]. apply list_find_Some in E as (Hl & Hk & _). eauto.
Qed.

Lemma keys_unique_absent_after_delete srcs key i :
  keys_unique srcs -> index_of_key srcs key = Some i ->
  index_of_key (delete i srcs) key = None.
Proof.
  intros Hu Hi. apply index_of_key_None.
  destruct (source_installed (delete i srcs) key) eqn:E; [|reflexivity].
  exfalso. apply source_installed_spec in E as (src' & Hin & Hk').
  apply index_of_key_Some in Hi as (src & Hs & Hk).
  apply list_elem_of_lookup in Hin as [j Hj].
  unfold keys_unique in Hu.
  destruct (decide (j < i)%nat) as [Hlt|Hge].
  - rewrite list_lookup_delete_lt in Hj by exact Hlt.
    assert (j = i); [|lia].
    apply (NoDup_lookup _ _ _ key Hu);
      rewrite list_lookup_fmap; [rewrite Hj | rewrite Hs]; simpl; congruence.
  - rewrite list_lookup_delete_ge in Hj by lia.
    assert (S j = i); [|lia].
    apply (NoDup_lookup _ _ _ key Hu);
      rewrite list_lookup_fmap; [rewrite Hj | rewrite Hs]; simpl; congruence.
Qed.

(** Property X1.  Removal of a key that is not installed is refused with
    SR_ERR_BUG and changes nothing; removal of an installed key returns SR_OK
    and deletes exactly the first entry with the key, the other entries
    keeping their order; when keys are unique the key is then absent. *)
Theorem remove_missing_or_exactly_one s key :
  (index_of_key (sources s) key = None ->
   sr_session_source_remove_internal s key = (SR_ERR_BUG, s)) /\
  (forall i, index_of_key (sources s) key = Some i ->
   exists s',
     sr_session_source_remove_internal s key = (SR_OK, s') /\
     sources s' = delete i (sources s) /\
     (length (sources s') = length (sources s) - 1)%nat /\
     (keys_unique (sources s) -> index_of_key (sources s') key = None)).
Proof.
  unfold sr_session_source_remove_internal. split.
  - intros Hn. apply index_of_key_None in Hn.
    apply (source_find_None _ _ 0%nat 0) in Hn. by rewrite Hn.
  - intros i Hi.
    destruct (source_find (sources s) key 0%nat 0) as [[[j f] src]|] eqn:E.
    + apply source_find_spec in E as (k & -> & Hk & -> & Hidx).
      rewrite Hidx in Hi. injection Hi as <-. simpl.
      eexists. split; [reflexivity|]. simpl. unfold g_array_remove_index.
      split; [reflexivity|]. split.
      * rewrite length_delete by eauto. reflexivity.
      * intros Hu. by apply keys_unique_absent_after_delete.
    + apply source_find_None in E. apply index_of_key_None in E. congruence.
Qed.

Lemma remove_missing_or_exactly_one_witness :
  exists s',
    sr_session_source_remove_internal two_io_session 4 = (SR_OK, s') /\
    sources s' = delete 1%nat (sources two_io_session) /\
    (length (sources s') = length (sources two_io_session) - 1)%nat /\
    (keys_unique (sources two_io_session) ->
     index_of_key (sources s') 4 = None).
Proof.
  apply (remove_missing_or_exactly_one two_io_session 4). reflexivity.
Defined.

(** Property X2.  Within the parameter contract ([num_fds] not negative and
    not more than the array given holds, the poll array within the range of
    [int]), [sr_session_source_add_internal] returns SR_OK exactly when the
    callback is not NULL, [num_fds] is 0 if no descriptor array is given,
    and the key is not installed.  The new source is then the last entry of
    the registry, is found under its key, is not triggered, and has
    [timeout = 1000 * timeout_ms], [due = now + timeout] for a timeout that
    is not negative, and [timeout = -1], [due = INT64_MAX] otherwise; the
    first [num_fds] descriptors of the array are the new last entries of the
    poll array. *)
Theorem add_accepts_and_installs s now pfds nfds tmo cb_ cbd key :
  call_in_contract s (CallAdd now pfds nfds tmo cb_ cbd key) = true ->
  let r := sr_session_source_add_internal s now pfds nfds tmo cb_ cbd key in
  (fst r = SR_OK <->
   cb_ <> 0 /\ (pfds = None -> nfds = 0) /\
   index_of_key (sources s) key = None) /\
  (fst r = SR_OK ->
   exists src,
     sources (snd r) = sources s ++ [src] /\
     pollfds (snd r) = pollfds s ++ take (Z.to_nat nfds) (default [] pfds) /\
     Z.of_nat (length (pollfds (snd r)))
     = Z.of_nat (length (pollfds s)) + nfds /\
     index_of_key (sources (snd r)) key = Some (length (sources s)) /\
     poll_object src = key /\ cb src = cb_ /\ cb_data src = cbd /\
     num_fds src = nfds /\ triggered src = false /\
     (0 <= tmo -> timeout src = 1000 * tmo /\ due src = now + 1000 * tmo) /\
     (tmo < 0 -> timeout src = -1 /\ due src = INT64_MAX)).
Proof.
  intros Hc. cbv zeta. unfold sr_session_source_add_internal.
  rewrite index_of_key_None.
  destruct (Z.eqb_spec cb_ 0) as [Hcb|Hcb].
  { simpl. split; [|discriminate]. split; [discriminate | tauto]. }
  destruct ((if pfds is None then true else false) && negb (nfds =? 0)) eqn:Hp.
  { simpl. split; [|discriminate]. split; [discriminate|].
    intros (_ & Hn & _). destruct pfds; [discriminate|].
    rewrite Hn in Hp by reflexivity. discriminate. }
  destruct (source_installed (sources s) key) eqn:Hk.
  { simpl. split; [|discriminate]. split; [discriminate|].
    intros (_ & _ & ?). discriminate. }
  simpl. split.
  - split; [|reflexivity]. intros _. split; [exact Hcb|]. split; [|reflexivity].
    intros ->. simpl in Hp. by destruct (Z.eqb_spec nfds 0).
  - intros _. unfold g_array_append_val. eexists. split; [reflexivity|].
    assert (Hpf : g_array_append_vals (pollfds s) pfds (guint nfds)
                  = pollfds s ++ take (Z.to_nat nfds) (default [] pfds) /\
                  Z.of_nat (length (take (Z.to_nat nfds) (default [] pfds)))
                  = nfds).
    { unfold g_array_append_vals. destruct pfds as [l|]; simpl in *.
      - apply andb_prop in Hc as [Hc Hc3]. apply andb_prop in Hc as [Hc1 Hc2].
        apply Z.leb_le in Hc1, Hc2, Hc3.
        rewrite guint_small by lia. rewrite length_take.
        destruct (Z.eqb_spec nfds 0) as [->|Hn]; [|split; [reflexivity | lia]].
        simpl. rewrite take_0, app_nil_r. by split.
      - destruct (Z.eqb_spec nfds 0) as [->|Hn]; [|discriminate].
        simpl. rewrite app_nil_r. by split. }
    destruct Hpf as [Hpf Hlen].
    split; [exact Hpf|]. split; [rewrite Hpf, length_app; lia|].
    split.
    { unfold index_of_key. apply index_of_key_None in Hk.
      unfold index_of_key in Hk.
      destruct (list_find _ (sources s)) as [[n x]|] eqn:E; [discriminate|].
      rewrite list_find_app_r by exact E. simpl.
      destruct (tmo >=? 0); simpl; rewrite decide_True by reflexivity;
        simpl; f_equal; lia. }
    destruct (Z.geb_spec tmo 0); simpl; repeat split; try reflexivity; lia.
Qed.

Lemma add_accepts_and_installs_witness :
  call_in_contract two_io_session
    (CallAdd 7 (Some [mkPollFD 9 1 0; mkPollFD 10 1 0]) 1 10 5 0 9) = true /\
  fst (sr_session_source_add_internal two_io_session 7
         (Some [mkPollFD 9 1 0; mkPollFD 10 1 0]) 1 10 5 0 9) = SR_OK /\
  pollfds (snd (sr_session_source_add_internal two_io_session 7
                  (Some [mkPollFD 9 1 0; mkPollFD 10 1 0]) 1 10 5 0 9))
  = pollfds two_io_session ++ [mkPollFD 9 1 0].
Proof.
  split; [reflexivity|]. split; [reflexivity|].
  destruct (proj2 (add_accepts_and_installs two_io_session 7
                     (Some [mkPollFD 9 1 0; mkPollFD 10 1 0]) 1 10 5 0 9
                     eq_refl) eq_refl)
    as (src & _ & H & _).
  exact H.
Defined.

Lemma source_find_last srcs src key : forall i f,
  source_installed srcs key = false -> poll_object src = key ->
  source_find (srcs ++ [src]) key i f
  = Some ((i + length srcs)%nat, f + sum_num_fds srcs, src).
Proof.
  induction srcs as [|s srcs IH]; intros i f Hn Hk.
  - simpl. apply Z.eqb_eq in Hk. rewrite Hk.
    change (sum_num_fds []) with 0. by rewrite Nat.add_0_r, Z.add_0_r.
  - simpl in *. destruct (poll_object s =? key); [discriminate|].
    rewrite IH by done.
    change (sum_num_fds (s :: srcs)) with (num_fds s + sum_num_fds srcs).
    replace (S i + length srcs)%nat with (i + S (length srcs))%nat by lia.
    by rewrite Z.add_assoc.
Qed.

(** Property X3.  Round trip.  In a registry whose poll array has as many
    entries as the sources count descriptors, an accepted add followed by the
    removal of the same key gives back the registry and the poll array as they
    were. *)
Theorem add_then_remove_restores s now pfds nfds tmo cb_ cbd key s1 :
  sum_num_fds (sources s) = Z.of_nat (length (pollfds s)) ->
  call_in_contract s (CallAdd now pfds nfds tmo cb_ cbd key) = true ->
  sr_session_source_add_internal s now pfds nfds tmo cb_ cbd key
  = (SR_OK, s1) ->
  exists s2,
    sr_session_source_remove_internal s1 key = (SR_OK, s2) /\
    sources s2 = sources s /\ pollfds s2 = pollfds s.
Proof.
  intros Hsum Hc. unfold sr_session_source_add_internal.
  destruct (cb_ =? 0); [discriminate|].
  destruct ((if pfds is None then true else false) && negb (nfds =? 0)) eqn:Hp;
    [discriminate|].
  destruct (source_installed (sources s) key) eqn:Hk; [discriminate|].
  intros [= <-]. unfold sr_session_source_remove_internal. simpl.
  unfold g_array_append_val.
  set (src := if tmo >=? 0 then _ else _).
  assert (Hsrc : poll_object src = key /\ num_fds src = nfds).
  { unfold src. by destruct (tmo >=? 0). }
  destruct Hsrc as [Hsk Hsn].
  rewrite (source_find_last _ _ _ 0%nat 0 Hk Hsk). simpl.
  eexists. split; [reflexivity|]. simpl. unfold g_array_remove_index.
  split.
  { rewrite delete_take_drop, take_app_length.
    rewrite drop_ge by (rewrite length_app; simpl; lia). by rewrite app_nil_r. }
  rewrite Hsn, Hsum. unfold g_array_append_vals.
  assert (Hn : 0 <= nfds <= INT_MAX /\
               (nfds <> 0 ->
                Z.of_nat (length (pollfds s)) + nfds <= INT_MAX /\
                Z.of_nat (length (take (Z.to_nat nfds) (default [] pfds)))
                = nfds)).
  { simpl in Hc. destruct pfds as [l|]; simpl in *.
    - rewrite length_take. lia.
    - destruct (Z.eqb_spec nfds 0) as [E|E]; [|discriminate].
      rewrite E. unfold INT_MAX. lia. }
  destruct Hn as (Hn0 & Hn2). rewrite Z.add_0_l.
  rewrite !(guint_small nfds) by lia.
  destruct (Z.gtb_spec nfds 0) as [Hgt|Hle].
  - destruct (Z.eqb_spec nfds 0); [lia|].
    destruct (Hn2 ltac:(lia)) as [Hb Hl].
    rewrite guint_small by lia.
    set (new := take (Z.to_nat nfds) (default [] pfds)) in *.
    unfold g_array_remove_range. rewrite length_app.
    destruct (Z.leb_spec (Z.of_nat (length (pollfds s)) + nfds)
                (Z.of_nat (length (pollfds s) + length new))); [|lia].
    rewrite Nat2Z.id, take_app_length.
    rewrite drop_ge by (rewrite length_app; lia). by rewrite app_nil_r.
  - destruct (Z.eqb_spec nfds 0); [reflexivity | lia].
Qed.


Lemma add_then_remove_restores_witness :
  exists s2,
    sr_session_source_remove_internal
      (snd (sr_session_source_add_internal two_io_session 7
              (Some [mkPollFD 5 1 0; mkPollFD 6 1 0]) 2 10 5 0 55)) 55
    = (SR_OK, s2) /\
    sources s2 = sources two_io_session /\
    pollfds s2 = pollfds two_io_session.
Proof.
  apply (add_then_remove_restores two_io_session 7
           (Some [mkPollFD 5 1 0; mkPollFD 6 1 0]) 2 10 5 0 55);
    reflexivity.
Defined.

Lemma public_apply_step c s :
  Z.of_nat (length (pollfds s)) + 1 <= INT_MAX ->
  snd (public_apply c s) = s \/
  exists c', call_in_contract s c' = true /\
             snd (public_apply c s) = snd (registry_apply c' s) /\
             (forall o, registry_inv s o ->
                Z.of_nat (length (pollfds (snd (registry_apply c' s))))
                <= Z.of_nat (length (pollfds s)) + 1).
Proof.
  intros Hb.
  assert (Hrm : forall key o, registry_inv s o ->
     Z.of_nat (length (pollfds (snd (sr_session_source_remove_internal s key))))
     <= Z.of_nat (length (pollfds s)) + 1).
  { intros key o Hinv.
    pose proof (registry_inv_step (CallRemove key) s o Hinv eq_refl)
      as (Hp' & Hf' & _).
    destruct Hinv as (Hp & Hf & _). simpl in Hp'. rewrite Hp', Hp.
    unfold owned_apply. simpl.
    destruct (fst (sr_session_source_remove_internal s key) =? SR_OK); simpl;
      [|lia].
    destruct (index_of_key (sources s) key) as [i|]; [|lia].
    destruct (o !! i) as [fds|] eqn:Ho.
    - destruct (concat_split o i fds Ho) as [E1 E2]. rewrite E1, E2.
      rewrite !length_app. lia.
    - apply lookup_ge_None in Ho.
      rewrite delete_take_drop, take_ge, drop_ge, app_nil_r by lia. lia. }
  assert (Hadd : forall now p n tmo cb_ cbd key,
     (n = 0 \/ n = 1) ->
     exists c', call_in_contract s c' = true /\
       snd (sr_session_source_add_internal s now (Some [p]) n tmo cb_ cbd key)
       = snd (registry_apply c' s) /\
       (forall o, registry_inv s o ->
          Z.of_nat (length (pollfds (snd (registry_apply c' s))))
          <= Z.of_nat (length (pollfds s)) + 1)).
  { intros now p n tmo cb_ cbd key Hn.
    exists (CallAdd now (Some [p]) n tmo cb_ cbd key). split.
    - simpl. destruct Hn as [-> | ->]; simpl;
        repeat (apply andb_true_intro; split); try reflexivity;
        apply Z.leb_le; lia.
    - split; [reflexivity|]. intros o _. simpl.
      unfold sr_session_source_add_internal.
      repeat (case_match; simpl; try lia).
      all: unfold g_array_append_vals; destruct Hn as [-> | ->]; simpl;
        rewrite ?length_app; simpl; lia. }
  destruct c as [now fd_ ev tmo cb_ cbd|now a p tmo cb_ cbd
                |now ch chfd ev tmo cb_ cbd|fd_|a|ch]; simpl.
  - unfold sr_session_source_add.
    destruct ((fd_ <? 0) && (tmo <? 0)); [by left|]. right.
    apply Hadd. destruct (fd_ <? 0); auto.
  - unfold sr_session_source_add_pollfd.
    destruct (a =? 0); [by left|]. right. apply Hadd. auto.
  - unfold sr_session_source_add_channel. right. apply Hadd. auto.
  - right. exists (CallRemove fd_). split; [reflexivity|].
    split; [reflexivity|]. apply Hrm.
  - unfold sr_session_source_remove_pollfd.
    destruct (a =? 0); [by left|]. right. exists (CallRemove a).
    split; [reflexivity|]. split; [reflexivity|]. apply Hrm.
  - unfold sr_session_source_remove_channel.
    destruct (ch =? 0); [by left|]. right. exists (CallRemove ch).
    split; [reflexivity|]. split; [reflexivity|]. apply Hrm.
Qed.

Lemma public_run_inv calls : forall s o,
  registry_inv s o ->
  Z.of_nat (length (pollfds s)) + Z.of_nat (length calls) <= INT_MAX ->
  exists o', registry_inv (public_run calls s) o'.
Proof.
  induction calls as [|c calls IH]; intros s o Hinv Hb; simpl.
  - eauto.
  - simpl in Hb.
    destruct (public_apply_step c s ltac:(lia)) as [Hs | (c' & Hc & -> & Hl)].
    + fold (public_run calls (snd (public_apply c s))). rewrite Hs.
      apply (IH s o Hinv). lia.
    + fold (public_run calls (snd (registry_apply c' s))).
      apply (IH _ (owned_apply c' s o)).
      * by apply registry_inv_step.
      * specialize (Hl o Hinv). lia.
Qed.

Lemma public_apply_small c s :
  Forall (fun src => num_fds src = 0 \/ num_fds src = 1) (sources s) ->
  Forall (fun src => num_fds src = 0 \/ num_fds src = 1)
    (sources (snd (public_apply c s))).
Proof.
  intros Hs.
  assert (Hrm : forall key,
    Forall (fun src => num_fds src = 0 \/ num_fds src = 1)
      (sources (snd (sr_session_source_remove_internal s key)))).
  { intros key. unfold sr_session_source_remove_internal.
    destruct (source_find _ _ _ _) as [[[i f] src]|]; [|exact Hs].
    simpl. by apply Forall_delete. }
  assert (Hadd : forall now pfds n tmo cb_ cbd key,
    n = 0 \/ n = 1 ->
    Forall (fun src => num_fds src = 0 \/ num_fds src = 1)
      (sources (snd (sr_session_source_add_internal s now pfds n tmo cb_ cbd
                       key)))).
  { intros now pfds n tmo cb_ cbd key Hn.
    unfold sr_session_source_add_internal.
    destruct (cb_ =? 0); [exact Hs|].
    destruct (_ && _); [exact Hs|].
    destruct (source_installed (sources s) key); [exact Hs|].
    simpl. unfold g_array_append_val. apply Forall_app. split; [exact Hs|].
    apply Forall_singleton. by destruct (tmo >=? 0). }
  destruct c as [now fd_ ev tmo cb_ cbd|now a p tmo cb_ cbd
                |now ch chfd ev tmo cb_ cbd|fd_|a|ch]; simpl.
  - unfold sr_session_source_add.
    destruct ((fd_ <? 0) && (tmo <? 0)); [exact Hs|].
    apply Hadd. destruct (fd_ <? 0); auto.
  - unfold sr_session_source_add_pollfd.
    destruct (a =? 0); [exact Hs|]. apply Hadd. auto.
  - unfold sr_session_source_add_channel. apply Hadd. auto.
  - apply Hrm.
  - unfold sr_session_source_remove_pollfd.
    destruct (a =? 0); [exact Hs | apply Hrm].
  - unfold sr_session_source_remove_channel.
    destruct (ch =? 0); [exact Hs | apply Hrm].
Qed.

Lemma public_run_small calls : forall s,
  Forall (fun src => num_fds src = 0 \/ num_fds src = 1) (sources s) ->
  Forall (fun src => num_fds src = 0 \/ num_fds src = 1)
    (sources (public_run calls s)).
Proof.
  induction calls as [|c calls IH]; intros s Hs; [exact Hs|].
  apply (IH (snd (public_apply c s))). by apply public_apply_small.
Qed.

(** Property X4.  The public entry points need no contract: after any sequence
    of calls of [sr_session_source_add], [_add_pollfd], [_add_channel],
    [_remove], [_remove_pollfd] and [_remove_channel] on a new session, with
    any arguments, the poll array has as many entries as the sources count
    descriptors, and every source counts 0 or 1. *)
Theorem public_calls_keep_lockstep c0 calls :
  Z.of_nat (length calls) <= INT_MAX ->
  let s := public_run calls (sr_session_new c0) in
  sum_num_fds (sources s) = Z.of_nat (length (pollfds s)) /\
  Forall (fun src => num_fds src = 0 \/ num_fds src = 1) (sources s).
Proof.
  intros Hb s.
  destruct (public_run_inv calls (sr_session_new c0) []
              (registry_inv_new c0) ltac:(simpl; lia)) as (o & Hp & Hf & _).
  fold s in Hp, Hf. split.
  - rewrite Hp. by apply sum_num_fds_concat.
  - apply public_run_small. constructor.
Qed.

Lemma public_calls_keep_lockstep_witness :
  Z.of_nat (length [PubAdd 0 3 1 100 1 0; PubAdd 0 (-1) 0 10 1 0;
                    PubRemove 3]) <= INT_MAX /\
  sum_num_fds
    (sources (public_run [PubAdd 0 3 1 100 1 0; PubAdd 0 (-1) 0 10 1 0;
                          PubRemove 3] (sr_session_new (mkContext 77 false))))
  = Z.of_nat
      (length (pollfds (public_run [PubAdd 0 3 1 100 1 0;
                                    PubAdd 0 (-1) 0 10 1 0; PubRemove 3]
                          (sr_session_new (mkContext 77 false))))).
Proof.
  split; [compute_done|].
  apply (public_calls_keep_lockstep (mkContext 77 false)
           [PubAdd 0 3 1 100 1 0; PubAdd 0 (-1) 0 10 1 0; PubRemove 3]).
  compute_done.
Defined.

(** ** Invariants of the registry under every API call

    A property of the list of sources that survives the four ways in which
    session.c changes that list (append by an accepted add, deletion by a
    remove, the update of a fired source, the clearing of the flags) holds
    in every session that API calls produce from a new session. *)

Section SourcesInvariant.
Context (I : list source -> Prop).
Hypothesis I_append : forall srcs src,
  I srcs -> source_installed srcs (poll_object src) = false ->
  cb src <> 0 -> triggered src = false -> timer_shape src ->
  I (srcs ++ [src]).
Hypothesis I_delete : forall srcs i, I srcs -> I (delete i srcs).
Hypothesis I_fire : forall srcs i src t,
  I srcs -> srcs !! i = Some src -> I (<[i := fire_source src t]> srcs).
Hypothesis I_clear : forall srcs, I srcs -> I (clear_triggered <$> srcs).

Lemma inv_add s now pfds nfds tmo cb_ cbd key :
  I (sources s) ->
  I (sources (snd (sr_session_source_add_internal s now pfds nfds tmo cb_
                     cbd key))).
Proof.
  intros Hi. unfold sr_session_source_add_internal.
  destruct (Z.eqb_spec cb_ 0); [exact Hi|].
  destruct (_ && _); [exact Hi|].
  destruct (source_installed (sources s) key) eqn:Hk; [exact Hi|].
  simpl. unfold g_array_append_val.
  destruct (Z.geb_spec tmo 0); apply I_append; simpl; try done.
  - right. simpl. lia.
  - by left.
Qed.

Lemma inv_remove s key :
  I (sources s) -> I (sources (snd (sr_session_source_remove_internal s key))).
Proof.
  intros Hi. unfold sr_session_source_remove_internal.
  destruct (source_find _ _ _ _) as [[[i f] src]|]; [|exact Hi].
  simpl. by apply I_delete.
Qed.

Lemma inv_exec_prog {R} (p : prog R) : forall s,
  I (sources s) -> I (sources (snd (exec_prog p s))).
Proof.
  induction p as [r|now pfds nfds tmo cb_ cbd key k IH|key k IH|k IH];
    intros s Hi; simpl.
  - exact Hi.
  - pose proof (inv_add s now pfds nfds tmo cb_ cbd key Hi) as He.
    destruct (sr_session_source_add_internal _ _ _ _ _ _ _ _) as [r s1].
    by apply IH.
  - pose proof (inv_remove s key Hi) as He.
    destruct (sr_session_source_remove_internal _ _) as [r s1]. by apply IH.
  - by apply IH.
Qed.

Lemma inv_stop_devs U l : forall s w,
  I (sources s) -> I (sources (fst (stop_devs U l s w))).
Proof.
  induction l as [|sdi l IH]; intros s w Hi; simpl; [exact Hi|].
  destruct (driver sdi) as [d|]; [|by apply IH].
  destruct (dev_acquisition_stop d =? 0); [by apply IH|].
  pose proof (inv_exec_prog
    (acquisition_stop U (dev_acquisition_stop d) sdi w) s Hi) as He.
  destruct (exec_prog _ s) as [w' s1]. by apply IH.
Qed.

Lemma inv_stop_sync U s w :
  I (sources s) ->
  I (sources (snd (fst (sr_session_stop_sync U s w)))).
Proof.
  intros Hi. unfold sr_session_stop_sync.
  pose proof (inv_stop_devs U (devs s) s w Hi) as He.
  by destruct (stop_devs U (devs s) s w).
Qed.

Lemma inv_check_aborted U s w :
  I (sources s) ->
  I (sources (snd (fst (sr_session_check_aborted U s w)))).
Proof.
  intros Hi. unfold sr_session_check_aborted.
  destruct (abort_session s); [|exact Hi].
  pose proof (inv_stop_sync U s w Hi) as He.
  by destruct (sr_session_stop_sync U s w) as [[[? ?] ?] ?].
Qed.

Lemma inv_dispatch U e usb_due fuel : forall i fd_index (st : loop_state U),
  I (sources (ls_session st)) ->
  I (sources (ls_session (snd (dispatch U e usb_due fuel i fd_index st)))).
Proof.
  induction fuel as [|fuel IH]; intros i fd_index st Hi; simpl; [exact Hi|].
  destruct (sources (ls_session st) !! i) as [src|] eqn:Hs; [|exact Hi].
  destruct (scan_pollfds _ _ _ _) as [fd0 rev0].
  destruct (triggered src); [by apply IH|].
  destruct ((poll_ret e >? 0) && (rev0 =? 0)); [by apply IH|].
  match goal with |- context [if ?c then dispatch _ _ _ _ _ _ _ else _] =>
    destruct c end; [by apply IH|].
  match goal with |- context [exec_prog ?p ?s1] =>
    assert (H1 : I (sources s1)) by (simpl; by apply I_fire);
    pose proof (inv_exec_prog p s1 H1) as H2;
    destruct (exec_prog p s1) as [[b w1] s2] end.
  simpl in H2.
  set (s3 := if b then s2 else _).
  assert (H3 : I (sources s3)).
  { unfold s3. destruct b; [exact H2 | by apply inv_remove]. }
  pose proof (inv_check_aborted U s3 w1 H3) as H4.
  destruct (ls_stopped st).
  - by apply IH.
  - destruct (sr_session_check_aborted U s3 w1) as [[[sp lg] s4] w2].
    by apply IH.
Qed.

Lemma inv_iteration U fuel e s w :
  I (sources s) ->
  I (sources (snd (fst (sr_session_iteration U fuel e s w)))).
Proof.
  intros Hi. unfold sr_session_iteration.
  destruct (length (sources s) =? 0)%nat.
  { pose proof (inv_check_aborted U s w Hi) as He.
    by destruct (sr_session_check_aborted U s w) as [[[? ?] ?] ?]. }
  cbn [ctx set_registry].
  destruct (usb_source_present (ctx s) && (usb_ret e <? 0));
    [simpl; by apply I_clear|].
  set (s1 := if poll_ret e <? 0 then _ else _).
  assert (H1 : I (sources s1)).
  { unfold s1. destruct (poll_ret e <? 0); simpl; by apply I_clear. }
  destruct ((poll_ret e <? 0) && negb (poll_eintr e)); [exact H1|].
  match goal with |- context [dispatch U e ?ud fuel 0%nat 0 ?st0] =>
    pose proof (inv_dispatch U e ud fuel 0%nat 0 st0 H1) as Hd;
    destruct (dispatch U e ud fuel 0%nat 0 st0) as [finished st] end.
  simpl in Hd. destruct finished; simpl; [|exact Hd].
  destruct (ls_triggered st); [exact Hd|].
  pose proof (inv_check_aborted U _ (ls_world st) Hd) as He.
  by destruct (sr_session_check_aborted U _ _) as [[[? ?] ?] ?].
Qed.

Lemma inv_run_loop U script : forall s w,
  I (sources s) -> I (sources (snd (fst (run_loop U script s w)))).
Proof.
  induction script as [|[fuel e] script IH]; intros s w Hi; simpl.
  - by destruct (length (sources s) =? 0)%nat.
  - destruct (length (sources s) =? 0)%nat; [exact Hi|].
    pose proof (inv_iteration U fuel e s w Hi) as H1.
    destruct (sr_session_iteration U fuel e s w) as [[[r lg] s1] w1].
    simpl in H1. destruct r as [r|]; [|exact H1].
    destruct (negb (r =? SR_OK)); [exact H1|].
    specialize (IH s1 w1 H1).
    by destruct (run_loop U script s1 w1) as [[[? ?] ?] ?].
Qed.

Lemma inv_start_devs U l : forall s w ret s' w',
  I (sources s) -> start_devs U l s w = Some (ret, s', w') -> I (sources s').
Proof.
  induction l as [|sdi l IH]; intros s w ret s' w' Hi; simpl.
  - by intros [= <- <- <-].
  - destruct (negb (existsb _ _)).
    { destruct (driver sdi); [by intros [= <- <- <-] | discriminate]. }
    destruct (config_commit U sdi w) as [r w1].
    destruct (negb (r =? SR_OK)); [by intros [= <- <- <-]|].
    destruct (driver sdi) as [d|]; [|discriminate].
    destruct (dev_acquisition_start d =? 0); [discriminate|].
    pose proof (inv_exec_prog
      (acquisition_start U (dev_acquisition_start d) sdi w1) s Hi) as He.
    destruct (exec_prog _ s) as [[r2 w2] s2]. simpl in He.
    destruct (negb (r2 =? SR_OK)); [by intros [= <- <- <-]|].
    by apply IH.
Qed.

Lemma inv_api_apply U c s w log s' w' :
  I (sources s) -> api_apply U c s w = Some (log, s', w') -> I (sources s').
Proof.
  intros Hi. destruct c as [sdi| | |script| | |p]; simpl.
  - unfold sr_session_dev_add.
    destruct sdi as [sdi|]; [|by intros [= <- <- <-]].
    destruct (sdi_session sdi); [by intros [= <- <- <-]|].
    destruct (driver sdi) as [d|]; [|by intros [= <- <- <-]].
    destruct (dev_open d =? 0); [by intros [= <- <- <-]|].
    cbn [running set_devs].
    destruct (running s); [|by intros [= <- <- <-]].
    destruct (config_commit U (attach sdi) w) as [r w1].
    destruct (negb (r =? SR_OK)); [by intros [= <- <- <-]|].
    destruct (dev_acquisition_start d =? 0); [discriminate|].
    match goal with |- context [exec_prog ?p ?s0] =>
      pose proof (inv_exec_prog p s0 Hi) as He;
      destruct (exec_prog p s0) as [[r2 w2] s2] end.
    by intros [= <- <- <-].
  - by intros [= <- <- <-].
  - unfold sr_session_start.
    destruct (length (devs s) =? 0)%nat; [by intros [= <- <- <-]|].
    destruct (if trigger s is Some t then _ else false);
      [by intros [= <- <- <-]|].
    destruct (start_devs U (devs s) s w) as [[[r s1] w1]|] eqn:Hs;
      [|discriminate].
    apply inv_start_devs in Hs; [|exact Hi]. by intros [= <- <- <-].
  - unfold sr_session_run.
    destruct (length (devs s) =? 0)%nat; [by intros [= <- <- <-]|].
    pose proof (inv_run_loop U script (set_running s true) w Hi) as Hl.
    destruct (run_loop U script (set_running s true) w) as [[[r lg] s1] w1].
    by intros [= <- <- <-].
  - by intros [= <- <- <-].
  - pose proof (inv_stop_sync U s w Hi) as He.
    destruct (sr_session_stop_sync U s w) as [[[r lg] s1] w1].
    by intros [= <- <- <-].
  - pose proof (inv_exec_prog (p w) s Hi) as He.
    destruct (exec_prog (p w) s) as [w1 s1]. by intros [= <- <- <-].
Qed.

Lemma inv_api_run U calls : forall s w log s' w',
  I (sources s) -> api_run U calls s w = Some (log, s', w') -> I (sources s').
Proof.
  induction calls as [|c calls IH]; intros s w log s' w' Hi; simpl.
  - by intros [= <- <- <-].
  - destruct (api_apply U c s w) as [[[lg s1] w1]|] eqn:Ha; [|discriminate].
    apply inv_api_apply in Ha; [|exact Hi].
    destruct (api_run U calls s1 w1) as [[[lg' s2] w2]|] eqn:Hr;
      [|discriminate].
    intros [= <- <- <-]. eapply IH; eauto.
Qed.

End SourcesInvariant.

Lemma source_installed_false srcs key :
  source_installed srcs key = false -> key ∉ poll_object <$> srcs.
Proof.
  intros Hn Hin. apply list_elem_of_fmap in Hin as (src & Hk & Hin).
  assert (source_installed srcs key = true); [|congruence].
  apply source_installed_spec. eauto.
Qed.

(** Property X5.  In every session that API calls produce from a new session,
    with any callbacks and drivers, no two sources have the same
    [poll_object]. *)
Theorem reachable_keys_unique U calls c0 w0 log s w :
  api_run U calls (sr_session_new c0) w0 = Some (log, s, w) ->
  keys_unique (sources s).
Proof.
  apply (inv_api_run keys_unique); unfold keys_unique.
  - intros srcs src Hn Hk _ _ _. rewrite fmap_app. simpl.
    apply NoDup_app. split; [exact Hn|]. split; [|apply NoDup_singleton].
    intros x Hx Hx'. apply list_elem_of_singleton in Hx'. subst x.
    by apply source_installed_false in Hk.
  - intros srcs i Hn. eapply sublist_NoDup; [exact Hn|].
    apply fmap_sublist, sublist_delete.
  - intros srcs i src t Hn Hs. rewrite list_fmap_insert. simpl.
    rewrite list_insert_id; [exact Hn|]. by rewrite list_lookup_fmap, Hs.
  - intros srcs Hn. by rewrite <- list_fmap_compose.
  - simpl. constructor.
Qed.

Lemma reachable_keys_unique_witness :
  exists log s w,
    api_run quiet_code
      [ApiDevAdd (Some demo_dev);
       ApiProg (fun w => SourceAdd 0 None 0 10 1 0 (-1) (fun _ =>
                         SourceAdd 0 None 0 20 1 0 (-1) (fun _ => Ret w)))]
      (sr_session_new (mkContext 77 false)) tt = Some (log, s, w) /\
    keys_unique (sources s).
Proof.
  eexists _, _, _. split; [reflexivity|].
  eapply (reachable_keys_unique quiet_code
            [ApiDevAdd (Some demo_dev);
             ApiProg (fun w => SourceAdd 0 None 0 10 1 0 (-1) (fun _ =>
                               SourceAdd 0 None 0 20 1 0 (-1) (fun _ => Ret w)))]
            (mkContext 77 false) tt).
  reflexivity.
Defined.

(** Property X6.  In every session that API calls produce from a new session,
    every source has a callback that is not NULL, and either no timeout and no
    deadline ([timeout = -1], [due = INT64_MAX]) or a timeout that is not
    negative. *)
Theorem reachable_sources_well_formed U calls c0 w0 log s w :
  api_run U calls (sr_session_new c0) w0 = Some (log, s, w) ->
  Forall (fun src => cb src <> 0 /\ timer_shape src) (sources s).
Proof.
  apply (inv_api_run (Forall (fun src => cb src <> 0 /\ timer_shape src))).
  - intros srcs src Ha _ Hcb _ Hsh. apply Forall_app. split; [exact Ha|].
    by apply Forall_singleton.
  - intros srcs i Ha. by apply Forall_delete.
  - intros srcs i src t Ha Hs. apply Forall_insert; [exact Ha|].
    pose proof (Forall_lookup_1 _ _ _ _ Ha Hs) as [Hc Hsh].
    unfold fire_source. destruct (Z.geb_spec (timeout src) 0); simpl.
    + split; [exact Hc|]. right. simpl. lia.
    + by split.
  - intros srcs Ha. apply Forall_fmap. eapply Forall_impl; [exact Ha|].
    by intros src [Hc Hsh].
  - simpl. constructor.
Qed.

Lemma reachable_sources_well_formed_witness :
  exists log s w,
    api_run quiet_code
      [ApiDevAdd (Some demo_dev);
       ApiProg (fun w => SourceAdd 0 None 0 10 1 0 (-1) (fun _ =>
                         SourceAdd 0 None 0 (-1) 1 0 5 (fun _ => Ret w)))]
      (sr_session_new (mkContext 77 false)) tt = Some (log, s, w) /\
    Forall (fun src => cb src <> 0 /\ timer_shape src) (sources s).
Proof.
  eexists _, _, _. split; [reflexivity|].
  eapply (reachable_sources_well_formed quiet_code
            [ApiDevAdd (Some demo_dev);
             ApiProg (fun w => SourceAdd 0 None 0 10 1 0 (-1) (fun _ =>
                               SourceAdd 0 None 0 (-1) 1 0 5 (fun _ => Ret w)))]
            (mkContext 77 false) tt).
  reflexivity.
Defined.

(** ** The poll call of an iteration *)







(** ** Deadlines *)

(** The dispatch loop passes over a source whose deadline lies ahead when
    [g_poll] has reported no event. *)
Lemma dispatch_skips_quiet U e usb_due fuel :
  forall i fd_index (st : loop_state U),
  poll_ret e <= 0 ->
  Forall (fun src => triggered src = false ->
            stop_time e < effective_due (ctx (ls_session st)) usb_due src)
    (drop i (sources (ls_session st))) ->
  snd (dispatch U e usb_due fuel i fd_index st) = st /\
  ((length (sources (ls_session st)) - i < fuel)%nat ->
   fst (dispatch U e usb_due fuel i fd_index st) = true).
Proof.
  induction fuel as [|fuel IH]; intros i fd_index st Hp Hq; simpl.
  { split; [reflexivity | lia]. }
  destruct (sources (ls_session st) !! i) as [src|] eqn:Hi;
    [|split; reflexivity].
  pose proof (lookup_lt_Some _ _ _ Hi) as Hlt.
  rewrite (drop_S _ _ _ Hi) in Hq. apply Forall_cons in Hq as [Hsrc Hq].
  destruct (scan_pollfds _ _ _ _) as [fd0 rev0].
  assert (Hnext : forall f,
    snd (dispatch U e usb_due fuel (S i) f st) = st /\
    ((length (sources (ls_session st)) - i < S fuel)%nat ->
     fst (dispatch U e usb_due fuel (S i) f st) = true)).
  { intros f. destruct (IH (S i) f st Hp Hq) as [H1 H2].
    split; [exact H1|]. intros Hf. apply H2. lia. }
  destruct (triggered src); [apply Hnext|].
  destruct (Z.gtb_spec (poll_ret e) 0); [lia|]. simpl.
  destruct (Z.leb_spec (poll_ret e) 0); [|lia].
  unfold effective_due in Hsrc. specialize (Hsrc eq_refl).
  apply Z.ltb_lt in Hsrc. rewrite Hsrc. simpl. apply Hnext.
Qed.

(** Property X8.  Nothing fires early.  When [g_poll] reports no event (a
    timeout, or an interruption) and the clock read after it is before the
    deadline that the loop applies to each source, the iteration invokes no
    callback; unless a stop was requested, all it does to the registry is to
    clear the [triggered] flags. *)
Theorem no_callback_before_deadline U fuel e s w ret log s' w' :
  poll_ret e <= 0 ->
  Forall (fun src =>
            stop_time e < effective_due (ctx s) (usb_due_of (ctx s) e) src)
    (sources s) ->
  sr_session_iteration U fuel e s w = (ret, log, s', w') ->
  Forall (fun ev => is_callback ev = false) log /\
  (abort_session s = false ->
   sources s' = clear_triggered <$> sources s /\ w' = w).
Proof.
  intros Hp Hq. unfold sr_session_iteration.
  assert (Hca : forall s0 w0 sp lg s4 w4,
    sr_session_check_aborted U s0 w0 = (sp, lg, s4, w4) ->
    Forall (fun ev => is_callback ev = false) lg /\
    (abort_session s0 = false -> s4 = s0 /\ w4 = w0)).
  { intros s0 w0 sp lg s4 w4 Hc.
    pose proof (check_aborted_log U s0 w0) as Hl. rewrite Hc in Hl.
    simpl in Hl. split; [destruct Hl as [-> | ->]; repeat constructor|].
    intros Ha. unfold sr_session_check_aborted in Hc. rewrite Ha in Hc.
    by injection Hc as _ _ <- <-. }
  destruct (length (sources s) =? 0)%nat eqn:Hlen.
  { destruct (sr_session_check_aborted U s w) as [[[sp lg] s4] w4] eqn:Hc.
    intros [= <- <- <- <-]. destruct (Hca _ _ _ _ _ _ Hc) as [H1 H2].
    split; [exact H1|]. intros Ha. destruct (H2 Ha) as [-> ->].
    apply Nat.eqb_eq, nil_length_inv in Hlen. by rewrite Hlen. }
  cbn [ctx set_registry].
  destruct (usb_source_present (ctx s) && (usb_ret e <? 0)).
  { intros [= <- <- <- <-]. split; [constructor | done]. }
  set (s1 := if poll_ret e <? 0 then _ else _).
  assert (Hs1 : sources s1 = clear_triggered <$> sources s /\
                ctx s1 = ctx s /\ abort_session s1 = abort_session s).
  { unfold s1. by destruct (poll_ret e <? 0). }
  destruct Hs1 as (Hsrc1 & Hctx1 & Hab1).
  destruct ((poll_ret e <? 0) && negb (poll_eintr e)).
  { intros [= <- <- <- <-]. split; [by repeat constructor | done]. }
  match goal with |- context [dispatch U e ?ud fuel 0%nat 0 ?st0] =>
    destruct (dispatch_skips_quiet U e ud fuel 0%nat 0 st0 Hp) as [Hst _];
    [|destruct (dispatch U e ud fuel 0%nat 0 st0) as [finished st]] end.
  { cbn [ls_session]. rewrite drop_0, Hsrc1, Hctx1. apply Forall_fmap.
    eapply Forall_impl; [exact Hq|]. intros src Hsrc _. exact Hsrc. }
  simpl in Hst. subst st. cbn [ls_triggered ls_log ls_session ls_world].
  destruct finished; simpl.
  - destruct (sr_session_check_aborted U s1 w) as [[[sp lg] s4] w4] eqn:Hc.
    intros [= <- <- <- <-]. destruct (Hca _ _ _ _ _ _ Hc) as [H1 H2].
    split; [by constructor|]. rewrite Hab1 in H2. intros Ha.
    by destruct (H2 Ha) as [-> ->].
  - intros [= <- <- <- <-]. split; [by repeat constructor | done].
Qed.

Lemma no_callback_before_deadline_witness :
  poll_ret (mkIterEnv 0 0 0 0 0 false [] 50) <= 0 /\
  Forall (fun ev => is_callback ev = false)
    (snd (fst (fst (sr_session_iteration quiet_code 5
                      (mkIterEnv 0 0 0 0 0 false [] 50)
                      (snd (sr_session_source_add_internal two_io_session 0
                              None 0 10 1 0 (-1))) tt)))).
Proof.
  split; [simpl; lia|].
  refine (proj1 (no_callback_before_deadline quiet_code 5
            (mkIterEnv 0 0 0 0 0 false [] 50)
            (snd (sr_session_source_add_internal two_io_session 0
                    None 0 10 1 0 (-1))) tt _ _ _ _ _ _ eq_refl)).
  - simpl. lia.
  - vm_compute. repeat constructor.
Defined.

Lemma dispatch_fires_overdue U e usb_due pre src rest fuel :
  forall i fd_index (st : loop_state U),
  poll_ret e <= 0 ->
  sources (ls_session st) = pre ++ src :: rest ->
  (i <= length pre)%nat ->
  Forall (fun x => triggered x = false ->
            stop_time e < effective_due (ctx (ls_session st)) usb_due x)
    pre ->
  triggered src = false ->
  effective_due (ctx (ls_session st)) usb_due src <= stop_time e ->
  (length pre - i < fuel)%nat ->
  exists fd1 l,
    ls_log (snd (dispatch U e usb_due fuel i fd_index st))
    = ls_log st
      ++ EvCallback (length pre) fd1 0
           (fired_session e (ls_session st) (length pre) src) :: l.
Proof.
  induction fuel as [|fuel IH]; intros i fd_index st Hp Hs Hi Hq Ht Hd Hf;
    [lia|].
  simpl. rewrite Hs.
  destruct (decide (i = length pre)) as [->|Hne].
  - rewrite list_lookup_middle by reflexivity.
    destruct (scan_pollfds _ _ _ _) as [fd0 rev0]. rewrite Ht.
    destruct (Z.gtb_spec (poll_ret e) 0); [lia|]. simpl.
    destruct (Z.leb_spec (poll_ret e) 0); [|lia].
    unfold effective_due in Hd. apply Z.ltb_ge in Hd. rewrite Hd. simpl.
    rewrite <- Hs. fold (fired_session e (ls_session st) (length pre) src).
    destruct (exec_prog _ _) as [[b w1] s2].
    destruct (if ls_stopped st then _ else _) as [[[sp lg] s4] w4].
    match goal with |- context [dispatch U e usb_due fuel 1%nat 0 ?st1] =>
      destruct (dispatch_log_extends U e usb_due fuel 1%nat 0 st1) as [l ->]
    end.
    cbn [ls_log]. eexists _, _. rewrite <- !app_assoc. reflexivity.
  - assert (Hlt : (i < length pre)%nat) by lia.
    destruct (lookup_lt_is_Some_2 pre i Hlt) as [x Hx].
    rewrite lookup_app_l, Hx by exact Hlt.
    pose proof (Forall_lookup_1 _ _ _ _ Hq Hx) as Hxq. simpl in Hxq.
    destruct (scan_pollfds _ _ _ _) as [fd0 rev0].
    assert (Hnext : forall f, exists fd1 l,
      ls_log (snd (dispatch U e usb_due fuel (S i) f st))
      = ls_log st
        ++ EvCallback (length pre) fd1 0
             (fired_session e (ls_session st) (length pre) src) :: l).
    { intros f. apply IH; try done; lia. }
    destruct (triggered x); [apply Hnext|].
    destruct (Z.gtb_spec (poll_ret e) 0); [lia|]. simpl.
    destruct (Z.leb_spec (poll_ret e) 0); [|lia].
    unfold effective_due in Hxq. specialize (Hxq eq_refl).
    apply Z.ltb_lt in Hxq. rewrite Hxq. simpl. apply Hnext.
Qed.

(** Property X9.  Timers.  When [g_poll] reports no event, the first source of
    the registry whose deadline has passed is the first one whose callback is
    invoked, with event mask 0.  At the call its [triggered] flag is set, and
    its deadline has been moved to the clock reading plus its timeout if it
    has a timeout, and is unchanged otherwise. *)
Theorem first_overdue_source_fires U fuel e s w pre src rest ret log s' w' :
  sources s = pre ++ src :: rest ->
  (usb_source_present (ctx s) && (usb_ret e <? 0)) = false ->
  poll_ret e = 0 \/ (poll_ret e < 0 /\ poll_eintr e = true) ->
  Forall (fun x =>
            stop_time e < effective_due (ctx s) (usb_due_of (ctx s) e) x)
    pre ->
  effective_due (ctx s) (usb_due_of (ctx s) e) src <= stop_time e ->
  (length pre < fuel)%nat ->
  sr_session_iteration U fuel e s w = (ret, log, s', w') ->
  exists fd1 at_call src',
    first_callback log = Some (EvCallback (length pre) fd1 0 at_call) /\
    sources at_call !! length pre = Some src' /\
    triggered src' = true /\
    cb src' = cb src /\ poll_object src' = poll_object src /\
    timeout src' = timeout src /\
    (0 <= timeout src -> due src' = stop_time e + timeout src) /\
    (timeout src < 0 -> due src' = due src).
Proof.
  intros Hs Husb Hp Hq Hd Hf. unfold sr_session_iteration.
  rewrite Hs at 1. rewrite length_app. simpl.
  replace (length pre + S (length rest))%nat
    with (S (length pre + length rest)) by lia.
  cbn [Nat.eqb ctx set_registry]. rewrite Husb.
  set (s1 := if poll_ret e <? 0 then _ else _).
  assert (Hs1 : sources s1 = clear_triggered <$> sources s /\
                ctx s1 = ctx s).
  { unfold s1. by destruct (poll_ret e <? 0). }
  destruct Hs1 as (Hsrc1 & Hctx1).
  assert (Hpe : (poll_ret e <? 0) && negb (poll_eintr e) = false).
  { destruct Hp as [-> | [_ ->]]; [reflexivity | apply andb_false_r]. }
  rewrite Hpe.
  rewrite Hs, fmap_app, fmap_cons in Hsrc1.
  match goal with |- context [dispatch U e ?ud fuel 0%nat 0 ?st0] =>
    destruct (dispatch_fires_overdue U e ud (clear_triggered <$> pre)
                (clear_triggered src) (clear_triggered <$> rest) fuel 0%nat 0
                st0) as (fd1 & l & Hl);
    [| | | | | | |destruct (dispatch U e ud fuel 0%nat 0 st0)
                    as [finished st]] end.
  { lia. }
  { exact Hsrc1. }
  { lia. }
  { cbn [ls_session]. rewrite Hctx1. apply Forall_fmap.
    eapply Forall_impl; [exact Hq|]. intros x Hx _. exact Hx. }
  { reflexivity. }
  { cbn [ls_session]. rewrite Hctx1. exact Hd. }
  { rewrite length_fmap. lia. }
  cbn [snd ls_log ls_session] in Hl. rewrite length_fmap in Hl.
  assert (Hfc : forall lg,
    first_callback (ls_log st ++ lg)
    = Some (EvCallback (length pre) fd1 0
              (fired_session e s1 (length pre) (clear_triggered src)))).
  { intros lg. rewrite Hl. reflexivity. }
  assert (Hres : forall lg, exists fd1 at_call src',
    first_callback (ls_log st ++ lg)
    = Some (EvCallback (length pre) fd1 0 at_call) /\
    sources at_call !! length pre = Some src' /\
    triggered src' = true /\
    cb src' = cb src /\ poll_object src' = poll_object src /\
    timeout src' = timeout src /\
    (0 <= timeout src -> due src' = stop_time e + timeout src) /\
    (timeout src < 0 -> due src' = due src)).
  { intros lg. eexists _, _, _. split; [apply Hfc|]. split.
    { unfold fired_session. cbn [sources set_registry]. rewrite Hsrc1.
      apply list_lookup_insert_eq.
      rewrite length_app, length_fmap. simpl. lia. }
    simpl. repeat split.
    - intros Ht. destruct (Z.geb_spec (timeout src) 0); [reflexivity | lia].
    - intros Ht. destruct (Z.geb_spec (timeout src) 0); [lia | reflexivity]. }
  destruct finished; simpl.
  - destruct (ls_triggered st).
    + intros [= <- <- <- <-]. specialize (Hres []).
      by rewrite app_nil_r in Hres.
    + destruct (sr_session_check_aborted U _ _) as [[[sp lg] s4] w4].
      intros [= <- <- <- <-]. apply Hres.
  - intros [= <- <- <- <-]. specialize (Hres []).
    by rewrite app_nil_r in Hres.
Qed.

Lemma first_overdue_source_fires_witness :
  exists fd1 at_call src',
    first_callback
      (snd (fst (fst (sr_session_iteration quiet_code 5
                        (mkIterEnv 0 0 0 0 0 false [] 50)
                        (snd (sr_session_source_add_internal two_io_session 0
                                None 0 0 1 0 (-1))) tt))))
    = Some (EvCallback 2 fd1 0 at_call) /\
    sources at_call !! 2%nat = Some src' /\
    triggered src' = true /\ due src' = 50.
Proof.
  edestruct (first_overdue_source_fires quiet_code 5
               (mkIterEnv 0 0 0 0 0 false [] 50)
               (snd (sr_session_source_add_internal two_io_session 0
                       None 0 0 1 0 (-1))) tt
               (sources two_io_session)
               (mkSource 0 0 1 0 (-1) 0 false 2) [])
    as (fd1 & at_call & src' & H1 & H2 & H3 & _ & _ & _ & H4 & _);
    [reflexivity | reflexivity | left; reflexivity
    | vm_compute; repeat constructor | vm_compute; discriminate
    | simpl; lia | reflexivity |].
  exists fd1, at_call, src'. split; [exact H1|]. split; [exact H2|].
  split; [exact H3|]. apply H4. simpl. lia.
Defined.

(** ** Stop requests *)

Lemma abort_add s now pfds nfds tmo cb_ cbd key :
  abort_session
    (snd (sr_session_source_add_internal s now pfds nfds tmo cb_ cbd key))
  = abort_session s.
Proof.
  unfold sr_session_source_add_internal. by repeat case_match.
Qed.

Lemma abort_remove s key :
  abort_session (snd (sr_session_source_remove_internal s key))
  = abort_session s.
Proof.
  unfold sr_session_source_remove_internal. by repeat case_match.
Qed.

(** Code of the caller can set the stop flag and cannot clear it. *)
Lemma abort_exec_prog {R} (p : prog R) : forall s,
  abort_session s = true -> abort_session (snd (exec_prog p s)) = true.
Proof.
  induction p as [r|now pfds nfds tmo cb_ cbd key k IH|key k IH|k IH];
    intros s Ha; simpl.
  - exact Ha.
  - pose proof (abort_add s now pfds nfds tmo cb_ cbd key) as He.
    destruct (sr_session_source_add_internal _ _ _ _ _ _ _ _) as [r s1].
    apply IH. simpl in He. congruence.
  - pose proof (abort_remove s key) as He.
    destruct (sr_session_source_remove_internal _ _) as [r s1].
    apply IH. simpl in He. congruence.
  - by apply IH.
Qed.

Lemma stop_syncs_app l1 l2 :
  stop_syncs (l1 ++ l2) = (stop_syncs l1 + stop_syncs l2)%nat.
Proof. unfold stop_syncs. by rewrite filter_app, length_app. Qed.

Lemma check_aborted_cases U s w :
  (abort_session s = true /\
   exists s' w', sr_session_check_aborted U s w = (true, [EvStopSync], s', w'))
  \/
  (abort_session s = false /\
   sr_session_check_aborted U s w = (false, [], s, w)).
Proof.
  unfold sr_session_check_aborted, sr_session_stop_sync.
  destruct (abort_session s); [left | by right].
  split; [reflexivity|]. destruct (stop_devs U (devs s) s w). eauto.
Qed.

(** In the dispatch loop: [stopped] tells whether [sr_session_stop_sync]
    has completed, it has completed at most once, and not before a
    callback has been invoked. *)
Lemma dispatch_stop_count U e usb_due fuel :
  forall i fd_index (st : loop_state U),
  stop_syncs (ls_log st) = (if ls_stopped st then 1 else 0)%nat ->
  (ls_triggered st = false -> ls_stopped st = false) ->
  let st' := snd (dispatch U e usb_due fuel i fd_index st) in
  stop_syncs (ls_log st') = (if ls_stopped st' then 1 else 0)%nat /\
  (ls_triggered st' = false -> ls_stopped st' = false).
Proof.
  induction fuel as [|fuel IH]; intros i fd_index st Hc Ht; simpl; [done|].
  destruct (sources (ls_session st) !! i) as [src|]; [|done].
  destruct (scan_pollfds _ _ _ _) as [fd0 rev0].
  destruct (triggered src); [by apply IH|].
  destruct ((poll_ret e >? 0) && (rev0 =? 0)); [by apply IH|].
  match goal with |- context [if ?c then dispatch _ _ _ _ _ _ _ else _] =>
    destruct c end; [by apply IH|].
  destruct (exec_prog _ _) as [[b w1] s2].
  set (s3 := if b then s2 else _).
  destruct (ls_stopped st) eqn:Hst.
  - apply IH; cbn [ls_log ls_stopped ls_triggered]; [|done].
    rewrite app_nil_r, stop_syncs_app, Hc. reflexivity.
  - destruct (check_aborted_cases U s3 w1)
      as [(_ & s4 & w4 & ->) | (_ & ->)];
      apply IH; cbn [ls_log ls_stopped ls_triggered]; try done;
      rewrite !stop_syncs_app, Hc; reflexivity.
Qed.

(** A stop request that is pending when the dispatch loop starts is served
    after the first callback. *)
Lemma dispatch_stop_pending U e usb_due fuel :
  forall i fd_index (st : loop_state U),
  (ls_triggered st = false /\ abort_session (ls_session st) = true) \/
  ls_stopped st = true ->
  let st' := snd (dispatch U e usb_due fuel i fd_index st) in
  (ls_triggered st' = false /\ abort_session (ls_session st') = true) \/
  ls_stopped st' = true.
Proof.
  induction fuel as [|fuel IH]; intros i fd_index st Hp; simpl; [done|].
  destruct (sources (ls_session st) !! i) as [src|]; [|done].
  destruct (scan_pollfds _ _ _ _) as [fd0 rev0].
  destruct (triggered src); [by apply IH|].
  destruct ((poll_ret e >? 0) && (rev0 =? 0)); [by apply IH|].
  match goal with |- context [if ?c then dispatch _ _ _ _ _ _ _ else _] =>
    destruct c end; [by apply IH|].
  match goal with |- context [exec_prog ?p ?s1] =>
    pose proof (abort_exec_prog p s1) as Hab;
    destruct (exec_prog p s1) as [[b w1] s2] end.
  cbn [abort_session set_registry snd] in Hab.
  set (s3 := if b then s2 else _).
  assert (Hab3 : abort_session (ls_session st) = true ->
                 abort_session s3 = true).
  { intros Ha. unfold s3. destruct b; [by apply Hab|].
    rewrite abort_remove. by apply Hab. }
  destruct (ls_stopped st) eqn:Hst.
  - apply IH. by right.
  - destruct Hp as [[_ Ha] | ?]; [|done].
    destruct (check_aborted_cases U s3 w1)
      as [(_ & s4 & w4 & ->) | (Hn & _)].
    + apply IH. by right.
    + rewrite Hab3 in Hn; done.
Qed.

Lemma flag_after_stopped log : forall b,
  Forall (fun ev => is_running ev = false) log ->
  (0 < stop_syncs log)%nat -> flag_after b log = false.
Proof.
  assert (Hno : forall log,
    Forall (fun ev => is_running ev = false) log ->
    flag_after false log = false).
  { induction log0 as [|ev l IH]; intros Hr; [reflexivity|].
    apply Forall_cons in Hr as [Hev Hr]. unfold flag_after. simpl.
    rewrite Hev. destruct (is_stop_sync ev); by apply IH. }
  induction log as [|ev log IH]; intros b Hr Hs;
    [unfold stop_syncs in Hs; simpl in Hs; lia|].
  apply Forall_cons in Hr as [Hev Hr]. unfold flag_after. simpl.
  rewrite Hev. destruct (is_stop_sync ev) eqn:Hss.
  - by apply Hno.
  - apply IH; [exact Hr|]. unfold stop_syncs in *.
    rewrite filter_cons_False in Hs; [exact Hs|]. simpl. congruence.
Qed.

(** Property X10.  One iteration of the event loop completes
    [sr_session_stop_sync] at most once.  If a stop has been requested when
    the iteration starts and the iteration returns SR_OK, it completes it
    exactly once, and [running] is false afterwards. *)
Theorem iteration_stops_at_most_once U fuel e s w ret log s' w' :
  sr_session_iteration U fuel e s w = (ret, log, s', w') ->
  (stop_syncs log <= 1)%nat /\
  (abort_session s = true -> ret = Some SR_OK ->
   stop_syncs log = 1%nat /\ running s' = false).
Proof.
  intros Hit.
  assert (Hcount : (stop_syncs log <= 1)%nat /\
                   (abort_session s = true -> ret = Some SR_OK ->
                    stop_syncs log = 1%nat)).
  { revert Hit. unfold sr_session_iteration.
    destruct (length (sources s) =? 0)%nat.
    { destruct (check_aborted_cases U s w)
        as [(Ha & s4 & w4 & ->) | (Ha & ->)];
        intros [= <- <- <- <-]; (split; [vm_compute; lia|]);
        [intros _ _; reflexivity | congruence]. }
    cbn [ctx set_registry].
    destruct (usb_source_present (ctx s) && (usb_ret e <? 0)).
    { intros [= <- <- <- <-]. split; [vm_compute; lia | discriminate]. }
    set (s1 := if poll_ret e <? 0 then _ else _).
    assert (Hab1 : abort_session s1 = abort_session s).
    { unfold s1. by destruct (poll_ret e <? 0). }
    destruct ((poll_ret e <? 0) && negb (poll_eintr e)).
    { intros [= <- <- <- <-]. split; [vm_compute; lia | discriminate]. }
    match goal with |- context [dispatch U e ?ud fuel 0%nat 0 ?st0] =>
      pose proof (dispatch_stop_count U e ud fuel 0%nat 0 st0 eq_refl
                    (fun _ => eq_refl)) as [Hc Ht];
      pose proof (dispatch_stop_pending U e ud fuel 0%nat 0 st0) as Hpend;
      destruct (dispatch U e ud fuel 0%nat 0 st0) as [finished st] end.
    cbn [snd ls_triggered ls_session ls_stopped] in Hc, Ht, Hpend.
    destruct finished; simpl.
    - destruct (ls_triggered st) eqn:Htr.
      + intros [= <- <- <- <-]. rewrite Hc. split.
        * destruct (ls_stopped st); lia.
        * intros Ha _.
          assert (Hpre : (false = false /\ abort_session s1 = true) \/
                         false = true).
          { left. split; [reflexivity | congruence]. }
          destruct (Hpend Hpre) as [[? _] | ->]; [congruence | reflexivity].
      + rewrite (Ht eq_refl) in Hc.
        destruct (check_aborted_cases U (ls_session st) (ls_world st))
          as [(Ha & s4 & w4 & ->) | (Ha & ->)];
          intros [= <- <- <- <-]; rewrite stop_syncs_app, Hc.
        * split; [vm_compute; lia | intros _ _; reflexivity].
        * split; [vm_compute; lia|]. intros Ha0 _.
          assert (Hpre : (false = false /\ abort_session s1 = true) \/
                         false = true).
          { left. split; [reflexivity | congruence]. }
          destruct (Hpend Hpre) as [[_ Hp] | Hp]; [congruence|].
          rewrite (Ht eq_refl) in Hp. discriminate.
    - intros [= <- <- <- <-]. rewrite Hc. split; [|discriminate].
      destruct (ls_stopped st); lia. }
  destruct Hcount as [Hle Heq]. split; [exact Hle|].
  intros Ha Hr. specialize (Heq Ha Hr). split; [exact Heq|].
  rewrite (running_iteration _ _ _ _ _ _ _ _ _ Hit).
  apply flag_after_stopped; [|lia].
  eapply (iteration_log_forall U e (fun ev => is_running ev = false));
    [reflexivity | reflexivity | reflexivity | exact Hit].
Qed.

Lemma iteration_stops_at_most_once_witness :
  exists ret log s' w',
    sr_session_iteration quiet_code 5 two_io_env
      (snd (sr_session_stop two_io_session)) tt = (ret, log, s', w') /\
    stop_syncs log = 1%nat /\ running s' = false.
Proof.
  eexists _, _, _, _. split; [vm_compute; reflexivity|].
  eapply (iteration_stops_at_most_once quiet_code 5 two_io_env
            (snd (sr_session_stop two_io_session)) tt);
    [vm_compute; reflexivity | reflexivity | reflexivity].
Defined.

(** ** The result of [sr_session_run] *)

Lemma iteration_status U fuel e s w ret log s' w' :
  sr_session_iteration U fuel e s w = (ret, log, s', w') ->
  ret = None \/ ret = Some SR_OK \/
  (ret = Some SR_ERR /\ sources s' <> [] /\
   Forall (fun ev => is_callback ev = false) log).
Proof.
  unfold sr_session_iteration.
  destruct (length (sources s) =? 0)%nat eqn:Hlen.
  { destruct (sr_session_check_aborted U s w) as [[[sp lg] s4] w4].
    intros [= <- <- <- <-]. auto. }
  assert (Hne : clear_triggered <$> sources s <> []).
  { destruct (sources s); [discriminate | done]. }
  cbn [ctx set_registry].
  destruct (usb_source_present (ctx s) && (usb_ret e <? 0)).
  { intros [= <- <- <- <-]. right. right. by repeat split. }
  destruct ((poll_ret e <? 0) && negb (poll_eintr e)).
  { intros [= <- <- <- <-]. right. right. split; [reflexivity|].
    split; [by destruct (poll_ret e <? 0) | by repeat constructor]. }
  destruct (dispatch _ _ _ _ _ _ _) as [finished st].
  destruct finished; simpl.
  - destruct (ls_triggered st); [intros [= <- <- <- <-]; auto|].
    destruct (sr_session_check_aborted U _ _) as [[[sp lg] s4] w4].
    intros [= <- <- <- <-]. auto.
  - intros [= <- <- <- <-]. auto.
Qed.

Lemma run_loop_status U script : forall s w r log s' w',
  run_loop U script s w = (Some r, log, s', w') ->
  (r = SR_OK /\ sources s' = []) \/ (r = SR_ERR /\ sources s' <> []).
Proof.
  induction script as [|[fuel e] script IH]; intros s w r log s' w'; simpl.
  - destruct (length (sources s) =? 0)%nat eqn:Hlen; [|discriminate].
    intros [= <- <- <- <-]. left.
    by apply Nat.eqb_eq, nil_length_inv in Hlen.
  - destruct (length (sources s) =? 0)%nat eqn:Hlen.
    { intros [= <- <- <- <-]. left.
      by apply Nat.eqb_eq, nil_length_inv in Hlen. }
    destruct (sr_session_iteration U fuel e s w) as [[[ret lg] s1] w1] eqn:Hit.
    apply iteration_status in Hit.
    destruct Hit as [-> | [-> | (-> & Hne & _)]]; [discriminate| |].
    + simpl.
      destruct (run_loop U script s1 w1) as [[[ret' lg'] s2] w2] eqn:Hr.
      intros [= -> <- <- <-]. by eapply IH.
    + simpl. intros [= <- <- <- <-]. by right.
Qed.

(** Property X11.  [sr_session_run] returns SR_OK only when the registry has
    become empty.  It returns SR_ERR_ARG exactly when the session has no
    device, and has then done nothing; any other status is SR_ERR, from an
    iteration that failed, with sources left in the registry. *)
Theorem run_returns_ok_only_when_registry_empty U script s w r log s' w' :
  sr_session_run U script s w = (Some r, log, s', w') ->
  (r = SR_OK /\ devs s <> [] /\ sources s' = []) \/
  (r = SR_ERR_ARG /\ devs s = [] /\ s' = s /\ w' = w /\ log = []) \/
  (r = SR_ERR /\ devs s <> [] /\ sources s' <> []).
Proof.
  unfold sr_session_run.
  destruct (length (devs s) =? 0)%nat eqn:Hlen.
  { intros [= <- <- <- <-]. right. left.
    by apply Nat.eqb_eq, nil_length_inv in Hlen. }
  assert (Hne : devs s <> []).
  { intros Hd. by rewrite Hd in Hlen. }
  destruct (run_loop U script (set_running s true) w)
    as [[[ret lg] s1] w1] eqn:Hr.
  intros [= -> <- <- <-].
  apply run_loop_status in Hr. destruct Hr as [[-> Hs] | [-> Hs]]; auto.
Qed.

Lemma run_returns_ok_only_when_registry_empty_witness :
  exists log s' w',
    sr_session_run quiet_code [(5%nat, mkIterEnv 0 0 0 0 (-1) false [] 0)]
      (set_devs two_io_session [attach demo_dev]) tt
    = (Some SR_ERR, log, s', w') /\
    devs (set_devs two_io_session [attach demo_dev]) <> [] /\
    sources s' <> [].
Proof.
  eexists _, _, _. split; [reflexivity|].
  edestruct (run_returns_ok_only_when_registry_empty quiet_code
               [(5%nat, mkIterEnv 0 0 0 0 (-1) false [] 0)]
               (set_devs two_io_session [attach demo_dev]) tt SR_ERR)
    as [(Hr & _) | [(Hr & _) | (_ & Hd & Hs)]];
    [reflexivity | discriminate | discriminate |].
  exact (conj Hd Hs).
Defined.

(** ** The device list across the event loop

    Caller code as [prog] describes it reaches the session through the
    registry and the stop flag.  The lemmas below follow the fields of
    [same_config] through the functions of session.c under that
    description; they serve the properties of [sr_session_dev_add]
    below. *)

Lemma same_config_refl s : same_config s s.
Proof. by repeat split. Qed.

Lemma same_config_trans s1 s2 s3 :
  same_config s1 s2 -> same_config s2 s3 -> same_config s1 s3.
Proof.
  intros (A1 & A2 & A3 & A4 & A5) (B1 & B2 & B3 & B4 & B5).
  repeat split; congruence.
Qed.

Lemma same_config_add s now pfds nfds tmo cb_ cbd key :
  same_config s
    (snd (sr_session_source_add_internal s now pfds nfds tmo cb_ cbd key)).
Proof.
  unfold sr_session_source_add_internal.
  repeat case_match; by repeat split.
Qed.

Lemma same_config_remove s key :
  same_config s (snd (sr_session_source_remove_internal s key)).
Proof.
  unfold sr_session_source_remove_internal.
  destruct (source_find _ _ _ _) as [[[i f] src]|]; [|by repeat split].
  repeat split. simpl. by destruct (key =? libusb_ctx (ctx s)).
Qed.

Lemma same_config_exec_prog {R} (p : prog R) : forall s,
  same_config s (snd (exec_prog p s)).
Proof.
  induction p as [r|now pfds nfds tmo cb_ cbd key k IH|key k IH|k IH];
    intros s; simpl.
  - apply same_config_refl.
  - pose proof (same_config_add s now pfds nfds tmo cb_ cbd key) as He.
    destruct (sr_session_source_add_internal _ _ _ _ _ _ _ _) as [r s1].
    eapply same_config_trans; [exact He | apply IH].
  - pose proof (same_config_remove s key) as He.
    destruct (sr_session_source_remove_internal _ _) as [r s1].
    eapply same_config_trans; [exact He | apply IH].
  - eapply same_config_trans; [|apply IH]. by repeat split.
Qed.

Lemma same_config_stop_devs U l : forall s w,
  same_config s (fst (stop_devs U l s w)).
Proof.
  induction l as [|sdi l IH]; intros s w; simpl; [apply same_config_refl|].
  destruct (driver sdi) as [d|]; [|apply IH].
  destruct (dev_acquisition_stop d =? 0); [apply IH|].
  pose proof (same_config_exec_prog
    (acquisition_stop U (dev_acquisition_stop d) sdi w) s) as He.
  destruct (exec_prog _ s) as [w' s1].
  eapply same_config_trans; [exact He | apply IH].
Qed.

Lemma same_config_stop_sync U s w :
  same_config s (snd (fst (sr_session_stop_sync U s w))).
Proof.
  unfold sr_session_stop_sync.
  pose proof (same_config_stop_devs U (devs s) s w) as He.
  destruct (stop_devs U (devs s) s w). exact He.
Qed.

Lemma same_config_check_aborted U s w :
  same_config s (snd (fst (sr_session_check_aborted U s w))).
Proof.
  unfold sr_session_check_aborted.
  destruct (abort_session s); [|apply same_config_refl].
  pose proof (same_config_stop_sync U s w) as He.
  destruct (sr_session_stop_sync U s w) as [[[? ?] ?] ?]. exact He.
Qed.

Lemma same_config_dispatch U e usb_due fuel :
  forall i fd_index (st : loop_state U),
  same_config (ls_session st)
    (ls_session (snd (dispatch U e usb_due fuel i fd_index st))).
Proof.
  induction fuel as [|fuel IH]; intros i fd_index st; simpl;
    [apply same_config_refl|].
  destruct (sources (ls_session st) !! i) as [src|];
    [|apply same_config_refl].
  destruct (scan_pollfds _ _ _ _) as [fd0 rev0].
  destruct (triggered src); [apply IH|].
  destruct ((poll_ret e >? 0) && (rev0 =? 0)); [apply IH|].
  match goal with |- context [if ?c then dispatch _ _ _ _ _ _ _ else _] =>
    destruct c end; [apply IH|].
  match goal with |- context [exec_prog ?p ?s1] =>
    pose proof (same_config_exec_prog p s1) as H2;
    destruct (exec_prog p s1) as [[b w1] s2] end.
  simpl in H2.
  set (s3 := if b then s2 else _).
  assert (H3 : same_config (ls_session st) s3).
  { eapply same_config_trans; [by repeat split|].
    eapply same_config_trans; [exact H2|]. unfold s3.
    destruct b; [apply same_config_refl | apply same_config_remove]. }
  pose proof (same_config_check_aborted U s3 w1) as H4.
  destruct (ls_stopped st).
  - eapply same_config_trans; [exact H3 | apply IH].
  - destruct (sr_session_check_aborted U s3 w1) as [[[sp lg] s4] w2].
    eapply same_config_trans; [|apply IH].
    eapply same_config_trans; [exact H3 | exact H4].
Qed.

Lemma same_config_iteration U fuel e s w :
  same_config s (snd (fst (sr_session_iteration U fuel e s w))).
Proof.
  unfold sr_session_iteration.
  destruct (length (sources s) =? 0)%nat.
  { pose proof (same_config_check_aborted U s w) as He.
    destruct (sr_session_check_aborted U s w) as [[[? ?] ?] ?]. exact He. }
  cbn [ctx set_registry].
  destruct (usb_source_present (ctx s) && (usb_ret e <? 0));
    [by repeat split|].
  set (s1 := if poll_ret e <? 0 then _ else _).
  assert (H1 : same_config s s1).
  { unfold s1. by destruct (poll_ret e <? 0). }
  destruct ((poll_ret e <? 0) && negb (poll_eintr e)); [exact H1|].
  match goal with |- context [dispatch U e ?ud fuel 0%nat 0 ?st0] =>
    pose proof (same_config_dispatch U e ud fuel 0%nat 0 st0) as Hd;
    destruct (dispatch U e ud fuel 0%nat 0 st0) as [finished st] end.
  simpl in Hd. pose proof (same_config_trans _ _ _ H1 Hd) as H2.
  destruct finished; simpl; [|exact H2].
  destruct (ls_triggered st); [exact H2|].
  pose proof (same_config_check_aborted U (ls_session st) (ls_world st)) as He.
  destruct (sr_session_check_aborted U _ _) as [[[? ?] ?] ?].
  eapply same_config_trans; [exact H2 | exact He].
Qed.

Lemma same_config_run_loop U script : forall s w,
  same_config s (snd (fst (run_loop U script s w))).
Proof.
  induction script as [|[fuel e] script IH]; intros s w; simpl.
  - destruct (length (sources s) =? 0)%nat; apply same_config_refl.
  - destruct (length (sources s) =? 0)%nat; [apply same_config_refl|].
    pose proof (same_config_iteration U fuel e s w) as H1.
    destruct (sr_session_iteration U fuel e s w) as [[[r lg] s1] w1].
    simpl in H1. destruct r as [r|]; [|exact H1].
    destruct (negb (r =? SR_OK)); [exact H1|].
    specialize (IH s1 w1).
    destruct (run_loop U script s1 w1) as [[[? ?] ?] ?].
    eapply same_config_trans; [exact H1 | exact IH].
Qed.

Lemma same_config_start_devs U l : forall s w ret s' w',
  start_devs U l s w = Some (ret, s', w') -> same_config s s'.
Proof.
  induction l as [|sdi l IH]; intros s w ret s' w'; simpl.
  - intros [= <- <- <-]. apply same_config_refl.
  - destruct (negb (existsb _ _)).
    { destruct (driver sdi); [|discriminate].
      intros [= <- <- <-]. apply same_config_refl. }
    destruct (config_commit U sdi w) as [r w1].
    destruct (negb (r =? SR_OK)).
    { intros [= <- <- <-]. apply same_config_refl. }
    destruct (driver sdi) as [d|]; [|discriminate].
    destruct (dev_acquisition_start d =? 0); [discriminate|].
    pose proof (same_config_exec_prog
      (acquisition_start U (dev_acquisition_start d) sdi w1) s) as He.
    destruct (exec_prog _ s) as [[r2 w2] s2]. simpl in He.
    destruct (negb (r2 =? SR_OK)); [by intros [= <- <- <-]|].
    intros Hs. eapply same_config_trans; [exact He | by eapply IH].
Qed.


Lemma same_config_run U script s w :
  same_config s (snd (fst (sr_session_run U script s w))).
Proof.
  unfold sr_session_run.
  destruct (length (devs s) =? 0)%nat; [apply same_config_refl|].
  pose proof (same_config_run_loop U script (set_running s true) w) as Hl.
  destruct (run_loop U script (set_running s true) w) as [[[r lg] s1] w1].
  exact Hl.
Qed.

Lemma same_config_start U s w r log s' w' :
  sr_session_start U s w = Some (r, log, s', w') -> same_config s s'.
Proof.
  unfold sr_session_start.
  destruct (length (devs s) =? 0)%nat.
  { intros [= <- <- <- <-]. apply same_config_refl. }
  destruct (if trigger s is Some t then _ else false).
  { intros [= <- <- <- <-]. apply same_config_refl. }
  destruct (start_devs U (devs s) s w) as [[[r1 s1] w1]|] eqn:Hs;
    [|discriminate].
  intros [= <- <- <- <-]. by eapply same_config_start_devs.
Qed.



(** ** Devices *)

Lemma dev_add_devs U s sdi w r s' w' :
  sr_session_dev_add U s (Some sdi) w = Some (r, s', w') ->
  devs s' = devs s \/
  (devs s' = devs s ++ [attach sdi] /\
   forall d, driver sdi = Some d -> dev_open d <> 0).
Proof.
  unfold sr_session_dev_add.
  destruct (sdi_session sdi); [intros [= <- <- <-]; by left|].
  destruct (driver sdi) as [d|] eqn:Hd.
  2: { intros [= <- <- <-]. right. by split. }
  destruct (Z.eqb_spec (dev_open d) 0) as [Ho|Ho];
    [intros [= <- <- <-]; by left|].
  assert (Hop : forall d0, Some d = Some d0 -> dev_open d0 <> 0).
  { by intros d0 [= <-]. }
  cbn [running set_devs].
  destruct (running s); [|intros [= <- <- <-]; right; by split].
  destruct (config_commit U (attach sdi) w) as [rc w1].
  destruct (negb (rc =? SR_OK)); [intros [= <- <- <-]; right; by split|].
  destruct (dev_acquisition_start d =? 0); [discriminate|].
  match goal with |- context [exec_prog ?p ?s0] =>
    pose proof (same_config_exec_prog p s0) as (_ & He & _);
    destruct (exec_prog p s0) as [[r2 w2] s2] end.
  intros [= <- <- <-]. right. by split.
Qed.

(** Property X13.  [sr_session_dev_add] has three outcomes.  A device that
    is already in a session is rejected with SR_ERR_ARG, one whose driver
    has no [dev_open] with SR_ERR_BUG, and nothing changes.  Otherwise the
    device is appended to the list with its back-reference set, whatever
    the status.  In a session that is not running, and for a device without
    driver, the call returns SR_OK and changes nothing else.  In a running
    session the call returns the status of [sr_config_commit] if that is not
    SR_OK, without calling the driver, and otherwise the status of the
    driver's start routine, run on the session that holds the device: a
    failure of either is returned with the device left in the list. *)
Theorem dev_add_keeps_device_on_failure U s sdi w r s' w' :
  sr_session_dev_add U s (Some sdi) w = Some (r, s', w') ->
  (((sdi_session sdi = true /\ r = SR_ERR_ARG) \/
    (sdi_session sdi = false /\ r = SR_ERR_BUG /\
     exists d, driver sdi = Some d /\ dev_open d = 0)) /\
   s' = s /\ w' = w) \/
  (sdi_session sdi = false /\
   (forall d, driver sdi = Some d -> dev_open d <> 0) /\
   devs s' = devs s ++ [attach sdi] /\
   (running s = false \/ driver sdi = None ->
    r = SR_OK /\ s' = set_devs s (devs s ++ [attach sdi]) /\ w' = w) /\
   (forall d, running s = true -> driver sdi = Some d ->
    (fst (config_commit U (attach sdi) w) <> SR_OK ->
     r = fst (config_commit U (attach sdi) w) /\
     s' = set_devs s (devs s ++ [attach sdi]) /\
     w' = snd (config_commit U (attach sdi) w)) /\
    (fst (config_commit U (attach sdi) w) = SR_OK ->
     dev_acquisition_start d <> 0 /\
     exec_prog (acquisition_start U (dev_acquisition_start d) (attach sdi)
                  (snd (config_commit U (attach sdi) w)))
       (set_devs s (devs s ++ [attach sdi]))
     = (r, w', s')))).
Proof.
  unfold sr_session_dev_add.
  destruct (sdi_session sdi) eqn:Hss.
  { intros [= <- <- <-]. left. split; [by left | done]. }
  destruct (driver sdi) as [d|] eqn:Hd.
  2: { intros [= <- <- <-]. right. by repeat split. }
  destruct (Z.eqb_spec (dev_open d) 0) as [Ho|Ho].
  { intros [= <- <- <-]. left. split; [right; eauto | done]. }
  assert (Hop : forall d0, Some d = Some d0 -> dev_open d0 <> 0).
  { by intros d0 [= <-]. }
  cbn [running set_devs].
  destruct (running s) eqn:Hr.
  2: { intros [= <- <- <-]. right. by repeat split. }
  destruct (config_commit U (attach sdi) w) as [rc w1]. cbn [fst snd].
  destruct (Z.eqb_spec rc SR_OK) as [Hrc|Hrc]; cbn [negb].
  2: { intros [= <- <- <-]. right. split; [done|]. split; [exact Hop|].
       split; [reflexivity|]. split; [intros [?|?]; discriminate|].
       intros d0 _ _. split; [done|]. intros E. by apply Hrc in E. }
  destruct (Z.eqb_spec (dev_acquisition_start d) 0) as [Hst|Hst];
    [discriminate|].
  match goal with |- context [exec_prog ?p ?s0] =>
    pose proof (same_config_exec_prog p s0) as (_ & He & _);
    destruct (exec_prog p s0) as [[r2 w2] s2] eqn:Hex end.
  intros [= <- <- <-]. right. split; [done|]. split; [exact Hop|].
  split; [exact He|]. split; [intros [?|?]; discriminate|].
  intros d0 _ [= <-]. split; [done|]. intros _. split; [exact Hst | exact Hex].
Qed.

Lemma dev_add_keeps_device_on_failure_witness :
  exists s',
    sr_session_dev_add failing_commit_code
      (set_running (sr_session_new (mkContext 77 false)) true)
      (Some demo_dev) tt
    = Some (SR_ERR, s', tt) /\
    devs s' = [attach demo_dev].
Proof.
  eexists. split; [reflexivity|].
  edestruct (dev_add_keeps_device_on_failure failing_commit_code
               (set_running (sr_session_new (mkContext 77 false)) true)
               demo_dev tt)
    as [([[H _]|(_ & H & _)] & _) | (_ & _ & H & _)].
  - reflexivity.
  - discriminate H.
  - discriminate H.
  - exact H.
Defined.

Lemma enrolled_api_apply U c s w log s' w' :
  Forall dev_enrolled (devs s) ->
  api_apply U c s w = Some (log, s', w') ->
  Forall dev_enrolled (devs s').
Proof.
  intros He. destruct c as [sdi| | |script| | |p]; simpl.
  - destruct sdi as [sdi|]; [|by intros [= <- <- <-]].
    destruct (sr_session_dev_add U s (Some sdi) w) as [[[r s1] w1]|] eqn:Ha;
      [|discriminate].
    intros [= <- <- <-].
    apply dev_add_devs in Ha as [-> | [-> Ho]]; [exact He|].
    apply Forall_app. split; [exact He|]. apply Forall_singleton.
    split; [reflexivity | exact Ho].
  - intros [= <- <- <-]. constructor.
  - destruct (sr_session_start U s w) as [[[[r lg] s1] w1]|] eqn:Hs;
      [|discriminate].
    intros [= <- <- <-]. apply same_config_start in Hs as (_ & -> & _).
    exact He.
  - pose proof (same_config_run U script s w) as (_ & Hd & _).
    destruct (sr_session_run U script s w) as [[[r lg] s1] w1].
    intros [= <- <- <-]. simpl in Hd. by rewrite Hd.
  - by intros [= <- <- <-].
  - pose proof (same_config_stop_sync U s w) as (_ & Hd & _).
    destruct (sr_session_stop_sync U s w) as [[[r lg] s1] w1].
    intros [= <- <- <-]. simpl in Hd. by rewrite Hd.
  - pose proof (same_config_exec_prog (p w) s) as (_ & Hd & _).
    destruct (exec_prog (p w) s) as [w1 s1].
    intros [= <- <- <-]. simpl in Hd. by rewrite Hd.
Qed.

Lemma enrolled_api_run U calls : forall s w log s' w',
  Forall dev_enrolled (devs s) ->
  api_run U calls s w = Some (log, s', w') ->
  Forall dev_enrolled (devs s').
Proof.
  induction calls as [|c calls IH]; intros s w log s' w' He; simpl.
  - by intros [= <- <- <-].
  - destruct (api_apply U c s w) as [[[lg s1] w1]|] eqn:Ha; [|discriminate].
    apply enrolled_api_apply in Ha; [|exact He].
    destruct (api_run U calls s1 w1) as [[[lg' s2] w2]|] eqn:Hr;
      [|discriminate].
    intros [= <- <- <-]. eapply IH; eauto.
Qed.

(** Property X14.  In every session that API calls produce from a new session,
    each device of the list has its back-reference set, and its driver, if it
    has one, has [dev_open]; so adding a device of the list once more is
    rejected with SR_ERR_ARG and changes nothing. *)
Theorem reachable_devs_enrolled U calls c0 w0 log s w :
  api_run U calls (sr_session_new c0) w0 = Some (log, s, w) ->
  Forall dev_enrolled (devs s) /\
  forall sdi w1, sdi ∈ devs s ->
    sr_session_dev_add U s (Some sdi) w1 = Some (SR_ERR_ARG, s, w1).
Proof.
  intros Hr. apply enrolled_api_run in Hr; [|constructor].
  split; [exact Hr|]. intros sdi w1 Hin.
  apply (proj1 (Forall_forall _ _) Hr) in Hin as [Hs _].
  unfold sr_session_dev_add. by rewrite Hs.
Qed.

Lemma reachable_devs_enrolled_witness :
  exists log s w,
    api_run quiet_code [ApiDevAdd (Some demo_dev); ApiStart; ApiRun []]
      (sr_session_new (mkContext 77 false)) tt = Some (log, s, w) /\
    Forall dev_enrolled (devs s).
Proof.
  eexists _, _, _. split; [reflexivity|].
  eapply (reachable_devs_enrolled quiet_code
            [ApiDevAdd (Some demo_dev); ApiStart; ApiRun []]
            (mkContext 77 false) tt).
  reflexivity.
Defined.





(** ** Start *)

Lemma verify_matches_spec l :
  (verify_matches l = SR_OK <->
   Forall (fun m => match_channel m <> 0 /\ match_code m <> 0) l) /\
  (verify_matches l = SR_OK \/ verify_matches l = SR_ERR).
Proof.
  induction l as [|m l [IH1 IH2]]; simpl.
  - split; [split; [constructor | reflexivity] | by left].
  - destruct (Z.eqb_spec (match_channel m) 0) as [E|E].
    { split; [|by right]. split; [discriminate|].
      intros H. apply Forall_cons in H as [[H _] _]. done. }
    destruct (Z.eqb_spec (match_code m) 0) as [E'|E'].
    { split; [|by right]. split; [discriminate|].
      intros H. apply Forall_cons in H as [[_ H] _]. done. }
    split; [|exact IH2]. rewrite IH1. split.
    + intros H. by constructor.
    + intros H. by apply Forall_cons in H as [_ H].
Qed.

Lemma verify_stages_spec t :
  (verify_stages t = SR_OK <->
   Forall (fun stage =>
             stage <> [] /\
             Forall (fun m => match_channel m <> 0 /\ match_code m <> 0)
               stage) t) /\
  (verify_stages t = SR_OK \/ verify_stages t = SR_ERR).
Proof.
  induction t as [|stage t [IH1 IH2]]; simpl.
  - split; [split; [constructor | reflexivity] | by left].
  - destruct stage as [|m stage].
    { simpl. split; [|by right]. split; [discriminate|].
      intros H. apply Forall_cons in H as [[H _] _]. done. }
    cbn [length Nat.eqb].
    destruct (verify_matches_spec (m :: stage)) as [Hm1 Hm2].
    destruct (Z.eqb_spec (verify_matches (m :: stage)) SR_OK) as [E|E]; simpl.
    + split; [|exact IH2]. rewrite IH1. split.
      * intros H. constructor; [|exact H]. split; [done | by apply Hm1].
      * intros H. by apply Forall_cons in H as [_ H].
    + split; [|by right]. split; [discriminate|].
      intros H. apply Forall_cons in H as [[_ H] _]. by apply Hm1 in H.
Qed.

(** Property X16.  [verify_trigger] returns SR_OK exactly for a trigger with
    at least one stage, in which every stage has at least one match and every
    match has a channel and a match code; it returns SR_ERR for every other.
    *)
Theorem verify_trigger_accepts_well_formed t :
  (verify_trigger t = SR_OK <-> trigger_well_formed t) /\
  (verify_trigger t = SR_OK \/ verify_trigger t = SR_ERR).
Proof.
  unfold verify_trigger, trigger_well_formed.
  destruct t as [|stage t].
  - simpl. split; [|by right]. split; [discriminate | by intros [? _]].
  - cbn [length Nat.eqb].
    destruct (verify_stages_spec (stage :: t)) as [H1 H2].
    split; [|exact H2]. rewrite H1. split; [by split | by intros [_ ?]].
Qed.

Lemma start_devs_ok U l : forall s w s' w',
  start_devs U l s w = Some (SR_OK, s', w') ->
  Forall (fun sdi =>
            true ∈ channels sdi /\
            exists d, driver sdi = Some d /\ dev_acquisition_start d <> 0) l.
Proof.
  induction l as [|sdi l IH]; intros s w s' w'; simpl; [constructor|].
  destruct (existsb (fun en => en) (channels sdi)) eqn:Hch; simpl.
  2: { destruct (driver sdi); discriminate. }
  destruct (config_commit U sdi w) as [r w1].
  destruct (negb (r =? SR_OK)) eqn:Hr.
  { intros [= -> <- <-]. discriminate. }
  destruct (driver sdi) as [d|] eqn:Hd; [|discriminate].
  destruct (Z.eqb_spec (dev_acquisition_start d) 0) as [E|E]; [discriminate|].
  destruct (exec_prog _ s) as [[r2 w2] s2].
  destruct (negb (r2 =? SR_OK)) eqn:Hr2.
  { intros [= -> <- <-]. discriminate. }
  intros Hs. constructor; [|by eapply IH]. split; [|eauto].
  apply existsb_exists in Hch as (en & Hin & ->). by apply list_elem_of_In.
Qed.

(** Property X17.  [sr_session_start] returns SR_OK only for a session with at
    least one device, whose trigger, if it has one, is well formed, and in
    which every device has an enabled channel and a driver with a start
    routine. *)
Theorem start_ok_requires U s w log s' w' :
  sr_session_start U s w = Some (SR_OK, log, s', w') ->
  devs s <> [] /\
  (forall t, trigger s = Some t -> trigger_well_formed t) /\
  Forall (fun sdi =>
            true ∈ channels sdi /\
            exists d, driver sdi = Some d /\ dev_acquisition_start d <> 0)
    (devs s).
Proof.
  unfold sr_session_start.
  destruct (devs s) as [|sdi l] eqn:Hd; [discriminate|].
  cbn [length Nat.eqb].
  destruct (trigger s) as [t|].
  - destruct (Z.eqb_spec (verify_trigger t) SR_OK) as [E|E]; cbn [negb];
      [|intros [= H _ _ _]; discriminate H].
    destruct (start_devs U (sdi :: l) s w) as [[[r s1] w1]|] eqn:Hs;
      [|discriminate].
    intros [= -> <- <- <-]. split; [done|]. split.
    + intros t' [= <-]. unfold verify_trigger in E.
      destruct t as [|stage t]; [discriminate|]. cbn [length Nat.eqb] in E.
      split; [done|]. by apply verify_stages_spec.
    + by eapply start_devs_ok.
  - destruct (start_devs U (sdi :: l) s w) as [[[r s1] w1]|] eqn:Hs;
      [|discriminate].
    intros [= -> <- <- <-]. split; [done|]. split; [discriminate|].
    by eapply start_devs_ok.
Qed.

Lemma start_ok_requires_witness :
  exists log s' w',
    sr_session_start quiet_code demo_session tt = Some (SR_OK, log, s', w') /\
    devs demo_session <> [].
Proof.
  eexists _, _, _. split; [reflexivity|].
  eapply (start_ok_requires quiet_code demo_session tt). reflexivity.
Defined.

(** Property X18.  [sr_session_start] goes through the devices in order and
    stops at the first that fails: starting the devices of [l1 ++ l2] is
    starting those of [l1] and, if none failed, those of [l2] from where that
    ended.  Nothing is rolled back, and no device after the failing one is
    touched. *)
Theorem start_stops_at_first_failure U l1 l2 : forall s w,
  start_devs U (l1 ++ l2) s w
  = match start_devs U l1 s w with
    | Some (r, s1, w1) =>
        if r =? SR_OK then start_devs U l2 s1 w1 else Some (r, s1, w1)
    | None => None
    end.
Proof.
  induction l1 as [|sdi l1 IH]; intros s w; simpl.
  - by destruct (start_devs U l2 s w) as [[[? ?] ?]|].
  - destruct (negb (existsb _ _)); [by destruct (driver sdi)|].
    destruct (config_commit U sdi w) as [r w1].
    destruct (r =? SR_OK) eqn:Hr; simpl; [|by rewrite Hr].
    destruct (driver sdi) as [d|]; [|reflexivity].
    destruct (dev_acquisition_start d =? 0); [reflexivity|].
    destruct (exec_prog _ s) as [[r2 w2] s2].
    destruct (r2 =? SR_OK) eqn:Hr2; simpl; [apply IH | by rewrite Hr2].
Qed.

(** ** Datafeed subscribers *)

Lemma subscribe_all_callbacks cbs : forall s,
  datafeed_callbacks (subscribe_all s cbs)
  = datafeed_callbacks s
    ++ ((fun c => mkDatafeedCb (fst c) (snd c))
          <$> filter (fun c => fst c <> 0) cbs) /\
  transforms (subscribe_all s cbs) = transforms s.
Proof.
  induction cbs as [|[c d] cbs IH]; intros s; simpl.
  - by rewrite app_nil_r.
  - unfold subscribe_all in *. simpl.
    unfold sr_session_datafeed_callback_add at 2 4. simpl.
    destruct (Z.eqb_spec c 0) as [->|Hc]; simpl.
    + rewrite filter_cons_False by (simpl; tauto). apply IH.
    + rewrite filter_cons_True by done. destruct (IH
        (set_datafeed_callbacks s (datafeed_callbacks s ++ [mkDatafeedCb c d])))
        as [-> ->].
      simpl. by rewrite <- app_assoc.
Qed.

(** Property X19.  Subscribers are served in the order of registration.
    After [sr_session_datafeed_callback_remove_all] and a sequence of
    [sr_session_datafeed_callback_add] calls, [sr_session_send] of a packet
    through a session without transforms returns SR_OK, having called
    exactly the callbacks that were not NULL, once each, in the order of
    the calls, each with the data it was registered with: the session and
    the state of the caller are those that these calls, one after the
    other, produce. *)
Theorem subscribers_served_in_registration_order U s cbs sdi packet w :
  sdi_session sdi = true -> packet <> Null -> transforms s = [] ->
  let s1 :=
    subscribe_all (snd (sr_session_datafeed_callback_remove_all s)) cbs in
  exists s' w',
    sr_session_send U (Some sdi) packet s1 w
    = (SR_OK,
       (fun c => EvDatafeed (fst c) packet (snd c))
         <$> filter (fun c => fst c <> 0) cbs,
       s', w') /\
    served U sdi packet
      ((fun c => mkDatafeedCb (fst c) (snd c))
         <$> filter (fun c => fst c <> 0) cbs)
      s1 w s' w'.
Proof.
  intros Hs Hp Ht s1. unfold sr_session_send.
  destruct packet as [|b off]; [done|]. simpl. rewrite Hs. simpl.
  destruct (subscribe_all_callbacks cbs
              (snd (sr_session_datafeed_callback_remove_all s))) as [Hc Htr].
  fold s1 in Hc, Htr. rewrite Htr. simpl. rewrite Ht. simpl.
  pose proof (run_datafeed_callbacks_log U (datafeed_callbacks s1) sdi
                (Ptr b off) s1 w) as Hl.
  pose proof (run_datafeed_callbacks_served U (datafeed_callbacks s1) sdi
                (Ptr b off) s1 w) as Hsv.
  destruct (run_datafeed_callbacks U _ sdi (Ptr b off) s1 w) as [[lg s2] w2].
  simpl in Hl, Hsv, Hc. rewrite Hc in Hsv. exists s2, w2. split; [|exact Hsv].
  rewrite Hl, Hc. unfold deliveries. simpl.
  by rewrite <- list_fmap_compose.
Qed.

Lemma subscribers_served_in_registration_order_witness :
  sdi_session (attach demo_dev) = true /\
  exists s',
    sr_session_send recording_code (Some (attach demo_dev)) (Ptr 0 0)
      (subscribe_all
         (snd (sr_session_datafeed_callback_remove_all demo_session))
         [(11, 1); (0, 2); (12, 3)]) []
    = (SR_OK, [EvDatafeed 11 (Ptr 0 0) 1; EvDatafeed 12 (Ptr 0 0) 3], s',
       [11; 12]).
Proof.
  split; [reflexivity|].
  destruct (subscribers_served_in_registration_order recording_code
              demo_session [(11, 1); (0, 2); (12, 3)] (attach demo_dev)
              (Ptr 0 0) [] eq_refl ltac:(discriminate) eq_refl)
    as (s' & w' & Hsend & _).
  exists s'. rewrite Hsend. f_equal.
  assert (E : snd (sr_session_send recording_code (Some (attach demo_dev))
                     (Ptr 0 0)
                     (subscribe_all
                        (snd (sr_session_datafeed_callback_remove_all
                                demo_session))
                        [(11, 1); (0, 2); (12, 3)]) []) = [11; 12])
    by reflexivity.
  rewrite Hsend in E. exact E.
Defined.

(** Property X20.  A trigger that is not well formed, once set, makes
    [sr_session_start] fail with SR_ERR before any driver is called: the
    session and the state of the caller's code are as they were. *)
Theorem start_rejects_ill_formed_trigger U s t w :
  devs s <> [] -> ~ trigger_well_formed t ->
  let s1 := snd (sr_session_trigger_set s (Some t)) in
  sr_session_trigger_get s1 = Some t /\
  sr_session_start U s1 w = Some (SR_ERR, [EvStart], s1, w).
Proof.
  intros Hd Ht s1. split; [reflexivity|].
  unfold sr_session_start. cbn [s1 snd sr_session_trigger_set set_trigger devs
                                trigger].
  destruct (devs s) as [|sdi l]; [done|]. cbn [length Nat.eqb].
  destruct (Z.eqb_spec (verify_trigger t) SR_OK) as [E|E]; [|reflexivity].
  exfalso. apply Ht. unfold verify_trigger in E.
  destruct t as [|stage t]; [discriminate|]. cbn [length Nat.eqb] in E.
  split; [done|]. by apply verify_stages_spec.
Qed.

Lemma start_rejects_ill_formed_trigger_witness :
  devs demo_session <> [] /\
  sr_session_start quiet_code
    (snd (sr_session_trigger_set demo_session (Some [[mkMatch 0 1]]))) tt
  = Some (SR_ERR, [EvStart],
          snd (sr_session_trigger_set demo_session (Some [[mkMatch 0 1]])), tt).
Proof.
  split; [discriminate|].
  refine (proj2 (start_rejects_ill_formed_trigger quiet_code demo_session
                   [[mkMatch 0 1]] tt _ _)); [discriminate|].
  intros [_ H]. apply Forall_cons in H as [[_ H] _].
  apply Forall_cons in H as [[H _] _]. by apply H.
Defined.

(** ** The restart of the dispatch loop *)

Lemma check_aborted_no_head U s w :
  Forall (fun ev => is_head_callback ev = false)
    (snd (fst (fst (sr_session_check_aborted U s w)))).
Proof.
  pose proof (check_aborted_log U s w) as Hl. simpl in Hl.
  destruct Hl as [-> | ->]; repeat constructor.
Qed.

(** From an index other than 0 the dispatch loop never comes back to
    index 0: after a callback it sets [i = 0] and the loop header
    increments it. *)
Lemma dispatch_no_head U e usb_due fuel :
  forall i fd_index (st : loop_state U),
  (1 <= i)%nat ->
  exists l,
    ls_log (snd (dispatch U e usb_due fuel i fd_index st)) = ls_log st ++ l /\
    Forall (fun ev => is_head_callback ev = false) l.
Proof.
  induction fuel as [|fuel IH]; intros i fd_index st Hi; simpl.
  { exists []. by rewrite app_nil_r. }
  destruct (sources (ls_session st) !! i) as [src|];
    [|exists []; by rewrite app_nil_r].
  destruct (scan_pollfds _ _ _ _) as [fd0 rev0].
  destruct (triggered src); [apply IH; lia|].
  destruct ((poll_ret e >? 0) && (rev0 =? 0)); [apply IH; lia|].
  match goal with |- context [if ?c then dispatch _ _ _ _ _ _ _ else _] =>
    destruct c end; [apply IH; lia|].
  destruct (exec_prog _ _) as [[b w1] s2].
  set (s3 := if b then s2 else _).
  assert (Hc : exists stopped log2 s4 w2,
    (if ls_stopped st then (true, [], s3, w1)
     else sr_session_check_aborted U s3 w1) = (stopped, log2, s4, w2) /\
    Forall (fun ev => is_head_callback ev = false) log2).
  { destruct (ls_stopped st); [by eexists _, _, _, _|].
    pose proof (check_aborted_no_head U s3 w1) as Hl.
    destruct (sr_session_check_aborted U s3 w1) as [[[sp lg] s4] w2].
    by eexists _, _, _, _. }
  destruct Hc as (stopped & log2 & s4 & w2 & -> & Hlog2).
  match goal with |- context [dispatch U e usb_due fuel 1%nat 0 ?st1] =>
    destruct (IH 1%nat 0 st1 ltac:(lia)) as (l & -> & Hl) end.
  cbn [ls_log]. eexists. rewrite <- !app_assoc. split; [reflexivity|].
  apply Forall_app. split.
  { constructor; [|constructor]. destruct i; [lia | reflexivity]. }
  apply Forall_app. by split.
Qed.

Lemma dispatch_head_first U e usb_due fuel (st : loop_state U) :
  exists l,
    ls_log (snd (dispatch U e usb_due fuel 0%nat 0 st)) = ls_log st ++ l /\
    (Forall (fun ev => is_head_callback ev = false) l \/
     exists ev l', l = ev :: l' /\
                   Forall (fun ev => is_head_callback ev = false) l').
Proof.
  destruct fuel as [|fuel]; simpl.
  { exists []. rewrite app_nil_r. split; [reflexivity | by left]. }
  destruct (sources (ls_session st) !! 0%nat) as [src|];
    [|exists []; rewrite app_nil_r; split; [reflexivity | by left]].
  destruct (scan_pollfds _ _ _ _) as [fd0 rev0].
  assert (Hnext : forall f, exists l,
    ls_log (snd (dispatch U e usb_due fuel 1%nat f st)) = ls_log st ++ l /\
    (Forall (fun ev => is_head_callback ev = false) l \/
     exists ev l', l = ev :: l' /\
                   Forall (fun ev => is_head_callback ev = false) l')).
  { intros f. destruct (dispatch_no_head U e usb_due fuel 1%nat f st)
      as (l & Hl & Hn); [lia|]. exists l. split; [exact Hl | by left]. }
  destruct (triggered src); [apply Hnext|].
  destruct ((poll_ret e >? 0) && (rev0 =? 0)); [apply Hnext|].
  match goal with |- context [if ?c then dispatch _ _ _ _ _ _ _ else _] =>
    destruct c end; [apply Hnext|].
  destruct (exec_prog _ _) as [[b w1] s2].
  set (s3 := if b then s2 else _).
  assert (Hc : exists stopped log2 s4 w2,
    (if ls_stopped st then (true, [], s3, w1)
     else sr_session_check_aborted U s3 w1) = (stopped, log2, s4, w2) /\
    Forall (fun ev => is_head_callback ev = false) log2).
  { destruct (ls_stopped st); [by eexists _, _, _, _|].
    pose proof (check_aborted_no_head U s3 w1) as Hl.
    destruct (sr_session_check_aborted U s3 w1) as [[[sp lg] s4] w2].
    by eexists _, _, _, _. }
  destruct Hc as (stopped & log2 & s4 & w2 & -> & Hlog2).
  match goal with |- context [dispatch U e usb_due fuel 1%nat 0 ?st1] =>
    destruct (dispatch_no_head U e usb_due fuel 1%nat 0 st1 ltac:(lia))
      as (l & -> & Hl) end.
  cbn [ls_log]. eexists. rewrite <- !app_assoc. split; [reflexivity|].
  right. eexists _, _. split; [reflexivity|]. apply Forall_app. by split.
Qed.

(** Property X21.  The source at index 0 is served first or not at all.  After
    a callback the dispatch loop resumes at index 1, so within one iteration a
    callback for the source at index 0 is the first callback of the iteration,
    directly after the poll call, and there is no second one. *)
Theorem head_source_fires_first_or_not_at_all U fuel e s w ret log s' w'
    l1 fd_ rev at_call l2 :
  sr_session_iteration U fuel e s w = (ret, log, s', w') ->
  log = l1 ++ EvCallback 0 fd_ rev at_call :: l2 ->
  (exists n t, l1 = [EvPoll n t]) /\
  Forall (fun ev => is_head_callback ev = false) l2.
Proof.
  intros Hit Hlog.
  assert (Hshape : exists n t l,
    log = EvPoll n t :: l /\
    (Forall (fun ev => is_head_callback ev = false) l \/
     exists ev l', l = ev :: l' /\
                   Forall (fun ev => is_head_callback ev = false) l') \/
    Forall (fun ev => is_head_callback ev = false) log).
  { revert Hit. unfold sr_session_iteration.
    destruct (length (sources s) =? 0)%nat.
    { pose proof (check_aborted_no_head U s w) as Hc.
      destruct (sr_session_check_aborted U s w) as [[[sp lg] s4] w4].
      intros [= <- <- <- <-]. exists 0%nat, 0, []. by right. }
    cbn [ctx set_registry].
    destruct (usb_source_present (ctx s) && (usb_ret e <? 0)).
    { intros [= <- <- <- <-]. exists 0%nat, 0, []. right. constructor. }
    destruct ((poll_ret e <? 0) && negb (poll_eintr e)).
    { intros [= <- <- <- <-]. exists 0%nat, 0, []. right.
      by repeat constructor. }
    match goal with |- context [dispatch U e ?ud fuel 0%nat 0 ?st0] =>
      destruct (dispatch_head_first U e ud fuel st0) as (l & Hl & Hs);
      destruct (dispatch U e ud fuel 0%nat 0 st0) as [finished st] end.
    cbn [snd ls_log] in Hl.
    assert (Hext : forall lg,
      Forall (fun ev => is_head_callback ev = false) lg ->
      Forall (fun ev => is_head_callback ev = false) (l ++ lg) \/
      exists ev l', l ++ lg = ev :: l' /\
                    Forall (fun ev => is_head_callback ev = false) l').
    { intros lg Hlg. destruct Hs as [Hs | (ev & l' & -> & Hs)].
      - left. apply Forall_app. by split.
      - right. exists ev, (l' ++ lg). split; [reflexivity|].
        apply Forall_app. by split. }
    destruct finished; simpl.
    - destruct (ls_triggered st).
      + intros [= <- <- <- <-]. rewrite Hl. eexists _, _, l. left.
        split; [reflexivity | exact Hs].
      + pose proof (check_aborted_no_head U (ls_session st) (ls_world st))
          as Hc.
        destruct (sr_session_check_aborted U _ _) as [[[sp lg] s4] w4].
        intros [= <- <- <- <-]. rewrite Hl. eexists _, _, (l ++ lg). left.
        split; [reflexivity | by apply Hext].
    - intros [= <- <- <- <-]. rewrite Hl. eexists _, _, l. left.
      split; [reflexivity | exact Hs]. }
  assert (Hin : forall l, Forall (fun ev => is_head_callback ev = false) l ->
                  EvCallback 0 fd_ rev at_call ∈ l -> False).
  { intros l Hf Hel. apply (proj1 (Forall_forall _ _) Hf) in Hel.
    discriminate. }
  destruct Hshape as (n & t & l & [[Hl Hs] | Hs]).
  2: { exfalso. apply (Hin log Hs). rewrite Hlog.
       apply elem_of_app. right. left. }
  rewrite Hl in Hlog. destruct l1 as [|x l1]; [discriminate|].
  injection Hlog as <- Hlog.
  destruct Hs as [Hs | (ev & l' & -> & Hs)].
  { exfalso. apply (Hin l Hs). rewrite Hlog.
    apply elem_of_app. right. left. }
  destruct l1 as [|y l1].
  - injection Hlog as -> ->. split; [eauto | exact Hs].
  - injection Hlog as -> ->. exfalso. apply (Hin _ Hs).
    apply elem_of_app. right. left.
Qed.

Lemma head_source_fires_first_or_not_at_all_witness :
  exists l1 fd_ rev at_call l2,
    snd (fst (fst (sr_session_iteration quiet_code 5 two_io_env
                     two_io_session tt)))
    = l1 ++ EvCallback 0 fd_ rev at_call :: l2 /\
    (exists n t, l1 = [EvPoll n t]) /\
    Forall (fun ev => is_head_callback ev = false) l2.
Proof.
  eexists [_], _, _, _, _. split; [reflexivity|].
  eapply (head_source_fires_first_or_not_at_all quiet_code 5 two_io_env
            two_io_session tt); reflexivity.
Defined.

(** ** Packets: copy and free *)

(** The packet struct that [sr_packet_copy] has allocated and tagged. *)
Lemma copy_prologue h packet ty :
  load_uint 2 (packet_type packet) h = Done ty h ->
  0 <= ty < 2 ^ 16 ->
  exists blk,
    (copy <- g_malloc0 sizeof_packet ;;
     ty <- load_uint 2 (packet_type packet) ;;
     store_uint 2 (packet_type copy) ty ;;;
     ret (copy, ty)) h
    = Done (Ptr (length h) 0, ty) (h ++ [blk]) /\
    live blk = true /\ length (bytes blk) = 16%nat /\
    take 2 (bytes blk) = encode_uint 2 ty /\
    drop 8 (bytes blk) = replicate 8 (MByte 0).
Proof.
  intros Hload Hrange.
  unfold bind, g_malloc0, sizeof_packet.
  rewrite alloc_fresh by lia.
  apply (load_uint_app _ [mkBlock (replicate (Z.to_nat 16) (MByte 0)) true])
    in Hload as [_ Hload].
  rewrite Hload. unfold store_uint, packet_type, ptr_add.
  rewrite store_bytes_last by (simpl; lia). simpl.
  eexists. split; [reflexivity|]. by repeat split.
Qed.

Lemma load_uint16_last h blk ty :
  live blk = true -> 0 <= ty < 2 ^ 16 ->
  (2 <= length (bytes blk))%nat ->
  take 2 (bytes blk) = encode_uint 2 ty ->
  load_uint 2 (Ptr (length h) 0) (h ++ [blk]) = Done ty (h ++ [blk]).
Proof.
  intros Hl Hr Hlen Ht. unfold load_uint, bind, load_bytes, access.
  rewrite (list_lookup_middle h [] _ (length h) eq_refl). rewrite Hl. simpl.
  destruct (Z.leb_spec (0 + 2) (Z.of_nat (length (bytes blk)))); [|lia].
  change (Z.to_nat 0) with 0%nat. change (Z.to_nat 2) with 2%nat.
  rewrite drop_0, Ht.
  by rewrite (decode_encode_uint16 ty Hr).
Qed.

Lemma g_free_last h blk :
  live blk = true ->
  g_free (Ptr (length h) 0) (h ++ [blk])
  = Done tt (h ++ [mkBlock (bytes blk) false]).
Proof.
  intros Hl. unfold g_free.
  rewrite (list_lookup_middle h [] _ (length h) eq_refl). rewrite Hl. simpl.
  f_equal. rewrite insert_app_r_alt by lia.
  by rewrite Nat.sub_diag.
Qed.

(** Property X22.  A packet without payload: TRIGGER, END, or a tag for which
    [sr_packet_copy] has no case.  The copy allocates one block, the packet
    struct, and returns SR_OK for TRIGGER and END and SR_ERR for the others;
    in both cases [sr_packet_free] of the value left in [*copy] releases that
    block, and the heap of the caller is as it was. *)
Theorem copy_then_free_without_payload h packet ty :
  load_uint 2 (packet_type packet) h = Done ty h ->
  0 <= ty < 2 ^ 16 ->
  ty ∉ [SR_DF_HEADER; SR_DF_META; SR_DF_LOGIC; SR_DF_ANALOG] ->
  exists blk,
    sr_packet_copy packet h
    = Done (if (ty =? SR_DF_TRIGGER) || (ty =? SR_DF_END)
            then SR_OK else SR_ERR, Ptr (length h) 0) (h ++ [blk]) /\
    live blk = true /\
    sr_packet_free (Ptr (length h) 0) (h ++ [blk])
    = Done tt (h ++ [mkBlock (bytes blk) false]).
Proof.
  intros Hload Hrange Htag.
  destruct (copy_prologue h packet ty Hload Hrange)
    as (blk & Hpro & Hlive & Hlen & Htake & _).
  assert (Hno : forall t,
    t ∈ [SR_DF_HEADER; SR_DF_META; SR_DF_LOGIC; SR_DF_ANALOG] ->
    (ty =? t) = false).
  { intros t Ht. apply Z.eqb_neq. intros ->. done. }
  exists blk. split; [|split; [exact Hlive|]].
  - unfold sr_packet_copy. unfold bind in *.
    destruct (g_malloc0 sizeof_packet h) as [copy h1|]; [|discriminate].
    destruct (load_uint 2 (packet_type packet) h1) as [ty1 h2|];
      [|discriminate].
    destruct (store_uint 2 (packet_type copy) ty1 h2) as [[] h3|];
      [|discriminate].
    unfold ret in Hpro. injection Hpro as -> -> ->.
    destruct ((ty =? SR_DF_TRIGGER) || (ty =? SR_DF_END)); [reflexivity|].
    rewrite !Hno by (apply list_elem_of_In; simpl; tauto). reflexivity.
  - unfold sr_packet_free, bind.
    change (packet_type (Ptr (length h) 0)) with (Ptr (length h) 0).
    rewrite (load_uint16_last h blk ty) by (try done; lia).
    destruct ((ty =? SR_DF_TRIGGER) || (ty =? SR_DF_END)).
    { unfold ret. by apply g_free_last. }
    rewrite !Hno by (apply list_elem_of_In; simpl; tauto).
    unfold ret. by apply g_free_last.
Qed.

Lemma copy_then_free_without_payload_witness :
  exists blk,
    sr_packet_copy (Ptr 0 0) frame_begin_heap
    = Done (SR_ERR, Ptr 1 0) (frame_begin_heap ++ [blk]) /\
    live blk = true /\
    sr_packet_free (Ptr 1 0) (frame_begin_heap ++ [blk])
    = Done tt (frame_begin_heap ++ [mkBlock (bytes blk) false]).
Proof.
  apply (copy_then_free_without_payload frame_begin_heap (Ptr 0 0)
           SR_DF_FRAME_BEGIN).
  - reflexivity.
  - unfold SR_DF_FRAME_BEGIN. lia.
  - compute_done.
Defined.

Lemma load_bytes_at h b blk off n :
  h !! b = Some blk -> live blk = true -> 0 <= off -> 0 <= n ->
  off + n <= Z.of_nat (length (bytes blk)) ->
  load_bytes (Ptr b off) n h
  = Done (take (Z.to_nat n) (drop (Z.to_nat off) (bytes blk))) h.
Proof.
  intros Hb Hl Ho Hn Hfit. unfold load_bytes, access. rewrite Hb, Hl.
  destruct (Z.leb_spec 0 off); [|lia].
  destruct (Z.leb_spec 0 n); [|lia].
  destruct (Z.leb_spec (off + n) (Z.of_nat (length (bytes blk)))); [|lia].
  reflexivity.
Qed.

Lemma store_bytes_at h b blk off bs :
  h !! b = Some blk -> live blk = true -> 0 <= off ->
  off + Z.of_nat (length bs) <= Z.of_nat (length (bytes blk)) ->
  store_bytes (Ptr b off) bs h
  = Done tt
      (<[b := mkBlock (take (Z.to_nat off) (bytes blk) ++ bs
                       ++ drop (Z.to_nat off + length bs) (bytes blk)) true]> h).
Proof.
  intros Hb Hl Ho Hfit. unfold store_bytes, access. rewrite Hb, Hl.
  destruct (Z.leb_spec 0 off); [|lia].
  destruct (Z.leb_spec 0 (Z.of_nat (length bs))); [|lia].
  destruct (Z.leb_spec (off + Z.of_nat (length bs))
              (Z.of_nat (length (bytes blk)))); [|lia].
  reflexivity.
Qed.

Lemma g_free_at h b blk :
  h !! b = Some blk -> live blk = true ->
  g_free (Ptr b 0) h = Done tt (<[b := mkBlock (bytes blk) false]> h).
Proof. intros Hb Hl. unfold g_free. by rewrite Hb, Hl. Qed.

Lemma decode_encode_ptr p : decode_ptr (encode_ptr p) = Some p.
Proof.
  destruct p as [|b off]; [reflexivity|].
  unfold decode_ptr. cbn [encode_ptr fmap list_fmap seq].
  by rewrite decide_True.
Qed.

Lemma load_ptr_at h b blk off p :
  h !! b = Some blk -> live blk = true -> 0 <= off ->
  off + 8 <= Z.of_nat (length (bytes blk)) ->
  take 8 (drop (Z.to_nat off) (bytes blk)) = encode_ptr p ->
  load_ptr (Ptr b off) h = Done p h.
Proof.
  intros Hb Hl Ho Hfit Hbytes. unfold load_ptr, bind, sizeof_ptr.
  rewrite (load_bytes_at h b blk off 8) by (try done; lia).
  change (Z.to_nat 8) with 8%nat. by rewrite Hbytes, decode_encode_ptr.
Qed.

Lemma load_uint16_at h b blk ty :
  h !! b = Some blk -> live blk = true -> 0 <= ty < 2 ^ 16 ->
  (2 <= length (bytes blk))%nat ->
  take 2 (bytes blk) = encode_uint 2 ty ->
  load_uint 2 (Ptr b 0) h = Done ty h.
Proof.
  intros Hb Hl Hr Hlen Ht. unfold load_uint, bind.
  rewrite (load_bytes_at h b blk 0 2) by (try done; lia).
  change (Z.to_nat 0) with 0%nat. change (Z.to_nat 2) with 2%nat.
  by rewrite drop_0, Ht, (decode_encode_uint16 ty Hr).
Qed.

Lemma lookup_two_0 (h : heap) b0 b1 : (h ++ [b0; b1]) !! length h = Some b0.
Proof. by rewrite (list_lookup_middle h [b1] b0 (length h) eq_refl). Qed.

Lemma lookup_two_1 (h : heap) b0 b1 :
  (h ++ [b0; b1]) !! S (length h) = Some b1.
Proof.
  rewrite lookup_app_r by lia.
  by replace (S (length h) - length h)%nat with 1%nat by lia.
Qed.

Lemma insert_two_0 (h : heap) b0 b1 x :
  <[length h := x]> (h ++ [b0; b1]) = h ++ [x; b1].
Proof. rewrite insert_app_r_alt by lia. by rewrite Nat.sub_diag. Qed.

Lemma insert_two_1 (h : heap) b0 b1 x :
  <[S (length h) := x]> (h ++ [b0; b1]) = h ++ [b0; x].
Proof.
  rewrite insert_app_r_alt by lia.
  by replace (S (length h) - length h)%nat with 1%nat by lia.
Qed.

Lemma load_bytes_length p n h bs h' :
  load_bytes p n h = Done bs h' -> 0 <= n -> length bs = Z.to_nat n.
Proof.
  unfold load_bytes, access. destruct p as [|b off]; [discriminate|].
  destruct (h !! b) as [blk|]; [|discriminate].
  destruct (live blk); [|discriminate]. simpl.
  destruct (Z.leb_spec 0 off); [|discriminate]. simpl.
  destruct (Z.leb_spec 0 n); [|discriminate]. simpl.
  destruct (Z.leb_spec (off + n) (Z.of_nat (length (bytes blk))));
    [|discriminate].
  intros [= <- <-] _. rewrite length_take, length_drop. lia.
Qed.

(** Property X23.  A header packet.  [sr_packet_copy] returns SR_OK and
    allocates two blocks: the packet struct, whose payload field points to the
    second, and a payload block that holds the bytes of the payload of the
    original.  [sr_packet_free] of the copy releases both, and the heap of the
    caller is as it was. *)
Theorem copy_header_duplicates_payload h packet src bs :
  load_uint 2 (packet_type packet) h = Done SR_DF_HEADER h ->
  load_ptr (packet_payload packet) h = Done src h ->
  load_bytes src sizeof_header h = Done bs h ->
  exists b0,
    sr_packet_copy packet h
    = Done (SR_OK, Ptr (length h) 0) (h ++ [b0; mkBlock bs true]) /\
    live b0 = true /\
    load_ptr (packet_payload (Ptr (length h) 0)) (h ++ [b0; mkBlock bs true])
    = Done (Ptr (S (length h)) 0) (h ++ [b0; mkBlock bs true]) /\
    sr_packet_free (Ptr (length h) 0) (h ++ [b0; mkBlock bs true])
    = Done tt (h ++ [mkBlock (bytes b0) false; mkBlock bs false]).
Proof.
  intros Hty Hpl Hbs.
  pose proof (load_bytes_length _ _ _ _ _ Hbs ltac:(unfold sizeof_header; lia))
    as Hlen.
  change (Z.to_nat sizeof_header) with 24%nat in Hlen.
  destruct (copy_prologue h packet SR_DF_HEADER Hty
              ltac:(unfold SR_DF_HEADER; lia))
    as (blk & Hpro & Hlive & Hblen & Htake & Hdrop).
  set (b0 := mkBlock (take 8 (bytes blk)
                      ++ encode_ptr (Ptr (S (length h)) 0)
                      ++ drop 16 (bytes blk)) true).
  assert (Hb0len : length (bytes b0) = 16%nat).
  { unfold b0. cbn [bytes]. rewrite !length_app, length_take, length_drop.
    rewrite Hblen. reflexivity. }
  assert (Hb0ty : take 2 (bytes b0) = encode_uint 2 SR_DF_HEADER).
  { unfold b0. cbn [bytes]. rewrite take_app_le by (rewrite length_take; lia).
    rewrite take_take. exact Htake. }
  assert (Hb0pl : take 8 (drop 8 (bytes b0))
                  = encode_ptr (Ptr (S (length h)) 0)).
  { unfold b0. cbn [bytes].
    rewrite drop_app_length' by (rewrite length_take; lia).
    by rewrite take_app_length' by reflexivity. }
  exists b0. split; [|split; [reflexivity|split]].
  - unfold sr_packet_copy. unfold bind in *.
    destruct (g_malloc0 sizeof_packet h) as [copy h1|]; [|discriminate].
    destruct (load_uint 2 (packet_type packet) h1) as [ty1 h2|];
      [|discriminate].
    destruct (store_uint 2 (packet_type copy) ty1 h2) as [[] h3|];
      [|discriminate].
    unfold ret in Hpro. injection Hpro as -> -> ->.
    change ((SR_DF_HEADER =? SR_DF_TRIGGER) || (SR_DF_HEADER =? SR_DF_END))
      with false.
    change (SR_DF_HEADER =? SR_DF_HEADER) with true. cbn iota.
    unfold g_malloc, sizeof_header. rewrite alloc_fresh by lia.
    rewrite length_app. cbn [length]. rewrite Nat.add_1_r.
    set (b1 := mkBlock (replicate (Z.to_nat 24) MUndef) true).
    rewrite <- app_assoc. change ([blk] ++ [b1]) with [blk; b1].
    destruct (load_ptr_app _ [blk; b1] _ _ _ Hpl) as [_ ->].
    unfold memcpy, bind.
    destruct (load_bytes_app _ [blk; b1] _ _ _ _ Hbs) as [_ Hbs'].
    unfold sizeof_header in Hbs'. rewrite Hbs'.
    rewrite (store_bytes_at _ (S (length h)) b1 0 bs (lookup_two_1 h blk b1)
               eq_refl ltac:(lia))
      by (cbn [bytes b1]; rewrite length_replicate, Hlen; lia).
    cbn [bytes b1]. change (Z.to_nat 0) with 0%nat.
    rewrite take_0, Hlen. cbn [Nat.add].
    change (drop 24 (replicate (Z.to_nat 24) MUndef)) with (@nil mbyte).
    rewrite app_nil_r, app_nil_l, insert_two_1.
    unfold store_ptr, packet_payload. cbn [ptr_add].
    rewrite (store_bytes_at _ (length h) blk (0 + 8) _
               (lookup_two_0 h blk (mkBlock bs true)) Hlive ltac:(lia))
      by (rewrite Hblen; simpl; lia).
    rewrite insert_two_0. unfold ret. reflexivity.
  - unfold packet_payload. cbn [ptr_add].
    apply (load_ptr_at _ _ b0); [apply lookup_two_0 | reflexivity | lia
                                | rewrite Hb0len; lia | exact Hb0pl].
  - unfold sr_packet_free, bind.
    change (packet_type (Ptr (length h) 0)) with (Ptr (length h) 0).
    rewrite (load_uint16_at _ _ b0 SR_DF_HEADER
               (lookup_two_0 h b0 (mkBlock bs true)) eq_refl)
      by (try exact Hb0ty; try (rewrite Hb0len; lia); unfold SR_DF_HEADER; lia).
    change ((SR_DF_HEADER =? SR_DF_TRIGGER) || (SR_DF_HEADER =? SR_DF_END))
      with false.
    change (SR_DF_HEADER =? SR_DF_HEADER) with true. cbn iota.
    unfold packet_payload. cbn [ptr_add].
    rewrite (load_ptr_at _ _ b0 (0 + 8) (Ptr (S (length h)) 0)
               (lookup_two_0 h b0 (mkBlock bs true)) eq_refl ltac:(lia))
      by (try exact Hb0pl; rewrite Hb0len; lia).
    rewrite (g_free_at _ _ (mkBlock bs true)
               (lookup_two_1 h b0 (mkBlock bs true)) eq_refl).
    rewrite insert_two_1.
    rewrite (g_free_at _ _ b0
               (lookup_two_0 h b0 (mkBlock (bytes (mkBlock bs true)) false))
               eq_refl).
    by rewrite insert_two_0.
Qed.

Lemma copy_header_duplicates_payload_witness :
  exists b0 bs,
    sr_packet_copy (Ptr 0 0) header_heap
    = Done (SR_OK, Ptr 2 0) (header_heap ++ [b0; mkBlock bs true]) /\
    header_heap !! 1%nat = Some (mkBlock bs true) /\
    sr_packet_free (Ptr 2 0) (header_heap ++ [b0; mkBlock bs true])
    = Done tt (header_heap ++ [mkBlock (bytes b0) false; mkBlock bs false]).
Proof.
  edestruct (copy_header_duplicates_payload header_heap (Ptr 0 0) (Ptr 1 0))
    as (b0 & H1 & _ & _ & H2); [reflexivity | reflexivity | reflexivity|].
  eexists b0, _. split; [exact H1|]. split; [reflexivity | exact H2].
Defined.

Lemma store_bytes_outside h b blk off bs :
  h !! b = Some blk ->
  Z.of_nat (length (bytes blk)) < off + Z.of_nat (length bs) ->
  store_bytes (Ptr b off) bs h = Undefined h.
Proof.
  intros Hb Hout. unfold store_bytes, access. rewrite Hb.
  destruct (Z.leb_spec (off + Z.of_nat (length bs))
              (Z.of_nat (length (bytes blk)))); [lia|].
  by rewrite andb_false_r.
Qed.

(** Property X24.  On every analog packet with an empty channel list whose
    fields can be read, [sr_packet_copy] ends in undefined behaviour: the
    payload block that it allocates has the size of a pointer, the channel
    list pointer fills it, and the store of [num_samples] falls outside. *)
Theorem copy_analog_packet_undefined h packet analog n :
  load_uint 2 (packet_type packet) h = Done SR_DF_ANALOG h ->
  load_ptr (packet_payload packet) h = Done analog h ->
  load_ptr (analog_channels analog) h = Done Null h ->
  load_uint 4 (analog_num_samples analog) h = Done n h ->
  exists b0 b1,
    sr_packet_copy packet h = Undefined (h ++ [b0; b1]) /\
    length (bytes b1) = Z.to_nat sizeof_ptr /\ sizeof_ptr < sizeof_analog.
Proof.
  intros Hty Hpl Hch Hn.
  destruct (copy_prologue h packet SR_DF_ANALOG Hty
              ltac:(unfold SR_DF_ANALOG; lia))
    as (blk & Hpro & Hlive & Hblen & _ & _).
  exists blk, (mkBlock (encode_ptr Null) true).
  split; [|split; reflexivity].
  unfold sr_packet_copy. unfold bind in *.
  destruct (g_malloc0 sizeof_packet h) as [copy h1|]; [|discriminate].
  destruct (load_uint 2 (packet_type packet) h1) as [ty1 h2|];
    [|discriminate].
  destruct (store_uint 2 (packet_type copy) ty1 h2) as [[] h3|];
    [|discriminate].
  unfold ret in Hpro. injection Hpro as -> -> ->.
  change ((SR_DF_ANALOG =? SR_DF_TRIGGER) || (SR_DF_ANALOG =? SR_DF_END))
    with false.
  change (SR_DF_ANALOG =? SR_DF_HEADER) with false.
  change (SR_DF_ANALOG =? SR_DF_META) with false.
  change (SR_DF_ANALOG =? SR_DF_LOGIC) with false.
  change (SR_DF_ANALOG =? SR_DF_ANALOG) with true. cbn iota.
  destruct (load_ptr_app _ [blk] _ _ _ Hpl) as [_ ->].
  unfold g_malloc, sizeof_ptr. rewrite alloc_fresh by lia.
  rewrite length_app. cbn [length]. rewrite Nat.add_1_r.
  set (b1 := mkBlock (replicate (Z.to_nat 8) MUndef) true).
  rewrite <- app_assoc. change ([blk] ++ [b1]) with [blk; b1].
  destruct (load_ptr_app _ [blk; b1] _ _ _ Hch) as [_ ->].
  unfold g_slist_copy. cbn [g_slist_copy_loop is_null]. unfold ret at 1.
  unfold store_ptr, analog_channels. cbn [ptr_add].
  rewrite (store_bytes_at _ (S (length h)) b1 (0 + 0) _
             (lookup_two_1 h blk b1) eq_refl ltac:(lia))
    by (cbn [bytes b1]; simpl; lia).
  rewrite insert_two_1.
  change (mkBlock _ true) with (mkBlock (encode_ptr Null) true) at 1.
  destruct (load_uint_app _ [blk; mkBlock (encode_ptr Null) true] _ _ _ _ Hn)
    as [_ ->].
  unfold store_uint, analog_num_samples. cbn [ptr_add].
  rewrite (store_bytes_outside _ (S (length h)) (mkBlock (encode_ptr Null) true)
             (0 + 8) _ (lookup_two_1 h blk _)); [reflexivity|].
  rewrite encode_uint_length by lia. simpl. lia.
Qed.

Lemma copy_analog_packet_undefined_witness :
  exists b0 b1,
    sr_packet_copy (Ptr 0 0)
      [ mkBlock (encode_uint 2 SR_DF_ANALOG ++ pad 6 ++ encode_ptr (Ptr 1 0))
          true;
        mkBlock (encode_ptr Null ++ encode_uint 4 1 ++ encode_uint 4 0
                 ++ encode_uint 4 0 ++ pad 4 ++ encode_uint 8 0
                 ++ encode_ptr (Ptr 2 0)) true;
        mkBlock (pad 4) true ]
    = Undefined
        ([ mkBlock (encode_uint 2 SR_DF_ANALOG ++ pad 6 ++ encode_ptr (Ptr 1 0))
             true;
           mkBlock (encode_ptr Null ++ encode_uint 4 1 ++ encode_uint 4 0
                    ++ encode_uint 4 0 ++ pad 4 ++ encode_uint 8 0
                    ++ encode_ptr (Ptr 2 0)) true;
           mkBlock (pad 4) true ] ++ [b0; b1]) /\
    length (bytes b1) = Z.to_nat sizeof_ptr /\ sizeof_ptr < sizeof_analog.
Proof.
  apply (copy_analog_packet_undefined _ (Ptr 0 0) (Ptr 1 0) 1); reflexivity.
Defined.

(** Property X25.  [sr_packet_free] of a logic packet whose struct, payload
    struct and sample buffer are three live blocks releases exactly these
    three, and changes nothing else in the heap. *)
Theorem free_logic_packet_releases_three_blocks h bp bl bd blkp blkl blkd :
  h !! bp = Some blkp -> h !! bl = Some blkl -> h !! bd = Some blkd ->
  live blkp = true -> live blkl = true -> live blkd = true ->
  bp <> bl -> bp <> bd -> bl <> bd ->
  load_uint 2 (packet_type (Ptr bp 0)) h = Done SR_DF_LOGIC h ->
  load_ptr (packet_payload (Ptr bp 0)) h = Done (Ptr bl 0) h ->
  load_ptr (logic_data (Ptr bl 0)) h = Done (Ptr bd 0) h ->
  sr_packet_free (Ptr bp 0) h
  = Done tt
      (<[bp := mkBlock (bytes blkp) false]>
         (<[bl := mkBlock (bytes blkl) false]>
            (<[bd := mkBlock (bytes blkd) false]> h))).
Proof.
  intros Hp Hl Hd Lp Ll Ld Npl Npd Nld Hty Hpl Hda.
  unfold sr_packet_free, bind. rewrite Hty.
  change ((SR_DF_LOGIC =? SR_DF_TRIGGER) || (SR_DF_LOGIC =? SR_DF_END))
    with false.
  change (SR_DF_LOGIC =? SR_DF_HEADER) with false.
  change (SR_DF_LOGIC =? SR_DF_META) with false.
  change (SR_DF_LOGIC =? SR_DF_LOGIC) with true. cbn beta iota.
  rewrite Hpl, Hda.
  rewrite (g_free_at h bd blkd Hd Ld).
  rewrite (g_free_at _ bl blkl) by (by rewrite ?list_lookup_insert_ne).
  rewrite (g_free_at _ bp blkp) by (by rewrite ?list_lookup_insert_ne).
  reflexivity.
Qed.

Lemma free_logic_packet_releases_three_blocks_witness :
  sr_packet_free (Ptr 0 0) logic_heap
  = Done tt ((fun blk => mkBlock (bytes blk) false) <$> logic_heap).
Proof.
  rewrite (free_logic_packet_releases_three_blocks logic_heap 0 1 2
             _ _ _ eq_refl eq_refl eq_refl eq_refl eq_refl eq_refl
             ltac:(discriminate) ltac:(discriminate) ltac:(discriminate)
             eq_refl eq_refl eq_refl).
  reflexivity.
Defined.
